(** * CRM backend: calendar windows, event store, attendees, password reset

    A shallow embedding of the calendar module and of the password-reset
    view of the CRM backend, with the properties of its specification stated
    and settled against the embedded code.

    Definitions: the Python values and exceptions the handlers use, float
    rounding and strings ([Py]), the part of the [datetime] module they call
    ([PyDatetime], [PyDatetimeIso]), [pytz] lookup ([Pytz]), the models and
    the store ([Models]), the serializers ([Serializers]), the calendar
    views ([Views]), the authentication views ([Auth]), a concrete library
    with sample data ([Fixtures]) and the predicates of the statements
    ([Props]); then the two computed properties of an event
    ([ModelProperties]), the forgot-password view ([Forgot]), further
    predicates ([MoreProps]) and sample data ([MoreFixtures]).

    Lemmas: calendar arithmetic ([DatetimeFacts], [BoundaryFacts]), the
    windows of the week and month views ([Windows]), the queryset
    ([QuerysetFacts], [Visibility]), attendees ([Attendees]), float
    rounding ([FloatFacts]), the field checks ([FieldFacts]), range check
    and duration ([EventStore]), password reset ([PasswordReset]) and
    reminders ([Reminders]); then the exact content of the queryset
    ([QuerysetExact]), the order and reach of the calendar views
    ([CalendarViews]), the writes of events ([EventWrites]), the reminder
    endpoints ([ReminderViews]), the invariants of the tables
    ([StoreInvariants]), past and ongoing events ([EventClock]), reset
    tokens ([ResetTokens]), forgot password followed by reset
    ([ForgotPassword]), and the properties at sample data ([Examples]).

    Conventions.  Instants are exact integers of microseconds; stored
    datetimes are UTC.  A float is given by the rational it denotes, and
    every float operation rounds as a double does.  A string is the UTF-8
    encoding of a Python [str]; lengths and whitespace are those of its
    characters.  A handler returns [Ok response] or [Raise e];
    [Views.handle_exception] turns the exceptions that DRF handles into
    responses, and an exception that is left is a server error.  Query
    parameters are strings.  A body that a serializer reads arrives field
    by field, each field absent or a value of its type; the [user_id] of
    the attendee actions, which no serializer reads, is any value of a
    body.  Primary keys in a URL are integers. *)

From Stdlib Require Import ZArith List String Ascii Bool Lia.
From Stdlib Require Import QArith Qround Qpower Lqa DecimalString.
From Stdlib Require Import Sorted Permutation.
Import ListNotations.

Local Open Scope Z_scope.

(* ================================================================== *)
(** * Python values, exceptions and results                           *)
(* ================================================================== *)

Module Py.

(** The exceptions that the embedded code can raise.  [Http404] carries
    its message; [ValidationError] is the exception of DRF, given by
    the key of the first field that fails (or [non_field_errors]) and
    the first message under that key; [DjangoValidationError] is the
    exception of [django.core.exceptions], which DRF does not handle. *)
Inductive exn : Type :=
| ValueError
| TypeError
| OverflowError
| UnknownTimeZoneError
| DoesNotExist
| Http404 (detail : string)
| ValidationError (field : string) (detail : string)
| DjangoValidationError (message : string).

(** A computation either returns a value or raises. *)
Inductive result (A : Type) : Type :=
| Ok (a : A)
| Raise (e : exn).
Arguments Ok {A} a.
Arguments Raise {A} e.

Definition bind {A B} (r : result A) (k : A -> result B) : result B :=
  match r with
  | Ok a => k a
  | Raise e => Raise e
  end.

Definition ret {A} (a : A) : result A := Ok a.

(** [try r except e: h] for a single exception class. *)
Definition catch {A} (r : result A) (handles : exn -> bool) (h : result A)
  : result A :=
  match r with
  | Ok a => Ok a
  | Raise e => if handles e then h else Raise e
  end.

Definition is_ValueError (e : exn) : bool :=
  match e with ValueError => true | _ => false end.

Definition is_DoesNotExist (e : exn) : bool :=
  match e with DoesNotExist => true | _ => false end.

(** Python's floor division and modulo by a positive divisor are
    [Z.div] and [Z.modulo]; [divmod] pairs them. *)
Definition divmod (a b : Z) : Z * Z := (a / b, a mod b).

(** [int(x)] on a number truncates toward zero. *)
Definition int_of_Q (q : Q) : Z := Z.quot (Qnum q) (Zpos (Qden q)).

(** ** Floats

    A finite [float] is given by the rational it denotes.
    [float_round q] is the double nearest to [q], ties going to the even
    mantissa: the rounding that [int / int] and [float / float] apply to
    the exact quotient.  The exponent range of a double is not
    modelled; the quotients taken here are zero or lie between 1e-8 and
    1e12 in magnitude. *)

(** The integer nearest to [t], ties to even. *)
Definition round_half_even (t : Q) : Z :=
  let n := Qfloor t in
  match Qcompare (t - inject_Z n) (1 # 2) with
  | Lt => n
  | Gt => n + 1
  | Eq => if Z.even n then n else n + 1
  end.

(** [floor (log2 q)] for a positive [q]. *)
Definition ilog2 (q : Q) : Z :=
  let e := Z.log2 (Qnum q) - Z.log2 (Zpos (Qden q)) in
  match Qcompare q (2 ^ e) with
  | Lt => e - 1
  | _ => e
  end.

(** A positive [q] rounded to 53 significant bits. *)
Definition float_round_pos (q : Q) : Q :=
  let e := ilog2 q in
  (inject_Z (round_half_even (q * 2 ^ (52 - e))) * 2 ^ (e - 52))%Q.

Definition float_round (q : Q) : Q :=
  match Qcompare q 0 with
  | Eq => 0%Q
  | Gt => float_round_pos q
  | Lt => (- float_round_pos (- q))%Q
  end.

(** [a / b] for two [int]s, [b] positive. *)
Definition true_divide (a b : Z) : Q := float_round (Qmake a (Z.to_pos b)).

(** [x / y] for two [float]s. *)
Definition float_div (x y : Q) : Q := float_round (x / y).

(** ** Strings

    A [string] holds the UTF-8 encoding of a Python [str]. *)

Definition byte (c : ascii) : Z := Z.of_nat (nat_of_ascii c).

Definition chr (n : Z) : ascii := ascii_of_nat (Z.to_nat n).

(** A byte that continues a multi-byte sequence. *)
Definition is_continuation (c : ascii) : bool :=
  (128 <=? byte c) && (byte c <? 192).

(** The characters of a string: each leading byte with the continuation
    bytes that follow it. *)
Fixpoint chars (s : string) : list string :=
  match s with
  | EmptyString => []
  | String c r =>
      match r with
      | EmptyString => [String c EmptyString]
      | String d _ =>
          if is_continuation d then
            match chars r with
            | ch :: l => String c ch :: l
            | [] => [String c EmptyString]
            end
          else String c EmptyString :: chars r
      end
  end.

(** [len(s)]: the number of characters. *)
Definition len (s : string) : Z := Z.of_nat (List.length (chars s)).

(** The UTF-8 encoding of a code point. *)
Definition utf8 (cp : Z) : string :=
  if cp <? 128 then String (chr cp) EmptyString
  else if cp <? 2048 then
    String (chr (192 + cp / 64)) (String (chr (128 + cp mod 64)) EmptyString)
  else if cp <? 65536 then
    String (chr (224 + cp / 4096))
      (String (chr (128 + (cp / 64) mod 64))
         (String (chr (128 + cp mod 64)) EmptyString))
  else
    String (chr (240 + cp / 262144))
      (String (chr (128 + (cp / 4096) mod 64))
         (String (chr (128 + (cp / 64) mod 64))
            (String (chr (128 + cp mod 64)) EmptyString))).

(** The code points that [str.isspace] and [str.strip] take as
    whitespace. *)
Definition whitespace : list Z :=
  [9; 10; 11; 12; 13; 28; 29; 30; 31; 32; 133; 160; 5760;
   8192; 8193; 8194; 8195; 8196; 8197; 8198; 8199; 8200; 8201; 8202;
   8232; 8233; 8239; 8287; 12288].

Definition isspace (ch : string) : bool :=
  existsb (fun cp => String.eqb ch (utf8 cp)) whitespace.

Fixpoint drop_spaces (l : list string) : list string :=
  match l with
  | [] => []
  | ch :: r => if isspace ch then drop_spaces r else l
  end.

(** [s.strip()]. *)
Definition strip (s : string) : string :=
  String.concat EmptyString
    (rev (drop_spaces (rev (drop_spaces (chars s))))).

(** [chr(0) in s]. *)
Fixpoint has_null (s : string) : bool :=
  match s with
  | EmptyString => false
  | String c r => (byte c =? 0) || has_null r
  end.

(** [str(n)] for an integer. *)
Definition str_of_int (n : Z) : string :=
  NilZero.string_of_int (Z.to_int n).

(** The double quote, as a string. *)
Definition dquote : string := String (chr 34) EmptyString.

(** [str.lower] and [str.upper] on the ASCII letters; the other
    characters stay.  The views compare the result with ["true"] only,
    and no character outside ASCII lowers to one of its letters. *)
Definition lower_char (c : ascii) : ascii :=
  let n := nat_of_ascii c in
  if ((65 <=? Z.of_nat n) && (Z.of_nat n <=? 90))%Z
  then ascii_of_nat (n + 32) else c.

Definition upper_char (c : ascii) : ascii :=
  let n := nat_of_ascii c in
  if ((97 <=? Z.of_nat n) && (Z.of_nat n <=? 122))%Z
  then ascii_of_nat (n - 32) else c.

Fixpoint map_string (f : ascii -> ascii) (s : string) : string :=
  match s with
  | EmptyString => EmptyString
  | String c r => String (f c) (map_string f r)
  end.

Definition lower : string -> string := map_string lower_char.
Definition upper : string -> string := map_string upper_char.

(** ** Values of a request body

    What [request.data.get(key)] can give for a key that the view reads
    without a serializer: [None] (the key is absent or null), a
    boolean, an integer, a float (finite, or infinite for a literal
    beyond the range of a double), a string (of a JSON body or of a
    form), or a list or dictionary. *)
Inductive BodyValue : Type :=
| VNone
| VBool (b : bool)
| VInt (n : Z)
| VFloat (x : Q)
| VInfinity
| VStr (s : string)
| VCompound.

End Py.

Export Py.

Declare Scope py_scope.
Delimit Scope py_scope with py.
Notation "x <- c ;; k" := (bind c (fun x => k))
  (at level 61, c at next level, right associativity) : py_scope.
Notation "'try' c 'except' h '=>' r" := (catch c h r)
  (at level 62, c at next level, h at next level) : py_scope.
Open Scope py_scope.

(* ================================================================== *)
(** * The part of [datetime] that the views call                      *)
(* ================================================================== *)

Module PyDatetime.

Definition MINYEAR : Z := 1.
Definition MAXYEAR : Z := 9999.
Definition MAXORDINAL : Z := 3652059.

Definition DAYS_IN_MONTH (month : Z) : Z :=
  match month with
  | 1 => 31 | 2 => 28 | 3 => 31 | 4 => 30 | 5 => 31 | 6 => 30
  | 7 => 31 | 8 => 31 | 9 => 30 | 10 => 31 | 11 => 30 | 12 => 31
  | _ => -1
  end.

Definition DAYS_BEFORE_MONTH (month : Z) : Z :=
  match month with
  | 1 => 0 | 2 => 31 | 3 => 59 | 4 => 90 | 5 => 120 | 6 => 151
  | 7 => 181 | 8 => 212 | 9 => 243 | 10 => 273 | 11 => 304 | 12 => 334
  | _ => -1
  end.

Definition is_leap (year : Z) : bool :=
  (year mod 4 =? 0) && (negb (year mod 100 =? 0) || (year mod 400 =? 0)).

Definition days_before_year (year : Z) : Z :=
  let y := year - 1 in y * 365 + y / 4 - y / 100 + y / 400.

Definition days_in_month (year month : Z) : Z :=
  if (month =? 2) && is_leap year then 29 else DAYS_IN_MONTH month.

Definition days_before_month (year month : Z) : Z :=
  DAYS_BEFORE_MONTH month
  + (if (2 <? month) && is_leap year then 1 else 0).

Definition ymd2ord (year month day : Z) : Z :=
  days_before_year year + days_before_month year month + day.

Definition DI400Y : Z := 146097.
Definition DI100Y : Z := 36524.
Definition DI4Y : Z := 1461.

(** ** [date] *)

Record date : Type := mk_date { year : Z; month : Z; day : Z }.

(** [_ord2ymd]: the inverse of [ymd2ord] on proleptic Gregorian
    ordinals. *)
Definition ord2ymd (n0 : Z) : date :=
  let n := n0 - 1 in
  let '(n400, n) := divmod n DI400Y in
  let year := n400 * 400 + 1 in
  let '(n100, n) := divmod n DI100Y in
  let '(n4, n) := divmod n DI4Y in
  let '(n1, n) := divmod n 365 in
  let year := year + n100 * 100 + n4 * 4 + n1 in
  if (n1 =? 4) || (n100 =? 4) then mk_date (year - 1) 12 31
  else
    let leapyear := (n1 =? 3) && (negb (n4 =? 24) || (n100 =? 3)) in
    let month := Z.shiftr (n + 50) 5 in
    let preceding :=
      DAYS_BEFORE_MONTH month
      + (if (2 <? month) && leapyear then 1 else 0) in
    if n <? preceding then
      let month := month - 1 in
      let preceding :=
        preceding
        - (DAYS_IN_MONTH month
           + (if (month =? 2) && leapyear then 1 else 0)) in
      mk_date year month (n - preceding + 1)
    else mk_date year month (n - preceding + 1).

(** [_check_date_fields], on values that fit a C [int]. *)
Definition check_date_fields (y m d : Z) : result unit :=
  if negb ((MINYEAR <=? y) && (y <=? MAXYEAR)) then Raise ValueError
  else if negb ((1 <=? m) && (m <=? 12)) then Raise ValueError
  else if negb ((1 <=? d) && (d <=? days_in_month y m)) then Raise ValueError
  else Ok tt.

(** The constructors read each argument as a C [int]; a value that
    does not fit raises [OverflowError] before the fields are checked. *)
Definition fits_c_int (n : Z) : bool :=
  (-2147483648 <=? n) && (n <=? 2147483647).

(** [date(year, month, day)]. *)
Definition new_date (y m d : Z) : result date :=
  if fits_c_int y && fits_c_int m && fits_c_int d
  then (_ <- check_date_fields y m d ;; ret (mk_date y m d))
  else Raise OverflowError.

Definition toordinal (d : date) : Z := ymd2ord (year d) (month d) (day d).

Definition fromordinal (n : Z) : date := ord2ymd n.

(** [date.weekday()]: Monday is 0, Sunday is 6. *)
Definition weekday (d : date) : Z := (toordinal d + 6) mod 7.

(** ** [timedelta], kept normalised as Python keeps it:
    [0 <= seconds < 86400] and [0 <= microseconds < 1000000]. *)
Record timedelta : Type :=
  mk_timedelta { td_days : Z; td_seconds : Z; td_microseconds : Z }.

Definition new_timedelta (days seconds microseconds : Z) : timedelta :=
  let '(s_carry, us) := divmod microseconds 1000000 in
  let seconds := seconds + s_carry in
  let '(d_carry, s) := divmod seconds 86400 in
  mk_timedelta (days + d_carry) s us.

Definition timedelta_days (n : Z) : timedelta := new_timedelta n 0 0.
Definition timedelta_seconds (n : Z) : timedelta := new_timedelta 0 n 0.
Definition timedelta_hours (n : Z) : timedelta :=
  new_timedelta 0 (n * 3600) 0.
Definition timedelta_minutes (n : Z) : timedelta :=
  new_timedelta 0 (n * 60) 0.

Definition td_add (a b : timedelta) : timedelta :=
  new_timedelta (td_days a + td_days b) (td_seconds a + td_seconds b)
    (td_microseconds a + td_microseconds b).

Definition td_neg (a : timedelta) : timedelta :=
  new_timedelta (- td_days a) (- td_seconds a) (- td_microseconds a).

(** The whole span in microseconds. *)
Definition td_total_microseconds (a : timedelta) : Z :=
  (td_days a * 86400 + td_seconds a) * 1000000 + td_microseconds a.

(** [timedelta.total_seconds()]: the microseconds divided by [10**6],
    a float. *)
Definition total_seconds (a : timedelta) : Q :=
  true_divide (td_total_microseconds a) 1000000.

(** [date + timedelta] and [date - timedelta]. *)
Definition date_add (d : date) (delta : timedelta) : result date :=
  let o := toordinal d + td_days delta in
  if (0 <? o) && (o <=? MAXORDINAL) then ret (fromordinal o)
  else Raise OverflowError.

Definition date_sub (d : date) (delta : timedelta) : result date :=
  date_add d (timedelta_days (- td_days delta)).

(** ** [time] *)
Record time : Type :=
  mk_time { hour : Z; minute : Z; second : Z; microsecond : Z }.

Definition time_min : time := mk_time 0 0 0 0.
Definition time_max : time := mk_time 23 59 59 999999.

(** ** [datetime] (naive: no tzinfo attached) *)
Record datetime : Type := mk_datetime { dt_date : date; dt_time : time }.

Definition combine (d : date) (t : time) : datetime := mk_datetime d t.

(** [datetime(year, month, day)]: midnight of that day. *)
Definition new_datetime (y m d : Z) : result datetime :=
  if fits_c_int y && fits_c_int m && fits_c_int d
  then (_ <- check_date_fields y m d ;;
        ret (mk_datetime (mk_date y m d) time_min))
  else Raise OverflowError.

Definition dt_seconds_of_day (x : datetime) : Z :=
  second (dt_time x) + minute (dt_time x) * 60 + hour (dt_time x) * 3600.

(** [datetime + timedelta]. *)
Definition datetime_add (x : datetime) (other : timedelta)
  : result datetime :=
  let delta :=
    td_add
      (new_timedelta (toordinal (dt_date x))
         (hour (dt_time x) * 3600 + minute (dt_time x) * 60
          + second (dt_time x))
         (microsecond (dt_time x)))
      other in
  let '(hour, rem) := divmod (td_seconds delta) 3600 in
  let '(minute, second) := divmod rem 60 in
  if (0 <? td_days delta) && (td_days delta <=? MAXORDINAL) then
    ret (combine (fromordinal (td_days delta))
           (mk_time hour minute second (td_microseconds delta)))
  else Raise OverflowError.

(** [datetime - timedelta]. *)
Definition datetime_sub (x : datetime) (other : timedelta)
  : result datetime :=
  datetime_add x (td_neg other).

(** [datetime - datetime] for two datetimes of one timezone. *)
Definition datetime_diff (a b : datetime) : timedelta :=
  new_timedelta
    (toordinal (dt_date a) - toordinal (dt_date b))
    (dt_seconds_of_day a - dt_seconds_of_day b)
    (microsecond (dt_time a) - microsecond (dt_time b)).

(** The instant of a datetime, in microseconds from the start of
    ordinal day 0. *)
Definition instant (x : datetime) : Z :=
  (toordinal (dt_date x) * 86400 + dt_seconds_of_day x) * 1000000
  + microsecond (dt_time x).

Definition datetime_leb (a b : datetime) : bool := instant a <=? instant b.
Definition datetime_ltb (a b : datetime) : bool := instant a <? instant b.

End PyDatetime.

Export PyDatetime.

Module PyDatetimeIso.

Definition date_eqb (a b : date) : bool :=
  (year a =? year b) && (month a =? month b) && (day a =? day b).

(** [_isoweek1monday]: ordinal of the Monday that starts ISO week 1. *)
Definition isoweek1monday (y : Z) : Z :=
  let THURSDAY := 3 in
  let firstday := ymd2ord y 1 1 in
  let firstweekday := (firstday + 6) mod 7 in
  let week1monday := firstday - firstweekday in
  if THURSDAY <? firstweekday then week1monday + 7 else week1monday.

(** [date.isocalendar()]: (ISO year, ISO week number, ISO weekday). *)
Definition isocalendar (d : date) : Z * Z * Z :=
  let y := year d in
  let week1monday := isoweek1monday y in
  let today := ymd2ord (year d) (month d) (day d) in
  let '(week, wday) := divmod (today - week1monday) 7 in
  if week <? 0 then
    let y := y - 1 in
    let week1monday := isoweek1monday y in
    let '(week, wday) := divmod (today - week1monday) 7 in
    (y, week + 1, wday + 1)
  else if (52 <=? week) && (isoweek1monday (y + 1) <=? today) then
    (y + 1, 1, wday + 1)
  else (y, week + 1, wday + 1).

Definition iso_week (d : date) : Z := snd (fst (isocalendar d)).

End PyDatetimeIso.

Export PyDatetimeIso.

(* ================================================================== *)
(** * [pytz]                                                          *)
(* ================================================================== *)

Module Pytz.

(** A timezone: its name and the UTC offset, in seconds, that it gives
    to a local wall-clock time. *)
Record tzinfo : Type :=
  mk_tzinfo { zone : string; utcoffset : datetime -> Z }.

Definition utc : tzinfo := mk_tzinfo "UTC" (fun _ => 0).

(** [pytz.timezone(zone)] for a string.  [tzdb] stands for the zone
    files shipped with pytz. *)
Definition timezone (tzdb : string -> option tzinfo) (zone : string)
  : result tzinfo :=
  if String.eqb (upper zone) "UTC" then ret utc
  else match tzdb zone with
       | Some tz => ret tz
       | None => Raise UnknownTimeZoneError
       end.

(** An aware datetime: wall-clock fields and the zone attached. *)
Record aware : Type := mk_aware { naive : datetime; tz : tzinfo }.

(** [tz.localize(dt)] for a naive [dt]; the views call it on [utc]
    only (see [Views.user_timezone_name]). *)
Definition localize (t : tzinfo) (dt : datetime) : aware := mk_aware dt t.

(** The instant an aware datetime denotes, on the scale of [instant]
    read in UTC. *)
Definition aware_instant (a : aware) : Z :=
  instant (naive a) - utcoffset (tz a) (naive a) * 1000000.

End Pytz.

Export Pytz.

(* ================================================================== *)
(** * Models and the store                                            *)
(* ================================================================== *)

Module Models.

(** [django.contrib.auth.models.User], the user model of the project:
    the settings name no other, and no model of the repository relates
    to it one to one, so a user has no [profile]. *)
Record User : Type :=
  mk_User {
      user_id : Z;
      username : string;
      email : string;
      password : string
    }.

(** [calendar_module.models.CalendarEvent]; stored datetimes are UTC. *)
Record CalendarEvent : Type :=
  mk_CalendarEvent {
      id : Z;
      title : string;
      description : option string;
      event_type : string;
      start_datetime : datetime;
      end_datetime : datetime;
      duration_minutes : option Z;
      created_by : Z;
      task_id : option Z;
      meeting_id : option Z;
      location : option string;
      color_code : string;
      priority : string;
      is_all_day : bool;
      reminder_minutes : option Z;
      is_completed : bool;
      created_at : datetime;
      updated_at : datetime
    }.

Definition EventType_choices : list string :=
  ["event"; "task"; "meeting"; "scheduled"; "task_reminder"]%string.

Definition EventPriority_choices : list string :=
  ["low"; "medium"; "high"]%string.

(** [calendar_module.models.EventReminder]. *)
Record EventReminder : Type :=
  mk_EventReminder {
      r_id : Z;
      r_event : Z;
      r_user : Z;
      reminder_datetime : datetime;
      is_sent : bool;
      sent_at : option datetime
    }.

(** [crmapp.models.PasswordResetToken]. *)
Record PasswordResetToken : Type :=
  mk_PasswordResetToken {
      t_id : Z;
      t_user : Z;
      token : string;
      expires_at : datetime;
      t_created_at : datetime
    }.

(** [PasswordResetToken.is_expired], with [timezone.now()] passed in. *)
Definition is_expired (now : datetime) (t : PasswordResetToken) : bool :=
  datetime_ltb (expires_at t) now.

(** The tables.  [event_attendees] is the many-to-many through table:
    one row [(event id, user id)] per membership.  The table of
    [RecurringEvent], which only its own endpoint reads and writes, is
    left out. *)
Record Store : Type :=
  mk_Store {
      users : list User;
      events : list CalendarEvent;
      event_attendees : list (Z * Z);
      reminders : list EventReminder;
      reset_tokens : list PasswordResetToken;
      next_event_id : Z;
      next_reminder_id : Z
    }.

Definition set_users (s : Store) (us : list User) : Store :=
  mk_Store us (events s) (event_attendees s) (reminders s)
    (reset_tokens s) (next_event_id s) (next_reminder_id s).

Definition set_events (s : Store) (es : list CalendarEvent) : Store :=
  mk_Store (users s) es (event_attendees s) (reminders s)
    (reset_tokens s) (next_event_id s) (next_reminder_id s).

Definition set_event_attendees (s : Store) (rows : list (Z * Z)) : Store :=
  mk_Store (users s) (events s) rows (reminders s)
    (reset_tokens s) (next_event_id s) (next_reminder_id s).

Definition set_reminders (s : Store) (rs : list EventReminder) : Store :=
  mk_Store (users s) (events s) (event_attendees s) rs
    (reset_tokens s) (next_event_id s) (next_reminder_id s).

Definition set_reset_tokens (s : Store) (ts : list PasswordResetToken)
  : Store :=
  mk_Store (users s) (events s) (event_attendees s) (reminders s)
    ts (next_event_id s) (next_reminder_id s).

(** ** Record updates of an event *)

Definition with_duration (e : CalendarEvent) (d : option Z)
  : CalendarEvent :=
  mk_CalendarEvent (id e) (title e) (description e) (event_type e)
    (start_datetime e) (end_datetime e) d (created_by e) (task_id e)
    (meeting_id e) (location e) (color_code e) (priority e)
    (is_all_day e) (reminder_minutes e) (is_completed e)
    (created_at e) (updated_at e).

Definition with_id (e : CalendarEvent) (i : Z) : CalendarEvent :=
  mk_CalendarEvent i (title e) (description e) (event_type e)
    (start_datetime e) (end_datetime e) (duration_minutes e)
    (created_by e) (task_id e) (meeting_id e) (location e)
    (color_code e) (priority e) (is_all_day e) (reminder_minutes e)
    (is_completed e) (created_at e) (updated_at e).

Definition with_is_completed (e : CalendarEvent) (b : bool)
  : CalendarEvent :=
  mk_CalendarEvent (id e) (title e) (description e) (event_type e)
    (start_datetime e) (end_datetime e) (duration_minutes e)
    (created_by e) (task_id e) (meeting_id e) (location e)
    (color_code e) (priority e) (is_all_day e) (reminder_minutes e)
    b (created_at e) (updated_at e).

Definition with_updated_at (e : CalendarEvent) (now : datetime)
  : CalendarEvent :=
  mk_CalendarEvent (id e) (title e) (description e) (event_type e)
    (start_datetime e) (end_datetime e) (duration_minutes e)
    (created_by e) (task_id e) (meeting_id e) (location e)
    (color_code e) (priority e) (is_all_day e) (reminder_minutes e)
    (is_completed e) (created_at e) now.

Definition with_created_at (e : CalendarEvent) (now : datetime)
  : CalendarEvent :=
  mk_CalendarEvent (id e) (title e) (description e) (event_type e)
    (start_datetime e) (end_datetime e) (duration_minutes e)
    (created_by e) (task_id e) (meeting_id e) (location e)
    (color_code e) (priority e) (is_all_day e) (reminder_minutes e)
    (is_completed e) now (updated_at e).

(** ** [CalendarEvent.save] *)

(** The body of [save] before the row is written: the duration is
    derived from the two datetimes (both are set, so the test
    [if self.start_datetime and self.end_datetime] holds), in float
    arithmetic: [int(duration.total_seconds() / 60)]. *)
Definition compute_duration (e : CalendarEvent) : Z :=
  let duration := datetime_diff (end_datetime e) (start_datetime e) in
  int_of_Q (float_div (total_seconds duration) (60 # 1)).

Definition pre_save (now : datetime) (e : CalendarEvent) : CalendarEvent :=
  with_updated_at (with_duration e (Some (compute_duration e))) now.

Fixpoint replace_event (e : CalendarEvent) (es : list CalendarEvent)
  : list CalendarEvent :=
  match es with
  | [] => []
  | x :: r => if id x =? id e then e :: r else x :: replace_event e r
  end.

Definition has_event_id (i : Z) (es : list CalendarEvent) : bool :=
  existsb (fun x => id x =? i) es.

(** [instance.save()]: an instance that has a row updates it; a new
    instance takes the next primary key and is inserted.  Returns the
    saved instance with the store. *)
Definition save (now : datetime) (fresh : bool) (e : CalendarEvent)
           (s : Store) : CalendarEvent * Store :=
  let e := pre_save now e in
  if fresh then
    let e := with_created_at (with_id e (next_event_id s)) now in
    (e, mk_Store (users s) (events s ++ [e]) (event_attendees s)
          (reminders s) (reset_tokens s) (next_event_id s + 1)
          (next_reminder_id s))
  else (e, set_events s (replace_event e (events s))).

(** [CalendarEvent.clean]: the range check of the model. *)
Definition clean (e : CalendarEvent) : result unit :=
  if datetime_leb (end_datetime e) (start_datetime e)
  then Raise (DjangoValidationError "End time must be after start time")
  else Ok tt.

(** ** Lookups *)

Definition find_user (uid : Z) (s : Store) : option User :=
  find (fun u => user_id u =? uid) (users s).

Definition find_event (pk : Z) (es : list CalendarEvent)
  : option CalendarEvent :=
  find (fun e => id e =? pk) es.

(** [User.objects.get(id=uid)] for a prepared lookup value: [None]
    becomes [id IS NULL] and matches no row. *)
Definition User_objects_get (uid : option Z) (s : Store) : result User :=
  match uid with
  | None => Raise DoesNotExist
  | Some i => match find_user i s with
              | Some u => Ok u
              | None => Raise DoesNotExist
              end
  end.

(** ** The attendees relation *)

Definition pair_eqb (a b : Z * Z) : bool :=
  (fst a =? fst b) && (snd a =? snd b).

Definition attendee_ids (ev : Z) (s : Store) : list Z :=
  map snd (filter (fun r => fst r =? ev) (event_attendees s)).

Definition is_attendee (ev uid : Z) (s : Store) : bool :=
  existsb (pair_eqb (ev, uid)) (event_attendees s).

(** [event.attendees.all()] as primary keys: the users joined with the
    through table, listed in the order of the user table. *)
Definition attendee_pks (ev : Z) (s : Store) : list Z :=
  map user_id (filter (fun u => is_attendee ev (user_id u) s) (users s)).

(** [event.attendees.add(user)]: a row is inserted only when the pair
    is not in the through table yet. *)
Definition attendees_add (ev uid : Z) (s : Store) : Store :=
  if is_attendee ev uid s then s
  else set_event_attendees s (event_attendees s ++ [(ev, uid)]).

(** [event.attendees.remove(user)]: the matching rows are deleted. *)
Definition attendees_remove (ev uid : Z) (s : Store) : Store :=
  set_event_attendees s
    (filter (fun r => negb (pair_eqb (ev, uid) r)) (event_attendees s)).

(** [event.attendees.set(ids)]: rows not listed are removed, listed
    users are added. *)
Definition attendees_set (ev : Z) (ids : list Z) (s : Store) : Store :=
  let kept :=
    filter (fun r => negb (fst r =? ev) || existsb (Z.eqb (snd r)) ids)
      (event_attendees s) in
  fold_left (fun acc uid => attendees_add ev uid acc) ids
    (set_event_attendees s kept).

End Models.

Export Models.

(* ================================================================== *)
(** * Serializers                                                     *)
(* ================================================================== *)

Module Serializers.

(** The body of an event write, field by field; [None] is a field the
    client did not send.  [d_created_by] and [d_duration_minutes] are
    what a client may send for the two read-only fields. *)
Record EventData : Type :=
  mk_EventData {
      d_title : option string;
      d_description : option (option string);
      d_event_type : option string;
      d_start_datetime : option datetime;
      d_end_datetime : option datetime;
      d_attendees : option (list Z);
      d_task_id : option (option Z);
      d_meeting_id : option (option Z);
      d_location : option (option string);
      d_color_code : option string;
      d_priority : option string;
      d_is_all_day : option bool;
      d_reminder_minutes : option (option Z);
      d_is_completed : option bool;
      d_created_by : option Z;
      d_duration_minutes : option Z
    }.

Definition opt_or {A} (x : option A) (dflt : A) : A :=
  match x with Some v => v | None => dflt end.

Definition str_in (x : string) (l : list string) : bool :=
  existsb (String.eqb x) l.

(** A validation error under the key [field]. *)
Definition invalid {A} (field msg : string) : result A :=
  Raise (ValidationError field msg).
Arguments invalid {A} (field msg)%_string.

(** ** The fields that [ModelSerializer] builds *)

(** The validators of a [CharField]: the length limit, then the check
    for null characters. *)
Definition char_validators (field : string) (max_length : option Z)
           (v : string) : result string :=
  let too_long := match max_length with
                  | Some n => n <? len v
                  | None => false
                  end in
  if too_long
  then invalid field
         ("Ensure this field has no more than "
          ++ str_of_int (opt_or max_length 0) ++ " characters.")
  else if has_null v then invalid field "Null characters are not allowed."
  else ret v.

(** [CharField.run_validation] on a string: the value is trimmed; an
    empty value is returned at once when blanks are allowed and refused
    when they are not; any other value goes through the validators. *)
Definition char_field (field : string) (allow_blank : bool)
           (max_length : option Z) (v : string) : result string :=
  let v := strip v in
  if String.eqb v EmptyString then
    if allow_blank then ret EmptyString
    else invalid field "This field may not be blank."
  else char_validators field max_length v.

(** [title]: required, not blank, at most 255 characters. *)
Definition check_title (partial : bool) (t : option string)
  : result (option string) :=
  match t with
  | None => if partial then ret None
            else invalid "title" "This field is required."
  | Some t => t <- char_field "title" false (Some 255) t ;; ret (Some t)
  end.

(** A field without a default: required unless the update is partial. *)
Definition check_required {A} (field : string) (partial : bool)
           (x : option A) : result (option A) :=
  match x with
  | None => if partial then ret None
            else invalid field "This field is required."
  | Some v => ret (Some v)
  end.

(** A [ChoiceField] with a default. *)
Definition check_choice (field : string) (choices : list string)
           (x : option string) : result (option string) :=
  match x with
  | None => ret None
  | Some v => if str_in v choices then ret (Some v)
              else invalid field
                     (dquote ++ v ++ dquote ++ " is not a valid choice.")
  end.

(** An optional [CharField] that may not be blank. *)
Definition check_char (field : string) (max_length : option Z)
           (x : option string) : result (option string) :=
  match x with
  | None => ret None
  | Some v => v <- char_field field false max_length v ;; ret (Some v)
  end.

(** An optional [CharField] that may be blank or null. *)
Definition check_char_null (field : string) (max_length : option Z)
           (x : option (option string)) : result (option (option string)) :=
  match x with
  | Some (Some v) =>
      v <- char_field field true max_length v ;; ret (Some (Some v))
  | _ => ret x
  end.

(** An optional, nullable [IntegerField] of a model [IntegerField]: the
    limits are those of the column, a 32-bit integer of PostgreSQL. *)
Definition check_integer (field : string) (x : option (option Z))
  : result (option (option Z)) :=
  match x with
  | Some (Some n) =>
      if 2147483647 <? n
      then invalid field
             "Ensure this value is less than or equal to 2147483647."
      else if n <? -2147483648
      then invalid field
             "Ensure this value is greater than or equal to -2147483648."
      else ret x
  | _ => ret x
  end.

Definition invalid_pk {A} (field : string) (pk : Z) : result A :=
  invalid field
    ("Invalid pk " ++ dquote ++ str_of_int pk ++ dquote
     ++ " - object does not exist.").

(** [attendees]: a list of primary keys, each of a user that exists;
    the first key that names no user is reported. *)
Definition check_attendees (s : Store) (x : option (list Z))
  : result (option (list Z)) :=
  match x with
  | None => ret None
  | Some ids =>
      match find (fun i => match find_user i s with
                           | Some _ => false
                           | None => true
                           end) ids with
      | None => ret (Some ids)
      | Some i => invalid_pk "attendees" i
      end
  end.

(** The three relation fields, which the two writing serializers list
    in different orders: [attendees], [task_id], [meeting_id] in
    [CalendarEventSerializer] and [task_id], [meeting_id], [attendees]
    in [CalendarEventCreateSerializer]. *)
Definition check_links (s : Store) (attendees_first : bool) (d : EventData)
  : result (option (list Z) * option (option Z) * option (option Z)) :=
  if attendees_first then
    attendees <- check_attendees s (d_attendees d) ;;
    task_id <- check_integer "task_id" (d_task_id d) ;;
    meeting_id <- check_integer "meeting_id" (d_meeting_id d) ;;
    ret (attendees, task_id, meeting_id)
  else
    task_id <- check_integer "task_id" (d_task_id d) ;;
    meeting_id <- check_integer "meeting_id" (d_meeting_id d) ;;
    attendees <- check_attendees s (d_attendees d) ;;
    ret (attendees, task_id, meeting_id).

(** Field-level validation: the fields are checked in the order in
    which the serializer lists them, and the first one that fails
    raises; the writable fields come back validated, fields the
    serializer does not write come back as [None].
    [with_is_completed] is true for the field list of
    [CalendarEventSerializer] and false for that of
    [CalendarEventCreateSerializer], which has no [is_completed]. *)
Definition run_field_validation (s : Store) (partial : bool)
           (with_is_completed : bool) (d : EventData) : result EventData :=
  title <- check_title partial (d_title d) ;;
  description <- check_char_null "description" None (d_description d) ;;
  event_type <- check_choice "event_type" EventType_choices
                  (d_event_type d) ;;
  start <- check_required "start_datetime" partial (d_start_datetime d) ;;
  end_ <- check_required "end_datetime" partial (d_end_datetime d) ;;
  links <- check_links s with_is_completed d ;;
  location <- check_char_null "location" (Some 255) (d_location d) ;;
  color_code <- check_char "color_code" (Some 7) (d_color_code d) ;;
  priority <- check_choice "priority" EventPriority_choices
                (d_priority d) ;;
  reminder_minutes <- check_integer "reminder_minutes"
                        (d_reminder_minutes d) ;;
  ret (mk_EventData title description event_type start end_
         (fst (fst links)) (snd (fst links)) (snd links) location
         color_code priority (d_is_all_day d) reminder_minutes
         (if with_is_completed then d_is_completed d else None)
         None None).

(** [CalendarEventSerializer.validate]. *)
Definition CalendarEventSerializer_validate (data : EventData)
  : result EventData :=
  match d_start_datetime data, d_end_datetime data with
  | Some start, Some end_ =>
      if datetime_leb end_ start
      then invalid "non_field_errors"
             "End datetime must be after start datetime"
      else ret data
  | _, _ => ret data
  end.

(** [CalendarEventSerializer(...).is_valid(raise_exception=True)]:
    the fields, then [validate]. *)
Definition CalendarEventSerializer_is_valid (s : Store) (partial : bool)
           (d : EventData) : result EventData :=
  v <- run_field_validation s partial true d ;;
  CalendarEventSerializer_validate v.

(** [CalendarEventCreateSerializer(...).is_valid(raise_exception=True)]:
    the class declares its fields and nothing else, so only the fields
    are checked. *)
Definition CalendarEventCreateSerializer_is_valid (s : Store)
           (partial : bool) (d : EventData) : result EventData :=
  run_field_validation s partial false d.

(** The three serializer classes of calendar events. *)
Inductive SerializerClass : Type :=
| CalendarEventSerializer
| CalendarEventListSerializer
| CalendarEventCreateSerializer.

(** [serializer.is_valid(raise_exception=True)] by class.  The list
    serializer has no [validate] either; it is never given input. *)
Definition is_valid (cls : SerializerClass) (s : Store) (partial : bool)
           (d : EventData) : result EventData :=
  match cls with
  | CalendarEventSerializer => CalendarEventSerializer_is_valid s partial d
  | CalendarEventListSerializer => run_field_validation s partial true d
  | CalendarEventCreateSerializer =>
      CalendarEventCreateSerializer_is_valid s partial d
  end.

(** The instance that [ModelSerializer.create] builds from validated
    data and the keyword [created_by], before it is saved.  Validated
    data of a create carries the three required fields, so the last
    case is not reached from the views. *)
Definition new_instance (now : datetime) (creator : Z) (v : EventData)
  : result CalendarEvent :=
  match d_title v, d_start_datetime v, d_end_datetime v with
  | Some t, Some st, Some en =>
      ret (mk_CalendarEvent 0 t (opt_or (d_description v) None)
             (opt_or (d_event_type v) "event"%string) st en None creator
             (opt_or (d_task_id v) None) (opt_or (d_meeting_id v) None)
             (opt_or (d_location v) None)
             (opt_or (d_color_code v) "#22c55e"%string)
             (opt_or (d_priority v) "medium"%string)
             (opt_or (d_is_all_day v) false)
             (opt_or (d_reminder_minutes v) None)
             (opt_or (d_is_completed v) false) now now)
  | _, _, _ => invalid "non_field_errors" "This field is required."
  end.

(** [ModelSerializer.create] under [serializer.save(created_by=user)]:
    the row is saved, then the attendees are set. *)
Definition serializer_create (now : datetime) (creator : Z) (v : EventData)
           (s : Store) : result CalendarEvent * Store :=
  match new_instance now creator v with
  | Raise e => (Raise e, s)
  | Ok inst =>
      let '(e, s) := save now true inst s in
      match d_attendees v with
      | Some ids => (Ok e, attendees_set (id e) ids s)
      | None => (Ok e, s)
      end
  end.

(** The [setattr] loop of [ModelSerializer.update]. *)
Definition set_attrs (e : CalendarEvent) (v : EventData) : CalendarEvent :=
  mk_CalendarEvent (id e)
    (opt_or (d_title v) (title e))
    (opt_or (d_description v) (description e))
    (opt_or (d_event_type v) (event_type e))
    (opt_or (d_start_datetime v) (start_datetime e))
    (opt_or (d_end_datetime v) (end_datetime e))
    (duration_minutes e)
    (created_by e)
    (opt_or (d_task_id v) (task_id e))
    (opt_or (d_meeting_id v) (meeting_id e))
    (opt_or (d_location v) (location e))
    (opt_or (d_color_code v) (color_code e))
    (opt_or (d_priority v) (priority e))
    (opt_or (d_is_all_day v) (is_all_day e))
    (opt_or (d_reminder_minutes v) (reminder_minutes e))
    (opt_or (d_is_completed v) (is_completed e))
    (created_at e) (updated_at e).

(** [ModelSerializer.update]: attributes set, instance saved, then the
    attendees set. *)
Definition serializer_update (now : datetime) (inst : CalendarEvent)
           (v : EventData) (s : Store) : CalendarEvent * Store :=
  let '(e, s) := save now false (set_attrs inst v) s in
  match d_attendees v with
  | Some ids => (e, attendees_set (id e) ids s)
  | None => (e, s)
  end.

(** ** Reminders *)

(** The body of a reminder write; [rd_is_sent] and [rd_sent_at] are
    what a client may send for the two read-only fields. *)
Record ReminderData : Type :=
  mk_ReminderData {
      rd_event : option Z;
      rd_user : option Z;
      rd_reminder_datetime : option datetime;
      rd_is_sent : option bool;
      rd_sent_at : option (option datetime)
    }.

Definition check_event_pk (s : Store) (x : option Z) : result (option Z) :=
  match x with
  | None => ret None
  | Some i => if has_event_id i (events s) then ret x
              else invalid_pk "event" i
  end.

Definition check_user_pk (s : Store) (x : option Z) : result (option Z) :=
  match x with
  | None => ret None
  | Some i => match find_user i s with
              | Some _ => ret x
              | None => invalid_pk "user" i
              end
  end.

Definition same_reminder_key (ev us : Z) (dt : datetime)
           (r : EventReminder) : bool :=
  (r_event r =? ev) && (r_user r =? us)
  && (instant (reminder_datetime r) =? instant dt).

Definition not_unique {A} : result A :=
  invalid "non_field_errors"
    "The fields event, user, reminder_datetime must make a unique set.".

(** [EventReminderSerializer(...).is_valid(raise_exception=True)].
    [inst] is the row being updated, if any; the result is the triple
    of writable values.  The read-only fields are dropped.  After the
    fields comes the validator of [unique_together], which on a create
    asks for its three fields and on an update takes from the row what
    the body leaves out. *)
Definition EventReminderSerializer_is_valid (s : Store) (partial : bool)
           (inst : option EventReminder) (d : ReminderData)
  : result (Z * Z * datetime) :=
  ev <- check_required "event" partial (rd_event d) ;;
  ev <- check_event_pk s ev ;;
  us <- check_required "user" partial (rd_user d) ;;
  us <- check_user_pk s us ;;
  dt <- check_required "reminder_datetime" partial
          (rd_reminder_datetime d) ;;
  match inst, ev, us, dt with
  | None, Some ev, Some us, Some dt =>
      if existsb (same_reminder_key ev us dt) (reminders s)
      then not_unique
      else ret (ev, us, dt)
  | Some r, _, _, _ =>
      let ev := opt_or ev (r_event r) in
      let us := opt_or us (r_user r) in
      let dt := opt_or dt (reminder_datetime r) in
      if existsb (fun x => same_reminder_key ev us dt x
                           && negb (r_id x =? r_id r)) (reminders s)
      then not_unique
      else ret (ev, us, dt)
  | None, None, _, _ => invalid "event" "This field is required."
  | None, Some _, None, _ => invalid "user" "This field is required."
  | None, Some _, Some _, None =>
      invalid "reminder_datetime" "This field is required."
  end.

End Serializers.

Export Serializers.

(* ================================================================== *)
(** * Calendar views                                                  *)
(* ================================================================== *)

Module Views.

(** What the views take from Python, Django, DRF and pytz: [int] on a
    string ([None] when it raises [ValueError]), [parse_date] ([None]
    for a string that is not a date, [ValueError] for an impossible
    date), the zones pytz knows, and the match of DRF's [SearchFilter]
    over title, description and location. *)
Record Lib : Type :=
  mk_Lib {
      int_of_str : string -> option Z;
      parse_date : string -> result (option date);
      tzdb : string -> option tzinfo;
      search_matches : string -> CalendarEvent -> bool
    }.

(** [request.query_params]. *)
Record QueryParams : Type :=
  mk_QueryParams {
      q_event_type : option string;
      q_is_completed : option string;
      q_date : option string;
      q_view : option string;
      q_search : option string;
      q_year : option string;
      q_month : option string
    }.

Definition no_params : QueryParams :=
  mk_QueryParams None None None None None None None.

(** One element of [CalendarEventListSerializer(events, many=True).data]. *)
Record EventListItem : Type :=
  mk_EventListItem {
      li_id : Z;
      li_title : string;
      li_event_type : string;
      li_start_datetime : datetime;
      li_end_datetime : datetime;
      li_duration_minutes : option Z;
      li_color_code : string;
      li_is_completed : bool;
      li_attendee_count : Z
    }.

(** Response bodies.  [EventDetail e a] is [CalendarEventSerializer(e).data]
    and [EventCreated e a] is [CalendarEventCreateSerializer(e).data],
    which renders the fields that serializer lists, both with the
    primary keys of the attendees; an error body is one key with its
    message (for a validation error, the first field that fails with
    its first message stands for DRF's dictionary of errors). *)
Inductive Body : Type :=
| EventList (items : list EventListItem)
| EventDetail (e : CalendarEvent) (attendees : list Z)
| EventCreated (e : CalendarEvent) (attendees : list Z)
| ReminderList (rs : list EventReminder)
| ReminderDetail (r : EventReminder)
| ErrorBody (key : string) (message : string)
| NoContent.

Record Response : Type := mk_Response { status : Z; data : Body }.

Definition HTTP_200_OK : Z := 200.
Definition HTTP_201_CREATED : Z := 201.
Definition HTTP_204_NO_CONTENT : Z := 204.
Definition HTTP_400_BAD_REQUEST : Z := 400.
Definition HTTP_404_NOT_FOUND : Z := 404.

(** A string that is present and not empty: the test [if x:]. *)
Definition truthy (x : option string) : bool :=
  match x with
  | Some (String _ _) => true
  | _ => false
  end.

Definition date_eq_dec (a b : date) : {a = b} + {a <> b}.
Proof. decide equality; apply Z.eq_dec. Defined.

Definition time_eq_dec (a b : time) : {a = b} + {a <> b}.
Proof. decide equality; apply Z.eq_dec. Defined.

Definition datetime_eq_dec (a b : datetime) : {a = b} + {a <> b}.
Proof. decide equality; [apply time_eq_dec | apply date_eq_dec]. Defined.

Definition option_eq_dec {A} (dec : forall a b : A, {a = b} + {a <> b})
           (x y : option A) : {x = y} + {x <> y}.
Proof. decide equality. Defined.

Definition CalendarEvent_eq_dec (a b : CalendarEvent) : {a = b} + {a <> b}.
Proof.
  decide equality;
    try apply datetime_eq_dec; try apply Bool.bool_dec;
    try apply string_dec; try apply Z.eq_dec;
    try (apply option_eq_dec; first [apply Z.eq_dec | apply string_dec]).
Defined.

(** ** [CalendarEventViewSet.get_queryset] *)

(** The SQL join behind [Q(created_by=u) | Q(attendees=u)]: an event is
    paired with each of its attendee rows, or with [None] when it has
    none. *)
Definition joined_rows (s : Store) : list (CalendarEvent * option Z) :=
  flat_map
    (fun e =>
       match attendee_ids (id e) s with
       | [] => [(e, None)]
       | ids => map (fun a => (e, Some a)) ids
       end)
    (events s).

Definition Q_creator_or_attendee (uid : Z) (row : CalendarEvent * option Z)
  : bool :=
  (created_by (fst row) =? uid)
  || match snd row with
     | Some a => a =? uid
     | None => false
     end.

(** [.distinct()]. *)
Definition distinct (l : list CalendarEvent) : list CalendarEvent :=
  nodup CalendarEvent_eq_dec l.

Definition base_queryset (uid : Z) (s : Store) : list CalendarEvent :=
  distinct (map fst (filter (Q_creator_or_attendee uid) (joined_rows s))).

(** The old-style [date]/[view] filter on the start of the event. *)
Definition legacy_view_filter (view_type : string) (d : date)
           (e : CalendarEvent) : bool :=
  if String.eqb view_type "day" then
    date_eqb (dt_date (start_datetime e)) d
  else if String.eqb view_type "week" then
    iso_week (dt_date (start_datetime e)) =? iso_week d
  else if String.eqb view_type "month" then
    (year (dt_date (start_datetime e)) =? year d)
    && (month (dt_date (start_datetime e)) =? month d)
  else true.

Definition get_queryset (lib : Lib) (user : User) (q : QueryParams)
           (s : Store) : result (list CalendarEvent) :=
  let queryset := base_queryset (user_id user) s in
  let queryset :=
    if truthy (q_event_type q) then
      filter (fun e => String.eqb (event_type e)
                         (opt_or (q_event_type q) EmptyString)) queryset
    else queryset in
  let queryset :=
    match q_is_completed q with
    | Some v =>
        filter (fun e => Bool.eqb (is_completed e)
                           (String.eqb (lower v) "true")) queryset
    | None => queryset
    end in
  if truthy (q_date q) && truthy (q_view q) then
    d <- parse_date lib (opt_or (q_date q) EmptyString) ;;
    match d with
    | Some d =>
        ret (filter
               (legacy_view_filter (opt_or (q_view q) EmptyString) d)
               queryset)
    | None => ret queryset
    end
  else ret queryset.

(** A model's [ordering], applied when a queryset is evaluated: a
    stable sort on the ordering key. *)
Fixpoint insert_by {A} (key : A -> Z) (e : A) (l : list A) : list A :=
  match l with
  | [] => [e]
  | x :: r => if key e <? key x then e :: l else x :: insert_by key e r
  end.

Definition order_by {A} (key : A -> Z) (l : list A) : list A :=
  fold_right (insert_by key) [] l.

(** [CalendarEvent.Meta.ordering = ['start_datetime']]. *)
Definition order_by_start (l : list CalendarEvent) : list CalendarEvent :=
  order_by (fun e => instant (start_datetime e)) l.

Definition to_list_item (s : Store) (e : CalendarEvent) : EventListItem :=
  mk_EventListItem (id e) (title e) (event_type e) (start_datetime e)
    (end_datetime e) (duration_minutes e) (color_code e) (is_completed e)
    (Z.of_nat (List.length (attendee_ids (id e) s))).

Definition list_response (s : Store) (evs : list CalendarEvent)
  : Response :=
  mk_Response HTTP_200_OK
    (EventList (map (to_list_item s) (order_by_start evs))).

Definition detail_body (s : Store) (e : CalendarEvent) : Body :=
  EventDetail e (attendee_pks (id e) s).

Definition created_body (s : Store) (e : CalendarEvent) : Body :=
  EventCreated e (attendee_pks (id e) s).

(** The event that a response body renders, if any. *)
Definition rendered_event (b : Body) : option CalendarEvent :=
  match b with
  | EventDetail e _ => Some e
  | EventCreated e _ => Some e
  | _ => None
  end.

(** ** Timezone of the acting user *)

(** [getattr(getattr(request.user, 'profile', None), 'timezone', 'UTC')]:
    a user has no [profile], so the inner [getattr] gives [None];
    [None] has no [timezone], so the outer one gives its default. *)
Definition user_timezone_name (user : User) : string := "UTC".

Definition user_tz (lib : Lib) (user : User) : result tzinfo :=
  timezone (tzdb lib) (user_timezone_name user).

(** [.filter(start_datetime__gte=start_dt, start_datetime__lte=end_dt)]. *)
Definition in_window (start_dt end_dt : aware) (e : CalendarEvent) : bool :=
  (aware_instant start_dt <=? instant (start_datetime e))
  && (instant (start_datetime e) <=? aware_instant end_dt).

(** ** [week_view] *)

(** The two dates of [week_view]: the start and the end of the week of
    [d]. *)
Definition week_dates (d : date) : result (date * date) :=
  start_of_week <- date_sub d (timedelta_days (weekday d)) ;;
  end_of_week <- date_add start_of_week (timedelta_days 6) ;;
  ret (start_of_week, end_of_week).

(** The window of [week_view] for the reference date [d]. *)
Definition week_window (lib : Lib) (user : User) (d : date)
  : result (aware * aware) :=
  w <- week_dates d ;;
  tz <- user_tz lib user ;;
  let start_dt := localize tz (combine (fst w) time_min) in
  let end_dt := localize tz (combine (snd w) time_max) in
  ret (start_dt, end_dt).

(** The reference date of [week_view]: [?date=] parsed, or today. *)
Definition reference_date (lib : Lib) (now : datetime) (q : QueryParams)
  : result (option date) :=
  if truthy (q_date q)
  then parse_date lib (opt_or (q_date q) EmptyString)
  else ret (Some (dt_date now)).

Definition week_view (lib : Lib) (now : datetime) (user : User)
           (q : QueryParams) (s : Store) : result Response :=
  d <- reference_date lib now q ;;
  match d with
  | None =>
      ret (mk_Response HTTP_400_BAD_REQUEST
             (ErrorBody "error" "Invalid date format"))
  | Some d =>
      w <- week_window lib user d ;;
      qs <- get_queryset lib user q s ;;
      let events := filter (in_window (fst w) (snd w)) qs in
      ret (list_response s events)
  end.

(** ** [month_view] *)

(** [int(s)] for a string. *)
Definition int_str (lib : Lib) (v : string) : result Z :=
  match int_of_str lib v with
  | Some n => ret n
  | None => Raise ValueError
  end.

(** A query parameter read with [int(params.get(name, default))]; the
    default is an integer already. *)
Definition int_param (lib : Lib) (p : option string) (default : Z)
  : result Z :=
  match p with
  | Some v => int_str lib v
  | None => ret default
  end.

(** [first_day] and [last_day] of [month_view]. *)
Definition month_days (y m : Z) : result (datetime * datetime) :=
  first_day <- new_datetime y m 1 ;;
  last_day <- (if m =? 12
               then (nxt <- new_datetime (y + 1) 1 1 ;;
                     datetime_sub nxt (timedelta_seconds 1))
               else (nxt <- new_datetime y (m + 1) 1 ;;
                     datetime_sub nxt (timedelta_seconds 1))) ;;
  ret (first_day, last_day).

(** The window of [month_view] for integers [y] and [m]. *)
Definition month_window (lib : Lib) (user : User) (y m : Z)
  : result (aware * aware) :=
  w <- month_days y m ;;
  tz <- user_tz lib user ;;
  ret (localize tz (fst w), localize tz (snd w)).

(** The [try] block of [month_view]: the two integers, or the 400
    response of the [except ValueError] branch. *)
Definition year_month (lib : Lib) (now : datetime) (q : QueryParams)
  : result (Z * Z + Response) :=
  try (y <- int_param lib (q_year q) (year (dt_date now)) ;;
       m <- int_param lib (q_month q) (month (dt_date now)) ;;
       ret (inl (y, m)))
  except is_ValueError =>
    ret (inr (mk_Response HTTP_400_BAD_REQUEST
                (ErrorBody "error" "Invalid year or month"))).

Definition month_view (lib : Lib) (now : datetime) (user : User)
           (q : QueryParams) (s : Store) : result Response :=
  p <- year_month lib now q ;;
  match p with
  | inr response => ret response
  | inl (y, m) =>
      w <- month_window lib user y m ;;
      qs <- get_queryset lib user q s ;;
      let events := filter (in_window (fst w) (snd w)) qs in
      ret (list_response s events)
  end.

(** ** Object lookup and the write actions of [CalendarEventViewSet] *)

(** [filter_queryset]: DRF's [SearchFilter] on [?search=]. *)
Definition filter_queryset (lib : Lib) (q : QueryParams)
           (qs : list CalendarEvent) : list CalendarEvent :=
  if truthy (q_search q)
  then filter (search_matches lib (opt_or (q_search q) EmptyString)) qs
  else qs.

(** The [Http404] of [get_object_or_404] for a model. *)
Definition no_match (model : string) : exn :=
  Http404 ("No " ++ model ++ " matches the given query.").

(** [self.get_object()]: the event with this primary key among those
    the acting user may see, else [Http404]. *)
Definition get_object (lib : Lib) (user : User) (q : QueryParams) (pk : Z)
           (s : Store) : result CalendarEvent :=
  qs <- get_queryset lib user q s ;;
  match find_event pk (filter_queryset lib q qs) with
  | Some e => ret e
  | None => Raise (no_match "CalendarEvent")
  end.

(** The handlers that write return the response (or the exception
    raised) together with the store they leave. *)
Definition Outcome : Type := (result Response * Store)%type.

(** [get_serializer_class], on the name of the action. *)
Definition get_serializer_class (action : string) : SerializerClass :=
  if String.eqb action "list" then CalendarEventListSerializer
  else if String.eqb action "create" then CalendarEventCreateSerializer
  else CalendarEventSerializer.

(** [CreateModelMixin.create] with [perform_create]. *)
Definition create (now : datetime) (user : User) (d : EventData)
           (s : Store) : Outcome :=
  match is_valid (get_serializer_class "create") s false d with
  | Raise e => (Raise e, s)
  | Ok v =>
      match serializer_create now (user_id user) v s with
      | (Raise e, s') => (Raise e, s')
      | (Ok e, s') =>
          (Ok (mk_Response HTTP_201_CREATED (created_body s' e)), s')
      end
  end.

(** The action name of a PUT and of a PATCH. *)
Definition update_action (partial : bool) : string :=
  if partial then "partial_update"%string else "update"%string.

(** [UpdateModelMixin.update] ([partial = true] for PATCH). *)
Definition update (lib : Lib) (now : datetime) (user : User)
           (q : QueryParams) (partial : bool) (pk : Z) (d : EventData)
           (s : Store) : Outcome :=
  match get_object lib user q pk s with
  | Raise e => (Raise e, s)
  | Ok inst =>
      match is_valid (get_serializer_class (update_action partial))
              s partial d with
      | Raise e => (Raise e, s)
      | Ok v =>
          let '(e, s') := serializer_update now inst v s in
          (Ok (mk_Response HTTP_200_OK (detail_body s' e)), s')
      end
  end.

(** [instance.delete()]: the row goes, and with it the attendee rows
    and the reminders that point to it. *)
Definition delete_event (pk : Z) (s : Store) : Store :=
  mk_Store (users s)
    (filter (fun e => negb (id e =? pk)) (events s))
    (filter (fun r => negb (fst r =? pk)) (event_attendees s))
    (filter (fun r => negb (r_event r =? pk)) (reminders s))
    (reset_tokens s) (next_event_id s) (next_reminder_id s).

Definition destroy (lib : Lib) (user : User) (q : QueryParams) (pk : Z)
           (s : Store) : Outcome :=
  match get_object lib user q pk s with
  | Raise e => (Raise e, s)
  | Ok inst =>
      (Ok (mk_Response HTTP_204_NO_CONTENT NoContent),
       delete_event (id inst) s)
  end.

Definition retrieve (lib : Lib) (user : User) (q : QueryParams) (pk : Z)
           (s : Store) : result Response :=
  e <- get_object lib user q pk s ;;
  ret (mk_Response HTTP_200_OK (detail_body s e)).

Definition list_events (lib : Lib) (user : User) (q : QueryParams)
           (s : Store) : result Response :=
  qs <- get_queryset lib user q s ;;
  ret (list_response s (filter_queryset lib q qs)).

Definition mark_completed (lib : Lib) (now : datetime) (user : User)
           (q : QueryParams) (pk : Z) (s : Store) : Outcome :=
  match get_object lib user q pk s with
  | Raise e => (Raise e, s)
  | Ok event =>
      let '(e, s') := save now false (with_is_completed event true) s in
      (Ok (mk_Response HTTP_200_OK (detail_body s' e)), s')
  end.

Definition user_not_found : Response :=
  mk_Response HTTP_404_NOT_FOUND (ErrorBody "error" "User not found").

(** The lookup value of [id=user_id] as the field of the primary key
    prepares it: [None] stays, anything else goes through [int]; a
    [TypeError] or [ValueError] of [int] is raised again, an
    [OverflowError] passes. *)
Definition get_prep_value (lib : Lib) (v : BodyValue) : result (option Z) :=
  match v with
  | VNone => ret None
  | VBool b => ret (Some (if b then 1 else 0))
  | VInt n => ret (Some n)
  | VFloat x => ret (Some (int_of_Q x))
  | VInfinity => Raise OverflowError
  | VStr v => n <- int_str lib v ;; ret (Some n)
  | VCompound => Raise TypeError
  end.

(** [User.objects.get(id=user_id)] on [request.data.get('user_id')]. *)
Definition get_user (lib : Lib) (user_id : BodyValue) (s : Store)
  : result User :=
  uid <- get_prep_value lib user_id ;;
  User_objects_get uid s.

Definition add_attendee (lib : Lib) (user : User) (q : QueryParams)
           (pk : Z) (target : BodyValue) (s : Store) : Outcome :=
  match get_object lib user q pk s with
  | Raise e => (Raise e, s)
  | Ok event =>
      match get_user lib target s with
      | Ok u =>
          let s' := attendees_add (id event) (user_id u) s in
          (Ok (mk_Response HTTP_200_OK (detail_body s' event)), s')
      | Raise e =>
          if is_DoesNotExist e then (Ok user_not_found, s)
          else (Raise e, s)
      end
  end.

Definition remove_attendee (lib : Lib) (user : User) (q : QueryParams)
           (pk : Z) (target : BodyValue) (s : Store) : Outcome :=
  match get_object lib user q pk s with
  | Raise e => (Raise e, s)
  | Ok event =>
      match get_user lib target s with
      | Ok u =>
          let s' := attendees_remove (id event) (user_id u) s in
          (Ok (mk_Response HTTP_200_OK (detail_body s' event)), s')
      | Raise e =>
          if is_DoesNotExist e then (Ok user_not_found, s)
          else (Raise e, s)
      end
  end.

(** ** [EventReminderViewSet] *)

Definition reminder_queryset (user : User) (s : Store)
  : list EventReminder :=
  filter (fun r => r_user r =? user_id user) (reminders s).

(** [EventReminder.Meta.ordering = ['reminder_datetime']]. *)
Definition order_by_reminder (l : list EventReminder)
  : list EventReminder :=
  order_by (fun r => instant (reminder_datetime r)) l.

Definition get_reminder (user : User) (pk : Z) (s : Store)
  : result EventReminder :=
  match find (fun r => r_id r =? pk) (reminder_queryset user s) with
  | Some r => ret r
  | None => Raise (no_match "EventReminder")
  end.

Definition upcoming (now : datetime) (user : User) (s : Store)
  : result Response :=
  next_24h <- datetime_add now (timedelta_hours 24) ;;
  let due :=
    filter (fun r => datetime_leb now (reminder_datetime r)
                     && datetime_leb (reminder_datetime r) next_24h
                     && negb (is_sent r))
      (reminder_queryset user s) in
  ret (mk_Response HTTP_200_OK (ReminderList (order_by_reminder due))).

Definition reminders_list (user : User) (s : Store) : result Response :=
  ret (mk_Response HTTP_200_OK
         (ReminderList (order_by_reminder (reminder_queryset user s)))).

Definition reminders_retrieve (user : User) (pk : Z) (s : Store)
  : result Response :=
  r <- get_reminder user pk s ;;
  ret (mk_Response HTTP_200_OK (ReminderDetail r)).

(** A new reminder row: the model defaults fill the two fields that
    the serializer does not write. *)
Definition reminders_create (d : ReminderData) (s : Store) : Outcome :=
  match EventReminderSerializer_is_valid s false None d with
  | Raise e => (Raise e, s)
  | Ok (ev, us, dt) =>
      let r := mk_EventReminder (next_reminder_id s) ev us dt false None in
      (Ok (mk_Response HTTP_201_CREATED (ReminderDetail r)),
       mk_Store (users s) (events s) (event_attendees s)
         (reminders s ++ [r]) (reset_tokens s) (next_event_id s)
         (next_reminder_id s + 1))
  end.

Fixpoint replace_reminder (r : EventReminder) (rs : list EventReminder)
  : list EventReminder :=
  match rs with
  | [] => []
  | x :: t => if r_id x =? r_id r then r :: t
              else x :: replace_reminder r t
  end.

Definition reminders_update (user : User) (partial : bool) (pk : Z)
           (d : ReminderData) (s : Store) : Outcome :=
  match get_reminder user pk s with
  | Raise e => (Raise e, s)
  | Ok inst =>
      match EventReminderSerializer_is_valid s partial (Some inst) d with
      | Raise e => (Raise e, s)
      | Ok (ev, us, dt) =>
          let r := mk_EventReminder (r_id inst) ev us dt
                     (is_sent inst) (sent_at inst) in
          (Ok (mk_Response HTTP_200_OK (ReminderDetail r)),
           set_reminders s (replace_reminder r (reminders s)))
      end
  end.

Definition reminders_destroy (user : User) (pk : Z) (s : Store)
  : Outcome :=
  match get_reminder user pk s with
  | Raise e => (Raise e, s)
  | Ok inst =>
      (Ok (mk_Response HTTP_204_NO_CONTENT NoContent),
       set_reminders s
         (filter (fun r => negb (r_id r =? r_id inst)) (reminders s)))
  end.

(** ** The calendar API as a whole *)

Inductive Request : Type :=
| EventsList
| EventsCreate (d : EventData)
| EventsRetrieve (pk : Z)
| EventsUpdate (pk : Z) (d : EventData)
| EventsPartialUpdate (pk : Z) (d : EventData)
| EventsDestroy (pk : Z)
| EventsWeekView
| EventsMonthView
| EventsMarkCompleted (pk : Z)
| EventsAddAttendee (pk : Z) (target : BodyValue)
| EventsRemoveAttendee (pk : Z) (target : BodyValue)
| RemindersList
| RemindersCreate (d : ReminderData)
| RemindersRetrieve (pk : Z)
| RemindersUpdate (pk : Z) (d : ReminderData)
| RemindersPartialUpdate (pk : Z) (d : ReminderData)
| RemindersDestroy (pk : Z)
| RemindersUpcoming.

Definition route (lib : Lib) (now : datetime) (user : User)
           (q : QueryParams) (req : Request) (s : Store) : Outcome :=
  match req with
  | EventsList => (list_events lib user q s, s)
  | EventsCreate d => create now user d s
  | EventsRetrieve pk => (retrieve lib user q pk s, s)
  | EventsUpdate pk d => update lib now user q false pk d s
  | EventsPartialUpdate pk d => update lib now user q true pk d s
  | EventsDestroy pk => destroy lib user q pk s
  | EventsWeekView => (week_view lib now user q s, s)
  | EventsMonthView => (month_view lib now user q s, s)
  | EventsMarkCompleted pk => mark_completed lib now user q pk s
  | EventsAddAttendee pk t => add_attendee lib user q pk t s
  | EventsRemoveAttendee pk t => remove_attendee lib user q pk t s
  | RemindersList => (reminders_list user s, s)
  | RemindersCreate d => reminders_create d s
  | RemindersRetrieve pk => (reminders_retrieve user pk s, s)
  | RemindersUpdate pk d => reminders_update user false pk d s
  | RemindersPartialUpdate pk d => reminders_update user true pk d s
  | RemindersDestroy pk => reminders_destroy user pk s
  | RemindersUpcoming => (upcoming now user s, s)
  end.

(** DRF's exception handler: [Http404] becomes a 404 that carries its
    message under [detail], a [ValidationError] a 400 with the message
    under the key of the field; anything else leaves the view as a
    server error. *)
Definition handle_exception (r : result Response) : result Response :=
  match r with
  | Raise (Http404 msg) =>
      ret (mk_Response HTTP_404_NOT_FOUND (ErrorBody "detail" msg))
  | Raise (ValidationError field msg) =>
      ret (mk_Response HTTP_400_BAD_REQUEST (ErrorBody field msg))
  | other => other
  end.

Definition dispatch (lib : Lib) (now : datetime) (user : User)
           (q : QueryParams) (req : Request) (s : Store) : Outcome :=
  let '(r, s') := route lib now user q req s in
  (handle_exception r, s').

End Views.

Export Views.

(* ================================================================== *)
(** * Authentication views: password reset                            *)
(* ================================================================== *)

Module Auth.

(** The body of [POST /reset-password]. *)
Record ResetData : Type :=
  mk_ResetData { rp_token : option string; rp_new_password : option string }.

(** A [{"detail": ...}] response. *)
Record DetailResponse : Type :=
  mk_DetailResponse { a_status : Z; detail : string }.

(** A DRF [CharField] declared on a serializer: required, trimmed, not
    blank, at least [min_length] characters long after trimming and
    free of null characters. *)
Definition CharField (field : string) (min_length : Z) (x : option string)
  : result string :=
  match x with
  | None => invalid field "This field is required."
  | Some v =>
      let v := strip v in
      if String.eqb v EmptyString
      then invalid field "This field may not be blank."
      else if len v <? min_length
      then invalid field
             ("Ensure this field has at least " ++ str_of_int min_length
              ++ " characters.")
      else if has_null v
      then invalid field "Null characters are not allowed."
      else ret v
  end.

(** [ResetPasswordSerializer(...).is_valid(raise_exception=True)];
    the result is [validated_data]. *)
Definition ResetPasswordSerializer_is_valid (d : ResetData)
  : result (string * string) :=
  tok <- CharField "token" 0 (rp_token d) ;;
  pw <- CharField "new_password" 8 (rp_new_password d) ;;
  ret (tok, pw).

(** [PasswordResetToken.objects.get(token=token)]. *)
Definition get_reset_token (tok : string) (s : Store)
  : option PasswordResetToken :=
  find (fun t => String.eqb (token t) tok) (reset_tokens s).

(** [reset_token.delete()]. *)
Definition delete_reset_token (t : PasswordResetToken) (s : Store)
  : Store :=
  set_reset_tokens s
    (filter (fun x => negb (t_id x =? t_id t)) (reset_tokens s)).

(** [user.set_password(new_password); user.save()]; [make_password]
    is Django's hasher. *)
Definition set_password (make_password : string -> string) (uid : Z)
           (new_password : string) (s : Store) : Store :=
  set_users s
    (map (fun u =>
            if user_id u =? uid
            then mk_User (user_id u) (username u) (email u)
                   (make_password new_password)
            else u)
       (users s)).

(** [ResetPasswordAPIView.post]. *)
Definition reset_password_post (make_password : string -> string)
           (now : datetime) (d : ResetData) (s : Store)
  : result DetailResponse * Store :=
  match ResetPasswordSerializer_is_valid d with
  | Raise e => (Raise e, s)
  | Ok (tok, new_password) =>
      match get_reset_token tok s with
      | None =>
          (Ok (mk_DetailResponse HTTP_400_BAD_REQUEST "Invalid token"), s)
      | Some reset_token =>
          if is_expired now reset_token then
            (Ok (mk_DetailResponse HTTP_400_BAD_REQUEST "Token expired"),
             delete_reset_token reset_token s)
          else
            match find_user (t_user reset_token) s with
            | None => (Raise DoesNotExist, s)
            | Some user =>
                let s := set_password make_password (user_id user)
                           new_password s in
                let s := delete_reset_token reset_token s in
                (Ok (mk_DetailResponse HTTP_200_OK
                       "Password reset successful"), s)
            end
      end
  end.

End Auth.

Export Auth.

(* ================================================================== *)
(** * A concrete library and sample data                              *)
(* ================================================================== *)

Module Fixtures.

Local Open Scope string_scope.

Definition is_digit (c : ascii) : bool :=
  ((48 <=? byte c) && (byte c <=? 57))%Z.

Definition digit_val (c : ascii) : Z := (byte c - 48)%Z.

(** The digit part of an integer literal: ASCII digits, single
    underscores allowed between digits.  [prev_digit] tells whether the
    previous character was a digit. *)
Fixpoint int_digits (s : string) (acc : Z) (prev_digit : bool)
  : option Z :=
  match s with
  | EmptyString => if prev_digit then Some acc else None
  | String c r =>
      if is_digit c then int_digits r (10 * acc + digit_val c) true
      else if (Ascii.eqb c "_"%char) && prev_digit then
             match r with
             | String d _ =>
                 if is_digit d then int_digits r acc false else None
             | EmptyString => None
             end
           else None
  end.

(** A stand-in for [int] on a string, used in the examples: surrounding
    whitespace, an optional sign, then ASCII digits.  Python reads the
    decimal digits of other scripts too; on the strings read here the
    two agree. *)
Definition int_ascii (s : string) : option Z :=
  let body := strip s in
  let signed :=
    match body with
    | String "-"%char r => (true, r)
    | String "+"%char r => (false, r)
    | _ => (false, body)
    end in
  match int_digits (snd signed) 0 false with
  | Some n => Some (if fst signed then - n else n)
  | None => None
  end.

Fixpoint all_digits (s : string) : bool :=
  match s with
  | EmptyString => true
  | String c r => is_digit c && all_digits r
  end.

Fixpoint digits_val (s : string) (acc : Z) : Z :=
  match s with
  | EmptyString => acc
  | String c r => digits_val r (10 * acc + digit_val c)
  end.

(** Splits at the first ["-"]. *)
Fixpoint split_dash (s : string) : string * option string :=
  match s with
  | EmptyString => (EmptyString, None)
  | String c r =>
      if Ascii.eqb c "-"%char then (EmptyString, Some r)
      else let '(a, b) := split_dash r in (String c a, b)
  end.

Definition digit_group (lo hi : nat) (s : string) : bool :=
  all_digits s && (lo <=? String.length s)%nat
  && (String.length s <=? hi)%nat.

(** A stand-in for Django's [parse_date], used in the examples: a
    string of the shape year-month-day with four, one or two and one or
    two ASCII digits goes to [date(year, month, day)], as in Django;
    any other string gives [None] here, while Django reads more
    shapes as dates. *)
Definition parse_date_ymd (value : string) : result (option date) :=
  match split_dash value with
  | (y, Some rest) =>
      match split_dash rest with
      | (m, Some d) =>
          if digit_group 4 4 y && digit_group 1 2 m && digit_group 1 2 d
          then x <- new_date (digits_val y 0) (digits_val m 0)
                      (digits_val d 0) ;;
               ret (Some x)
          else ret None
      | _ => ret None
      end
  | _ => ret None
  end.

Fixpoint contains (needle hay : string) : bool :=
  String.prefix needle hay
  || match hay with
     | EmptyString => false
     | String _ r => contains needle r
     end.

Definition icontains (needle : string) (hay : option string) : bool :=
  match hay with
  | Some h => contains (lower needle) (lower h)
  | None => false
  end.

(** A stand-in for the match of [SearchFilter], used in the examples:
    the whole value of [?search=] is one term, looked for in the three
    search fields without regard to ASCII case.  DRF splits the value
    into several terms. *)
Definition search_whole_value (term : string) (e : CalendarEvent) : bool :=
  icontains term (Some (title e)) || icontains term (description e)
  || icontains term (location e).

(** A zone table with one fixed-offset zone besides UTC. *)
Definition small_tzdb (name : string) : option tzinfo :=
  if String.eqb name "Asia/Kolkata"
  then Some (mk_tzinfo "Asia/Kolkata" (fun _ => 19800))
  else None.

Definition lib0 : Lib :=
  mk_Lib int_ascii parse_date_ymd small_tzdb search_whole_value.

Definition at_ (y m d hh mm ss us : Z) : datetime :=
  mk_datetime (mk_date y m d) (mk_time hh mm ss us).

Definition alice : User := mk_User 1 "alice" "alice@crm.test" "h1".
Definition bob : User := mk_User 2 "bob" "bob@crm.test" "h2".
Definition carol : User := mk_User 3 "carol" "carol@crm.test" "h3".

Definition now0 : datetime := at_ 2025 1 10 12 0 0 0.

Definition event0 (i : Z) (creator : Z) (st en : datetime)
  : CalendarEvent :=
  mk_CalendarEvent i "Review" None "meeting" st en None creator None None
    None "#22c55e" "medium" false None false now0 now0.

Definition empty_store : Store :=
  mk_Store [alice; bob; carol] [] [] [] [] 1 1.

Definition q_week (d : string) : QueryParams :=
  mk_QueryParams None None (Some d) None None None None.

Definition q_month_of (y m : string) : QueryParams :=
  mk_QueryParams None None None None None (Some y) (Some m).

Definition q_legacy (d view : string) : QueryParams :=
  mk_QueryParams None None (Some d) (Some view) None None None.

Definition data0 (st en : datetime) : EventData :=
  mk_EventData (Some "Review") None None (Some st) (Some en) None None
    None None None None None None None None None.

Definition store5 : Store :=
  mk_Store [alice; bob; carol]
    [event0 1 1 (at_ 2025 1 14 9 0 0 0) (at_ 2025 1 14 10 0 0 0);
     event0 2 2 (at_ 2025 1 15 9 0 0 0) (at_ 2025 1 15 10 0 0 0);
     event0 3 2 (at_ 2025 1 16 9 0 0 0) (at_ 2025 1 16 10 0 0 0)]
    [(1, 2); (1, 3); (2, 1); (2, 3)] [] [] 4 1.

(** An event of Wednesday 2024-01-17, in ISO week 3 of 2024. *)
Definition event2024 : CalendarEvent :=
  event0 1 1 (at_ 2024 1 17 9 0 0 0) (at_ 2024 1 17 10 0 0 0).

Definition store2024 : Store :=
  mk_Store [alice; bob; carol] [event2024] [] [] [] 2 1.


Definition store6 : Store :=
  mk_Store [alice; bob; carol]
    [event0 1 1 (at_ 2025 1 14 9 0 0 0) (at_ 2025 1 14 10 0 0 0)]
    [] [] [] 2 1.

Definition token0 : PasswordResetToken :=
  mk_PasswordResetToken 1 2 "a1b2c3" (at_ 2025 1 10 11 0 0 0)
    (at_ 2025 1 10 10 45 0 0).

Definition token1 : PasswordResetToken :=
  mk_PasswordResetToken 2 2 "d4e5f6" (at_ 2025 1 10 12 10 0 0)
    (at_ 2025 1 10 11 55 0 0).

Definition store7 : Store :=
  mk_Store [alice; bob; carol] [] [] [] [token0; token1] 1 1.

Definition hash0 (pw : string) : string := ("pbkdf2$" ++ pw)%string.

Definition reset0 (tok pw : string) : ResetData :=
  mk_ResetData (Some tok) (Some pw).

Definition reminder0 : EventReminder :=
  mk_EventReminder 1 1 1 (at_ 2025 1 10 13 0 0 0) false None.

Definition store8 : Store :=
  mk_Store [alice; bob; carol]
    [event0 1 1 (at_ 2025 1 10 14 0 0 0) (at_ 2025 1 10 15 0 0 0)]
    [] [reminder0] [] 2 2.

End Fixtures.

(* ================================================================== *)
(** * Predicates and auxiliary functions used in the statements       *)
(* ================================================================== *)

Module Props.

(** A date that [date(year, month, day)] accepts. *)
Definition valid_date (d : date) : Prop :=
  1 <= year d <= 9999 /\ 1 <= month d <= 12
  /\ 1 <= day d <= days_in_month (year d) (month d).

(** The last step of [ord2ymd]: month and day from the day number
    within the year. *)
Definition month_day (leapyear : bool) (n : Z) : Z * Z :=
  let month := Z.shiftr (n + 50) 5 in
  let preceding :=
    DAYS_BEFORE_MONTH month
    + (if (2 <? month) && leapyear then 1 else 0) in
  if n <? preceding then
    let month := month - 1 in
    let preceding :=
      preceding
      - (DAYS_IN_MONTH month
         + (if (month =? 2) && leapyear then 1 else 0)) in
    (month, n - preceding + 1)
  else (month, n - preceding + 1).

(** Leap test on the position of a year inside the 400, 100 and 4 year
    cycles, as [ord2ymd] computes it. *)
Definition cycle_leap (b c e : Z) : bool :=
  (e =? 3) && (negb (c =? 24) || (b =? 3)).

(** The acting user may see [e]: creator or attendee. *)
Definition visible_to (uid : Z) (s : Store) (e : CalendarEvent) : Prop :=
  created_by e = uid \/ In uid (attendee_ids (id e) s).

(** Primary keys and the through table are duplicate free. *)
Definition well_formed (s : Store) : Prop :=
  NoDup (map id (events s)) /\ NoDup (event_attendees s).

(** The events listed in a response body. *)
Definition listed_ids (b : Body) : list Z :=
  match b with
  | EventList items => map li_id items
  | _ => []
  end.

(** What a listing answers: the events of a duplicate-free list, all of
    them visible to the user. *)
Definition lists_visible (uid : Z) (s : Store) (resp : Response) : Prop :=
  exists evs,
    data resp = EventList (map (to_list_item s) evs)
    /\ NoDup evs
    /\ (forall e, In e evs -> In e (events s) /\ visible_to uid s e)
    /\ (NoDup (map id (events s)) -> NoDup (listed_ids (data resp))).

(** What a write answers: the saved event, which is in the store with
    its duration derived from its two datetimes. *)
Definition stores_duration (resp : Response) (s' : Store) : Prop :=
  exists e,
    rendered_event (data resp) = Some e /\ In e (events s')
    /\ duration_minutes e
       = Some (int_of_Q
                 (float_div
                    (total_seconds
                       (datetime_diff (end_datetime e) (start_datetime e)))
                    (60 # 1))).

(** The span of an event in microseconds, end minus start. *)
Definition span_microseconds (e : CalendarEvent) : Z :=
  instant (end_datetime e) - instant (start_datetime e).

Definition with_client_duration (d : EventData) (x : option Z) : EventData :=
  mk_EventData (d_title d) (d_description d) (d_event_type d)
    (d_start_datetime d) (d_end_datetime d) (d_attendees d) (d_task_id d)
    (d_meeting_id d) (d_location d) (d_color_code d) (d_priority d)
    (d_is_all_day d) (d_reminder_minutes d) (d_is_completed d)
    (d_created_by d) x.

(** The reminders that [s'] keeps from [s] (same primary key) have the
    sent flag and the timestamp they had in [s]; the other reminders of
    [s'] are unsent. *)
Definition sent_state_kept (s s' : Store) : Prop :=
  (forall x0 x, In x0 (reminders s) -> In x (reminders s') ->
                r_id x = r_id x0 ->
                is_sent x = is_sent x0 /\ sent_at x = sent_at x0)
  /\ (forall x, In x (reminders s') ->
                 ~ In (r_id x) (map r_id (reminders s)) ->
                 is_sent x = false /\ sent_at x = None).

(** One step of the store, seen from the reminders: each reminder of
    [s'] either has the key, the sent flag and the timestamp of a
    reminder of [s], or has a key that [s] had not given out yet and is
    unsent; the next key does not go down. *)
Definition sent_state_step (s s' : Store) : Prop :=
  (forall x, In x (reminders s') ->
     (exists x0, In x0 (reminders s) /\ r_id x0 = r_id x
                 /\ is_sent x0 = is_sent x /\ sent_at x0 = sent_at x)
     \/ (next_reminder_id s <= r_id x
         /\ is_sent x = false /\ sent_at x = None))
  /\ next_reminder_id s <= next_reminder_id s'.

(** The primary keys of the reminders are unique and below the next
    key. *)
Definition reminder_keys_ok (s : Store) : Prop :=
  NoDup (map r_id (reminders s))
  /\ (forall i, In i (map r_id (reminders s)) -> i < next_reminder_id s).

Definition all_unsent (s : Store) : Prop :=
  forall x, In x (reminders s) -> is_sent x = false /\ sent_at x = None.

(** A run of the API: requests served one after the other. *)
Fixpoint run (lib : Lib) (now : datetime) (user : User)
         (reqs : list (QueryParams * Request)) (s : Store) : Store :=
  match reqs with
  | [] => s
  | (q, r) :: rest => run lib now user rest (snd (dispatch lib now user q r s))
  end.

(** One call of the API: the clock, the acting user, the query
    parameters and the request. *)
Record Call : Type :=
  mk_Call {
      c_now : datetime;
      c_user : User;
      c_params : QueryParams;
      c_request : Request
    }.

(** Calls of any users at any times, served one after the other. *)
Fixpoint serve (lib : Lib) (calls : list Call) (s : Store) : Store :=
  match calls with
  | [] => s
  | c :: rest =>
      serve lib rest
        (snd (dispatch lib (c_now c) (c_user c) (c_params c)
                (c_request c) s))
  end.

End Props.

Export Props.

(* ================================================================== *)
(** * Computed properties of an event                               *)
(* ================================================================== *)

Module ModelProperties.

(** [CalendarEvent.is_past], with [timezone.now()] passed in. *)
Definition is_past (now : datetime) (e : CalendarEvent) : bool :=
  datetime_ltb (end_datetime e) now.

(** [CalendarEvent.is_ongoing]. *)
Definition is_ongoing (now : datetime) (e : CalendarEvent) : bool :=
  datetime_leb (start_datetime e) now && datetime_leb now (end_datetime e).

End ModelProperties.

Export ModelProperties.

(* ================================================================== *)
(** * The forgot-password view                                      *)
(* ================================================================== *)

Module Forgot.

(** A message handed to [send_mail]. *)
Record Mail : Type :=
  mk_Mail {
      m_subject : string;
      m_message : string;
      m_from_email : string;
      m_recipient_list : list string
    }.

(** What one call of the view takes from outside: the two readings of
    the clock ([timezone.now()] in the view, then [auto_now_add]), the
    primary key that the database gives the new row, [uuid.uuid4().hex],
    and whether [send_mail] returns or raises. *)
Record ForgotEnv : Type :=
  mk_ForgotEnv {
      env_now : datetime;
      env_created : datetime;
      env_pk : Z;
      env_uuid : string;
      env_delivered : bool
    }.

(** An exception that leaves the view; DRF's handler turns a
    [ValidationError] into a 400, the others are server errors. *)
Inductive failure : Type :=
| MultipleObjectsReturned
| IntegrityError
| SMTPException
| Raised (e : exn).

(** What a call of the view ends in. *)
Inductive answer : Type :=
| Answered (r : DetailResponse)
| Failed (f : failure).

(** The rows that [User.objects.get(email=email)] chooses from. *)
Definition users_with_email (address : string) (s : Store) : list User :=
  filter (fun u => String.eqb (email u) address) (users s).

(** The text of the mail. *)
Definition newline : string := String "010"%char EmptyString.

Definition reset_link (tok : string) : string :=
  "http://localhost:3000/reset-password?token=" ++ tok.

Definition reset_mail (address tok : string) : Mail :=
  mk_Mail "Reset Your Password"
    ("Click the link to reset your password:" ++ newline ++ reset_link tok)
    "noreply@crm.com" [address].

(** [ForgotPasswordAPIView.post].  [EmailField] is the field of the
    serializer; the state is the database with the messages sent. *)
Definition forgot_password_post
           (EmailField : option string -> result string) (env : ForgotEnv)
           (d : option string) (st : Store * list Mail)
  : answer * (Store * list Mail) :=
  let '(s, outbox) := st in
  match EmailField d with
  | Raise e => (Failed (Raised e), st)
  | Ok address =>
      match users_with_email address s with
      | [] =>
          (Answered (mk_DetailResponse HTTP_404_NOT_FOUND "User not found"),
           st)
      | [user] =>
          let tok := env_uuid env in
          match datetime_add (env_now env) (timedelta_minutes 15) with
          | Raise e => (Failed (Raised e), st)
          | Ok expires =>
              if existsb (fun t => String.eqb (token t) tok) (reset_tokens s)
              then (Failed IntegrityError, st)
              else
                let row := mk_PasswordResetToken (env_pk env) (user_id user)
                             tok expires (env_created env) in
                let s := set_reset_tokens s (reset_tokens s ++ [row]) in
                if env_delivered env
                then (Answered (mk_DetailResponse HTTP_200_OK
                                  "Password reset link sent"),
                      (s, outbox ++ [reset_mail address tok]))
                else (Failed SMTPException, (s, outbox))
          end
      | _ :: _ :: _ => (Failed MultipleObjectsReturned, st)
      end
  end.

End Forgot.

Export Forgot.

(* ================================================================== *)
(** * Further predicates used in the statements                     *)
(* ================================================================== *)

Module MoreProps.

(** The [event_type] and [is_completed] filters of [get_queryset], read
    as a condition on one event. *)
Definition passes_filters (q : QueryParams) (e : CalendarEvent) : Prop :=
  (truthy (q_event_type q) = true -> Some (event_type e) = q_event_type q)
  /\ (forall v, q_is_completed q = Some v ->
                is_completed e = String.eqb (lower v) "true").

(** The date that the old-style filter of [get_queryset] works with:
    [parse_date] of [?date=] when both [?date=] and [?view=] are given. *)
Definition legacy_date (lib : Lib) (q : QueryParams) : result (option date) :=
  if truthy (q_date q) && truthy (q_view q)
  then parse_date lib (opt_or (q_date q) EmptyString)
  else ret None.

(** The request without [?date=] and [?view=]. *)
Definition without_legacy (q : QueryParams) : QueryParams :=
  mk_QueryParams (q_event_type q) (q_is_completed q) None None (q_search q)
    (q_year q) (q_month q).

(** The views that the old-style filter of [get_queryset] knows. *)
Definition known_view (v : string) : bool :=
  String.eqb v "day" || String.eqb v "week" || String.eqb v "month".

(** [?search=] as a condition on one event. *)
Definition passes_search (lib : Lib) (q : QueryParams) (e : CalendarEvent)
  : Prop :=
  truthy (q_search q) = true ->
  search_matches lib (opt_or (q_search q) EmptyString) e = true.

(** A clock reading that [time(...)] accepts. *)
Definition valid_clock (x : datetime) : Prop :=
  0 <= hour (dt_time x) < 24 /\ 0 <= minute (dt_time x) < 60
  /\ 0 <= second (dt_time x) < 60 /\ 0 <= microsecond (dt_time x) < 1000000.

(** The body lists [l] in ascending order of start. *)
Definition sorted_listing (s : Store) (resp : Response)
           (l : list CalendarEvent) : Prop :=
  exists evs,
    data resp = EventList (map (to_list_item s) evs)
    /\ StronglySorted
         (fun a b => instant (start_datetime a) <= instant (start_datetime b))
         evs
    /\ Permutation evs l.


(** The event tables hold together: primary keys are unique and below
    the next key, the through table has no duplicate row, and each of
    its rows names an event and a user that exist. *)
Definition event_rows_consistent (s : Store) : Prop :=
  NoDup (map id (events s))
  /\ (forall i, In i (map id (events s)) -> i < next_event_id s)
  /\ NoDup (event_attendees s)
  /\ (forall r, In r (event_attendees s) ->
                In (fst r) (map id (events s))
                /\ In (snd r) (map user_id (users s))).

(** The same for the reminders, with the [unique_together] of the
    model. *)
Definition reminder_rows_consistent (s : Store) : Prop :=
  NoDup (map r_id (reminders s))
  /\ (forall i, In i (map r_id (reminders s)) -> i < next_reminder_id s)
  /\ (forall a b,
         In a (reminders s) -> In b (reminders s) ->
         r_event a = r_event b -> r_user a = r_user b ->
         instant (reminder_datetime a) = instant (reminder_datetime b) ->
         a = b)
  /\ (forall r, In r (reminders s) ->
                In (r_event r) (map id (events s))
                /\ In (r_user r) (map user_id (users s))).

(** What [datetime(year, month, 1)] raises for a month outside 1..12. *)
Definition bad_month_error (y m : Z) : exn :=
  if fits_c_int y && fits_c_int m then ValueError else OverflowError.

(** The answer of the guard of [month_view]. *)
Definition invalid_year_or_month : Response :=
  mk_Response HTTP_400_BAD_REQUEST (ErrorBody "error" "Invalid year or month").


Definition reminder_not_found : Response :=
  mk_Response HTTP_404_NOT_FOUND
    (ErrorBody "detail" "No EventReminder matches the given query.").

(** A computation that raises nothing but validation errors. *)
Definition raises_validation {A} (r : result A) : Prop :=
  forall ex, r = Raise ex -> exists field msg, ex = ValidationError field msg.

(** The body as the field checks return it when they pass: the four
    texts trimmed, [is_completed] kept only by the serializer that
    lists it, the two read-only fields dropped. *)
Definition validated (w : bool) (d : EventData) : EventData :=
  mk_EventData (option_map strip (d_title d))
    (option_map (option_map strip) (d_description d))
    (d_event_type d) (d_start_datetime d) (d_end_datetime d)
    (d_attendees d) (d_task_id d) (d_meeting_id d)
    (option_map (option_map strip) (d_location d))
    (option_map strip (d_color_code d)) (d_priority d) (d_is_all_day d)
    (d_reminder_minutes d)
    (if w then d_is_completed d else None) None None.

(** The minutes that [save] derives from a span of [us] microseconds:
    [int((us / 10**6) / 60)] in float arithmetic. *)
Definition float_minutes (us : Z) : Z :=
  int_of_Q (float_div (true_divide us 1000000) (60 # 1)).

End MoreProps.

Export MoreProps.

(* ================================================================== *)
(** * Further sample data                                           *)
(* ================================================================== *)

Module MoreFixtures.

Import Fixtures.

Definition ev1 : CalendarEvent :=
  event0 1 1 (at_ 2025 1 14 9 0 0 0) (at_ 2025 1 14 10 0 0 0).


Definition reminder_data0 : ReminderData :=
  mk_ReminderData (Some 1) (Some 1) (Some (at_ 2025 1 10 13 30 0 0)) None None.

(** A stand-in for the e-mail field: an address needs an at sign. *)
Definition email_field0 (d : option string) : result string :=
  match d with
  | None => invalid "email" "This field is required."
  | Some a => if contains "@" a then Ok a
              else invalid "email" "Enter a valid email address."
  end.

Definition env0 : ForgotEnv :=
  mk_ForgotEnv now0 now0 3 "0123abcd" true.

(** A reminder of Alice that was sent at nine, and an unsent one. *)
Definition reminder_sent : EventReminder :=
  mk_EventReminder 1 1 1 (at_ 2025 1 10 9 0 0 0) true
    (Some (at_ 2025 1 10 9 0 0 0)).

Definition store_sent : Store :=
  mk_Store [alice; bob; carol]
    [event0 1 1 (at_ 2025 1 10 14 0 0 0) (at_ 2025 1 10 15 0 0 0)]
    [] [reminder_sent;
        mk_EventReminder 2 1 2 (at_ 2025 1 10 13 0 0 0) false None] [] 2 3.

(** Alice rewrites her sent reminder with other values for the two
    read-only fields, Bob deletes his and creates another one. *)
Definition calls_on_sent : list Call :=
  [mk_Call now0 alice no_params
     (RemindersPartialUpdate 1
        (mk_ReminderData None None (Some (at_ 2025 1 11 9 0 0 0))
           (Some false) (Some None)));
   mk_Call (at_ 2025 1 10 12 5 0 0) bob no_params (RemindersDestroy 2);
   mk_Call (at_ 2025 1 10 12 6 0 0) bob no_params
     (RemindersCreate
        (mk_ReminderData (Some 1) (Some 2) (Some (at_ 2025 1 10 13 30 0 0))
           (Some true) (Some (Some now0))))].

End MoreFixtures.

(* ================================================================== *)
(** * Facts about the calendar arithmetic                             *)
(* ================================================================== *)

Module DatetimeFacts.

Ltac bsimp :=
  cbn [andb orb negb Z.eqb Z.ltb Z.leb Z.compare Pos.compare
         Pos.compare_cont Pos.eqb CompOpp].

Ltac znum a :=
  lazymatch a with Z0 => idtac | Zpos _ => idtac | Zneg _ => idtac end.

Ltac zfold op a b :=
  znum a; znum b;
  let v := eval cbv in (op a b) in change (op a b) with v in *.

Ltac ztable f a :=
  znum a; let v := eval cbv in (f a) in change (f a) with v in *.

(** Folds arithmetic and table lookups on literals. *)
Ltac zconst :=
  repeat match goal with
    | |- context [Z.add ?a ?b] => zfold Z.add a b
    | |- context [Z.sub ?a ?b] => zfold Z.sub a b
    | |- context [Z.eqb ?a ?b] => zfold Z.eqb a b
    | |- context [Z.ltb ?a ?b] => zfold Z.ltb a b
    | |- context [DAYS_IN_MONTH ?a] => ztable DAYS_IN_MONTH a
    | |- context [DAYS_BEFORE_MONTH ?a] => ztable DAYS_BEFORE_MONTH a
    | H : context [Z.add ?a ?b] |- _ => zfold Z.add a b
    | H : context [Z.sub ?a ?b] |- _ => zfold Z.sub a b
    | H : context [Z.eqb ?a ?b] |- _ => zfold Z.eqb a b
    | H : context [Z.ltb ?a ?b] |- _ => zfold Z.ltb a b
    | H : context [DAYS_IN_MONTH ?a] |- _ => ztable DAYS_IN_MONTH a
    | H : context [DAYS_BEFORE_MONTH ?a] |- _ => ztable DAYS_BEFORE_MONTH a
    end;
  cbn [andb orb negb] in *.

Ltac month_cases m :=
  let C := fresh "Cases" in
  assert (C : m = 1 \/ m = 2 \/ m = 3 \/ m = 4 \/ m = 5 \/ m = 6
              \/ m = 7 \/ m = 8 \/ m = 9 \/ m = 10 \/ m = 11 \/ m = 12)
    by lia;
  repeat (destruct C as [-> | C]); try subst m.

Ltac split_ltb :=
  repeat match goal with
    | |- context [?a <? ?b] => destruct (Z.ltb_spec a b)
    end.

(** Names the quotients and remainders of the cycle decomposition of
    [n'] and records their defining equations. *)
Ltac cycle_chain n' :=
  set (n400 := n' / 146097); set (r1 := n' mod 146097);
  set (n100 := r1 / 36524); set (r2 := r1 mod 36524);
  set (n4 := r2 / 1461); set (r3 := r2 mod 1461);
  set (n1 := r3 / 365); set (r4 := r3 mod 365);
  assert (H1 : 0 <= r1 < 146097) by (apply Z.mod_pos_bound; lia);
  assert (H2 : 0 <= r2 < 36524) by (apply Z.mod_pos_bound; lia);
  assert (H3 : 0 <= r3 < 1461) by (apply Z.mod_pos_bound; lia);
  assert (H4 : 0 <= r4 < 365) by (apply Z.mod_pos_bound; lia);
  assert (E1 : n' = 146097 * n400 + r1) by (apply Z.div_mod; lia);
  assert (E2 : r1 = 36524 * n100 + r2) by (apply Z.div_mod; lia);
  assert (E3 : r2 = 1461 * n4 + r3) by (apply Z.div_mod; lia);
  assert (E4 : r3 = 365 * n1 + r4) by (apply Z.div_mod; lia).

Lemma days_before_year_cycles a b c e :
  0 <= b <= 3 -> 0 <= c <= 24 -> 0 <= e <= 3 ->
  days_before_year (400 * a + 100 * b + 4 * c + e + 1)
  = 146097 * a + 36524 * b + 1461 * c + 365 * e.
Proof.
  intros Hb Hc He. unfold days_before_year.
  replace (400 * a + 100 * b + 4 * c + e + 1 - 1)
    with (400 * a + 100 * b + 4 * c + e) by lia.
  cbv zeta. Z.div_mod_to_equations. lia.
Qed.

Lemma is_leap_cycles a b c e :
  0 <= b <= 3 -> 0 <= c <= 24 -> 0 <= e <= 3 ->
  is_leap (400 * a + 100 * b + 4 * c + e + 1) = cycle_leap b c e.
Proof.
  intros Hb Hc He. unfold is_leap, cycle_leap.
  destruct (Z.eqb_spec e 3), (Z.eqb_spec c 24), (Z.eqb_spec b 3);
    cbn [andb orb negb];
    repeat match goal with
      | |- context [?x mod ?k =? 0] => destruct (Z.eqb_spec (x mod k) 0)
      end; cbn [andb orb negb]; try reflexivity;
    exfalso; Z.div_mod_to_equations; lia.
Qed.

Lemma cycle_leap_true b c e :
  cycle_leap b c e = true -> e = 3 /\ (c <> 24 \/ b = 3).
Proof.
  unfold cycle_leap.
  destruct (Z.eqb_spec e 3), (Z.eqb_spec c 24), (Z.eqb_spec b 3); bsimp;
    intros; try discriminate; lia.
Qed.

(** Every year splits along the 400, 100 and 4 year cycles. *)
Lemma year_cycles y :
  exists a b c e,
    y = 400 * a + 100 * b + 4 * c + e + 1
    /\ 0 <= b <= 3 /\ 0 <= c <= 24 /\ 0 <= e <= 3.
Proof.
  exists ((y - 1) / 400), ((y - 1) mod 400 / 100),
    ((y - 1) mod 400 mod 100 / 4), ((y - 1) mod 400 mod 100 mod 4).
  Z.div_mod_to_equations. lia.
Qed.

Lemma days_before_year_succ y :
  days_before_year (y + 1)
  = days_before_year y + 365 + (if is_leap y then 1 else 0).
Proof.
  unfold days_before_year, is_leap.
  replace (y + 1 - 1) with y by lia.
  destruct (Z.eqb_spec (y mod 4) 0), (Z.eqb_spec (y mod 100) 0),
    (Z.eqb_spec (y mod 400) 0); cbn [andb orb negb];
    Z.div_mod_to_equations; lia.
Qed.

(** ** [fromordinal] after [toordinal] *)

Lemma month_day_spec leap m d :
  1 <= m <= 12 ->
  1 <= d <= (if (m =? 2) && leap then 29 else DAYS_IN_MONTH m) ->
  month_day leap
    (DAYS_BEFORE_MONTH m + (if (2 <? m) && leap then 1 else 0) + d - 1)
  = (m, d).
Proof.
  intros Hm Hd. unfold month_day.
  rewrite Z.shiftr_div_pow2 by lia. change (2 ^ 5) with 32.
  month_cases m; destruct leap; zconst;
    match goal with
    | |- context [?x / 32] =>
        let q := fresh "q" in
        set (q := x / 32);
        assert (32 * q <= x < 32 * q + 32)
          by (subst q; Z.div_mod_to_equations; lia);
        clearbody q;
        month_cases q; try lia; zconst; split_ltb; try lia; f_equal; lia
    end.
Qed.

Lemma day_of_year_bounds leap m d :
  1 <= m <= 12 ->
  1 <= d <= (if (m =? 2) && leap then 29 else DAYS_IN_MONTH m) ->
  let r :=
    DAYS_BEFORE_MONTH m + (if (2 <? m) && leap then 1 else 0) + d - 1 in
  0 <= r < 365 + (if leap then 1 else 0) /\ (r = 365 -> m = 12 /\ d = 31).
Proof.
  intros Hm Hd. month_cases m; destruct leap; zconst; cbv zeta; lia.
Qed.

Lemma ord2ymd_cycles a b c e r :
  0 <= b <= 3 -> 0 <= c <= 24 -> 0 <= e <= 3 ->
  0 <= r < 365 + (if cycle_leap b c e then 1 else 0) ->
  ord2ymd (146097 * a + 36524 * b + 1461 * c + 365 * e + r + 1)
  = if r =? 365 then mk_date (400 * a + 100 * b + 4 * c + e + 1) 12 31
    else mk_date (400 * a + 100 * b + 4 * c + e + 1)
           (fst (month_day (cycle_leap b c e) r))
           (snd (month_day (cycle_leap b c e) r)).
Proof.
  intros Hb Hc He Hr.
  pose proof (cycle_leap_true b c e) as Hleap.
  unfold ord2ymd, divmod, DI400Y, DI100Y, DI4Y.
  match goal with |- context [(?x - 1) / 146097] => set (n' := x - 1) end.
  cycle_chain n'.
  assert (En : n' = 146097 * a + 36524 * b + 1461 * c + 365 * e + r)
    by (subst n'; lia).
  clearbody n400 r1 n100 r2 n4 r3 n1 r4 n'.
  destruct (Z.eqb_spec r 365) as [Er | Er].
  - destruct (cycle_leap b c e); [specialize (Hleap eq_refl) | lia].
    assert (E400 : n400 = a) by lia.
    assert (Hs : n1 = 4 \/ n100 = 4) by lia.
    assert (Hyear : n400 * 400 + 1 + n100 * 100 + n4 * 4 + n1 - 1
                    = 400 * a + 100 * b + 4 * c + e + 1) by lia.
    destruct (Z.eqb_spec n1 4); [|destruct (Z.eqb_spec n100 4)]; bsimp;
      [f_equal; lia | f_equal; lia | lia].
  - assert (Hr' : r < 365) by (destruct (cycle_leap b c e); lia).
    assert (n400 = a) by lia. subst n400.
    assert (n100 = b) by lia. subst n100.
    assert (n4 = c) by lia. subst n4.
    assert (n1 = e) by lia. subst n1.
    assert (r4 = r) by lia. subst r4.
    destruct (Z.eqb_spec e 4); [lia|]. destruct (Z.eqb_spec b 4); [lia|].
    bsimp. fold (cycle_leap b c e). unfold month_day.
    destruct (cycle_leap b c e);
      match goal with
      | |- context [if ?x <? ?y then _ else _] => destruct (x <? y)
      end; cbn [fst snd]; f_equal; lia.
Qed.

(** [date.fromordinal(date(y, m, d).toordinal())] is [date(y, m, d)]. *)
Lemma fromordinal_ymd2ord y m d :
  1 <= m <= 12 -> 1 <= d <= days_in_month y m ->
  fromordinal (ymd2ord y m d) = mk_date y m d.
Proof.
  intros Hm Hd.
  destruct (year_cycles y) as (a & b & c & e & -> & Hb & Hc & He).
  unfold fromordinal, ymd2ord, days_before_month, days_in_month in *.
  rewrite days_before_year_cycles by lia.
  rewrite is_leap_cycles in * by lia.
  destruct (day_of_year_bounds (cycle_leap b c e) m d Hm Hd) as [Hr H365].
  cbv zeta in Hr, H365.
  match goal with
  | |- ord2ymd ?n = _ =>
      replace n with
      (146097 * a + 36524 * b + 1461 * c + 365 * e
       + (DAYS_BEFORE_MONTH m
          + (if (2 <? m) && cycle_leap b c e then 1 else 0) + d - 1) + 1)
      by lia
  end.
  rewrite ord2ymd_cycles by lia.
  match goal with
  | |- context [?r =? 365] => destruct (Z.eqb_spec r 365) as [E | E]
  end.
  - destruct (H365 E) as [-> ->]. reflexivity.
  - rewrite month_day_spec by assumption. reflexivity.
Qed.

(** ** [toordinal] after [fromordinal] *)

Lemma toordinal_fromordinal n : 1 <= n -> toordinal (fromordinal n) = n.
Proof.
  intros Hn. unfold fromordinal, ord2ymd, divmod, DI400Y, DI100Y, DI4Y.
  set (n' := n - 1).
  cycle_chain n'.
  assert (B100 : 0 <= n100 <= 4) by lia.
  assert (B4 : 0 <= n4 <= 24) by lia.
  assert (B1 : 0 <= n1 <= 4) by lia.
  assert (En : n = n' + 1) by (unfold n'; lia).
  clearbody n400 r1 n100 r2 n4 r3 n1 r4 n'.
  destruct (Z.eqb_spec n1 4) as [e1|e1];
    [|destruct (Z.eqb_spec n100 4) as [e2|e2]]; cbn [orb].
  - unfold toordinal, ymd2ord, days_before_month.
    cbn [year month day DAYS_BEFORE_MONTH].
    replace (n400 * 400 + 1 + n100 * 100 + n4 * 4 + n1 - 1)
      with (400 * n400 + 100 * n100 + 4 * n4 + 3 + 1) by lia.
    assert (n100 <= 3) by lia.
    rewrite days_before_year_cycles, is_leap_cycles by lia.
    unfold cycle_leap.
    destruct (Z.eqb_spec n4 24), (Z.eqb_spec n100 3); bsimp; lia.
  - unfold toordinal, ymd2ord, days_before_month.
    cbn [year month day DAYS_BEFORE_MONTH].
    assert (n4 = 0 /\ n1 = 0 /\ r4 = 0) as (-> & -> & ->) by lia.
    replace (n400 * 400 + 1 + n100 * 100 + 0 * 4 + 0 - 1)
      with (400 * n400 + 100 * 3 + 4 * 24 + 3 + 1) by lia.
    rewrite days_before_year_cycles, is_leap_cycles by lia.
    unfold cycle_leap. bsimp. lia.
  - assert (Hn100 : n100 <= 3) by lia. assert (Hn1 : n1 <= 3) by lia.
    rewrite Z.shiftr_div_pow2 by lia. change (2 ^ 5) with 32.
    fold (cycle_leap n100 n4 n1).
    set (mo := (r4 + 50) / 32).
    assert (Emo : 32 * mo <= r4 + 50 < 32 * mo + 32)
      by (subst mo; Z.div_mod_to_equations; lia).
    replace (n400 * 400 + 1 + n100 * 100 + n4 * 4 + n1)
      with (400 * n400 + 100 * n100 + 4 * n4 + n1 + 1) by lia.
    assert (Hdby := days_before_year_cycles n400 n100 n4 n1).
    assert (Hleap := is_leap_cycles n400 n100 n4 n1).
    clearbody mo.
    month_cases mo;
      destruct (cycle_leap n100 n4 n1); zconst; split_ltb;
      unfold toordinal, ymd2ord, days_before_month;
      cbn [year month day]; rewrite ?Hdby, ?Hleap by lia;
      zconst; lia.
Qed.

End DatetimeFacts.

(* ================================================================== *)
(** * Week and month boundaries                                       *)
(* ================================================================== *)

Module BoundaryFacts.

Import DatetimeFacts.

Lemma td_days_timedelta_days n : td_days (timedelta_days n) = n.
Proof.
  unfold timedelta_days, new_timedelta, divmod.
  change (0 mod 1000000) with 0. change (0 / 1000000) with 0.
  change ((0 + 0) / 86400) with 0. change ((0 + 0) mod 86400) with 0.
  cbn [td_days]. lia.
Qed.

Lemma days_before_year_nonneg y : 1 <= y -> 0 <= days_before_year y.
Proof. intros. unfold days_before_year. cbv zeta. Z.div_mod_to_equations. lia. Qed.

Lemma days_before_year_mono y1 y2 :
  y1 <= y2 -> days_before_year y1 <= days_before_year y2.
Proof. intros. unfold days_before_year. cbv zeta. Z.div_mod_to_equations. lia. Qed.

Lemma day_of_year_range y m d :
  1 <= m <= 12 -> 1 <= d <= days_in_month y m ->
  1 <= days_before_month y m + d <= 365 + (if is_leap y then 1 else 0).
Proof.
  intros Hm Hd. unfold days_before_month, days_in_month in *.
  destruct (day_of_year_bounds (is_leap y) m d Hm Hd) as [H _].
  cbv zeta in H. lia.
Qed.

Lemma toordinal_bounds d :
  valid_date d -> 1 <= toordinal d <= MAXORDINAL.
Proof.
  intros (Hy & Hm & Hd). unfold toordinal, ymd2ord.
  pose proof (day_of_year_range _ _ _ Hm Hd).
  pose proof (days_before_year_nonneg (year d)).
  pose proof (days_before_year_mono (year d + 1) 10000).
  rewrite days_before_year_succ in *.
  change (days_before_year 10000) with 3652059 in *.
  unfold MAXORDINAL. lia.
Qed.

Lemma weekday_range d : 0 <= weekday d <= 6.
Proof. unfold weekday. pose proof (Z.mod_pos_bound (toordinal d + 6) 7). lia. Qed.

Lemma weekday_fromordinal n :
  1 <= n -> weekday (fromordinal n) = (n + 6) mod 7.
Proof. intros. unfold weekday. rewrite toordinal_fromordinal by lia. reflexivity. Qed.

Lemma week_dates_ok d :
  valid_date d -> toordinal d <= toordinal (mk_date 9999 12 26) ->
  exists monday sunday,
    week_dates d = Ok (monday, sunday)
    /\ toordinal monday = toordinal d - weekday d
    /\ toordinal sunday = toordinal monday + 6
    /\ weekday monday = 0 /\ weekday sunday = 6.
Proof.
  intros Hv Hmax. pose proof (toordinal_bounds d Hv) as Hb.
  change (toordinal (mk_date 9999 12 26)) with 3652054 in Hmax.
  unfold MAXORDINAL in Hb.
  assert (Hw : 0 <= weekday d <= 6 /\ 1 <= toordinal d - weekday d
               /\ toordinal d - weekday d + 6 <= 3652059
               /\ (toordinal d - weekday d + 6) mod 7 = 0
               /\ (toordinal d - weekday d + 6 + 6) mod 7 = 6).
  { unfold weekday. Z.div_mod_to_equations. lia. }
  destruct Hw as (Hw & Hlo & Hhi & Hmon & Hsun).
  exists (fromordinal (toordinal d - weekday d)),
    (fromordinal (toordinal d - weekday d + 6)).
  unfold week_dates, date_sub, date_add.
  rewrite !td_days_timedelta_days.
  replace (toordinal d + - weekday d) with (toordinal d - weekday d) by lia.
  unfold MAXORDINAL.
  destruct (Z.ltb_spec 0 (toordinal d - weekday d)); [|lia].
  destruct (Z.leb_spec (toordinal d - weekday d) 3652059); [|lia].
  cbn [andb bind ret].
  rewrite toordinal_fromordinal by lia.
  destruct (Z.ltb_spec 0 (toordinal d - weekday d + 6)); [|lia].
  destruct (Z.leb_spec (toordinal d - weekday d + 6) 3652059); [|lia].
  cbn [andb bind ret].
  rewrite !weekday_fromordinal, !toordinal_fromordinal by lia.
  repeat (split; [reflexivity|]). split; assumption.
Qed.

Lemma week_dates_overflow d :
  valid_date d -> toordinal (mk_date 9999 12 26) < toordinal d ->
  week_dates d = Raise OverflowError.
Proof.
  intros Hv Hmax. pose proof (toordinal_bounds d Hv) as Hb.
  change (toordinal (mk_date 9999 12 26)) with 3652054 in Hmax.
  unfold MAXORDINAL in Hb.
  assert (Hw : 1 <= toordinal d - weekday d <= 3652059
               /\ 3652059 < toordinal d - weekday d + 6).
  { unfold weekday. Z.div_mod_to_equations. lia. }
  unfold week_dates, date_sub, date_add.
  rewrite !td_days_timedelta_days.
  replace (toordinal d + - weekday d) with (toordinal d - weekday d) by lia.
  unfold MAXORDINAL.
  destruct (Z.ltb_spec 0 (toordinal d - weekday d)); [|lia].
  destruct (Z.leb_spec (toordinal d - weekday d) 3652059); [|lia].
  cbn [andb bind ret].
  rewrite toordinal_fromordinal by lia.
  destruct (Z.leb_spec (toordinal d - weekday d + 6) 3652059); [lia|].
  rewrite andb_false_r. reflexivity.
Qed.

Lemma next_month_first y m :
  1 <= m <= 11 ->
  ymd2ord y (m + 1) 1 = ymd2ord y m (days_in_month y m) + 1.
Proof.
  intros Hm. unfold ymd2ord, days_before_month, days_in_month.
  month_cases m; destruct (is_leap y); zconst; lia.
Qed.

Lemma next_year_first y :
  ymd2ord (y + 1) 1 1 = ymd2ord y 12 (days_in_month y 12) + 1.
Proof.
  unfold ymd2ord, days_before_month, days_in_month.
  rewrite days_before_year_succ.
  destruct (is_leap y), (is_leap (y + 1)); zconst; lia.
Qed.

Lemma days_in_month_range y m :
  1 <= m <= 12 -> 28 <= days_in_month y m <= 31.
Proof.
  intros Hm. unfold days_in_month.
  month_cases m; destruct (is_leap y); zconst; lia.
Qed.

(** One second before midnight of the day with ordinal [o]. *)
Lemma midnight_minus_one_second d :
  2 <= toordinal d <= MAXORDINAL ->
  datetime_sub (mk_datetime d time_min) (timedelta_seconds 1)
  = Ok (mk_datetime (fromordinal (toordinal d - 1)) (mk_time 23 59 59 0)).
Proof.
  intros Ho. unfold datetime_sub, datetime_add.
  change (td_neg (timedelta_seconds 1)) with (mk_timedelta (-1) 86399 0).
  cbn [dt_date dt_time time_min hour minute second microsecond].
  unfold td_add, new_timedelta, divmod.
  cbn [td_days td_seconds td_microseconds].
  change (0 * 3600 + 0 * 60 + 0) with 0.
  change (0 mod 1000000) with 0. change (0 / 1000000) with 0.
  change ((0 + 0) / 86400) with 0. change ((0 + 0) mod 86400) with 0.
  cbn [td_days td_seconds td_microseconds].
  change ((0 + 0) mod 1000000) with 0. change ((0 + 0) / 1000000) with 0.
  change ((0 + 86399 + 0) / 86400) with 0.
  change ((0 + 86399 + 0) mod 86400) with 86399.
  cbn [td_days td_seconds td_microseconds].
  change (86399 / 3600) with 23. change (86399 mod 3600 / 60) with 59.
  change (86399 mod 3600 mod 60) with 59.
  replace (toordinal d + 0 + -1 + 0) with (toordinal d - 1) by lia.
  unfold MAXORDINAL in *.
  destruct (Z.ltb_spec 0 (toordinal d - 1)); [|lia].
  destruct (Z.leb_spec (toordinal d - 1) 3652059); [|lia].
  reflexivity.
Qed.

Lemma fits_c_int_small n :
  -2147483648 <= n <= 2147483647 -> fits_c_int n = true.
Proof.
  intros H. unfold fits_c_int. apply andb_true_iff.
  rewrite !Z.leb_le. lia.
Qed.

Lemma new_datetime_ok y m :
  1 <= y <= 9999 -> 1 <= m <= 12 ->
  new_datetime y m 1 = Ok (mk_datetime (mk_date y m 1) time_min).
Proof.
  intros Hy Hm. unfold new_datetime.
  rewrite !fits_c_int_small by lia. cbn [andb].
  unfold check_date_fields, MINYEAR, MAXYEAR.
  pose proof (days_in_month_range y m Hm).
  destruct (Z.leb_spec 1 y); [|lia]. destruct (Z.leb_spec y 9999); [|lia].
  destruct (Z.leb_spec 1 m); [|lia]. destruct (Z.leb_spec m 12); [|lia].
  destruct (Z.leb_spec 1 (days_in_month y m)); [|lia].
  reflexivity.
Qed.

Lemma month_days_spec y m :
  1 <= y <= 9999 -> 1 <= m <= 12 -> y < 9999 \/ m < 12 ->
  month_days y m
  = Ok (mk_datetime (mk_date y m 1) time_min,
        mk_datetime (mk_date y m (days_in_month y m)) (mk_time 23 59 59 0)).
Proof.
  intros Hy Hm Hlast. unfold month_days.
  rewrite new_datetime_ok by lia. cbn [bind].
  pose proof (days_in_month_range y m Hm) as Hdim.
  assert (Hlo : 1 <= ymd2ord y m (days_in_month y m)).
  { apply (toordinal_bounds (mk_date y m (days_in_month y m))).
    repeat split; cbn [year month day]; lia. }
  destruct (Z.eqb_spec m 12) as [-> | Hne].
  - rewrite new_datetime_ok by lia. cbn [bind].
    pose proof (toordinal_bounds (mk_date (y + 1) 1 1)) as Hb.
    unfold toordinal in *; cbn [year month day] in *.
    rewrite midnight_minus_one_second;
      unfold toordinal; cbn [year month day];
      rewrite next_year_first in *.
    + cbn [bind ret].
      replace (ymd2ord y 12 (days_in_month y 12) + 1 - 1)
        with (ymd2ord y 12 (days_in_month y 12)) by lia.
      rewrite fromordinal_ymd2ord by lia. reflexivity.
    + split; [lia|]. apply Hb.
      pose proof (days_in_month_range (y + 1) 1).
      repeat split; cbn [year month day]; lia.
  - rewrite new_datetime_ok by lia. cbn [bind].
    pose proof (toordinal_bounds (mk_date y (m + 1) 1)) as Hb.
    unfold toordinal in *; cbn [year month day] in *.
    rewrite midnight_minus_one_second;
      unfold toordinal; cbn [year month day];
      rewrite next_month_first in * by lia.
    + cbn [bind ret].
      replace (ymd2ord y m (days_in_month y m) + 1 - 1)
        with (ymd2ord y m (days_in_month y m)) by lia.
      rewrite fromordinal_ymd2ord by lia. reflexivity.
    + split; [lia|]. apply Hb.
      pose proof (days_in_month_range y (m + 1)).
      repeat split; cbn [year month day]; lia.
Qed.

End BoundaryFacts.

(* ================================================================== *)
(** * The windows of the week and month views                         *)
(* ================================================================== *)

Module Windows.

Import DatetimeFacts BoundaryFacts Fixtures.

Lemma in_window_iff a b e :
  in_window a b e = true
  <-> aware_instant a <= instant (start_datetime e) <= aware_instant b.
Proof. unfold in_window. rewrite andb_true_iff, !Z.leb_le. tauto. Qed.

Lemma new_datetime_bad_month y m d :
  fits_c_int y = true -> fits_c_int m = true -> fits_c_int d = true ->
  m < 1 \/ 12 < m -> new_datetime y m d = Raise ValueError.
Proof.
  intros Hy Hmc Hd Hm. unfold new_datetime, check_date_fields.
  rewrite Hy, Hmc, Hd. cbn [andb bind].
  destruct (negb ((MINYEAR <=? y) && (y <=? MAXYEAR))); [reflexivity|].
  destruct (Z.leb_spec 1 m), (Z.leb_spec m 12); try lia; reflexivity.
Qed.

Lemma new_datetime_overflow y m d :
  fits_c_int y && fits_c_int m = false ->
  new_datetime y m d = Raise OverflowError.
Proof. intros H. unfold new_datetime. rewrite H. reflexivity. Qed.

Lemma month_days_bad_month y m :
  m < 1 \/ 12 < m -> month_days y m = Raise (bad_month_error y m).
Proof.
  intros Hm. unfold month_days, bad_month_error.
  destruct (fits_c_int y && fits_c_int m) eqn:Hc.
  - apply andb_true_iff in Hc. destruct Hc as [Hy Hmc].
    rewrite new_datetime_bad_month by (assumption || reflexivity).
    reflexivity.
  - rewrite new_datetime_overflow by assumption. reflexivity.
Qed.

Lemma user_tz_utc lib user : user_tz lib user = Ok utc.
Proof. reflexivity. Qed.

Lemma int_param_raises lib p dflt e :
  int_param lib p dflt = Raise e -> e = ValueError.
Proof.
  destruct p as [v|]; cbn [int_param]; [|discriminate].
  unfold int_str. destruct (int_of_str lib v); [discriminate|].
  intros H. injection H as <-. reflexivity.
Qed.

Lemma get_queryset_raises lib user q s e :
  (forall v e, parse_date lib v = Raise e -> e = ValueError) ->
  get_queryset lib user q s = Raise e -> e = ValueError.
Proof.
  intros Hlib. unfold get_queryset.
  destruct (truthy (q_date q) && truthy (q_view q)); [|discriminate].
  destruct (parse_date lib (opt_or (q_date q) EmptyString))
    as [[d|]|e'] eqn:Hp; cbn [bind ret]; try discriminate.
  intros H. injection H as <-. exact (Hlib _ _ Hp).
Qed.

(** Claim C10, as amended.  In [month_view] the [except ValueError]
    guard covers the two calls of [int] and nothing else: the view
    answers 400 "Invalid year or month" when [int] raises on one of the
    two query parameters, and ([parse_date] raising nothing but
    [ValueError]) only then.  When both are integers and the month is
    outside 1..12, [datetime(year, month, 1)] raises outside the guard
    and the request ends as a server error: with a [ValueError] when
    year and month fit a C [int], with an [OverflowError] when one of
    them does not. *)
Theorem month_view_guard_covers_only_parsing lib now user q s :
  ((exists e, int_param lib (q_year q) (year (dt_date now)) = Raise e)
   \/ (exists e, int_param lib (q_month q) (month (dt_date now)) = Raise e)
   -> dispatch lib now user q EventsMonthView s
      = (Ok invalid_year_or_month, s))
  /\ ((forall v e, parse_date lib v = Raise e -> e = ValueError) ->
      dispatch lib now user q EventsMonthView s
      = (Ok invalid_year_or_month, s) ->
      (exists e, int_param lib (q_year q) (year (dt_date now)) = Raise e)
      \/ (exists e, int_param lib (q_month q) (month (dt_date now))
                    = Raise e))
  /\ (forall y m,
        int_param lib (q_year q) (year (dt_date now)) = Ok y ->
        int_param lib (q_month q) (month (dt_date now)) = Ok m ->
        m < 1 \/ 12 < m ->
        dispatch lib now user q EventsMonthView s
        = (Raise (if fits_c_int y && fits_c_int m
                  then ValueError else OverflowError), s)).
Proof.
  assert (Hbad : forall y m,
             int_param lib (q_year q) (year (dt_date now)) = Ok y ->
             int_param lib (q_month q) (month (dt_date now)) = Ok m ->
             m < 1 \/ 12 < m ->
             dispatch lib now user q EventsMonthView s
             = (Raise (bad_month_error y m), s)).
  { intros y m Hy Hm Hout.
    unfold dispatch, route, month_view, year_month.
    rewrite Hy, Hm. cbn [bind catch ret].
    unfold month_window. rewrite month_days_bad_month by assumption.
    cbn [bind]. unfold bad_month_error.
    destruct (fits_c_int y && fits_c_int m); reflexivity. }
  split; [| split; [| exact Hbad]].
  - intros H. unfold dispatch, route, month_view, year_month.
    destruct (int_param lib (q_year q) (year (dt_date now))) as [y|e] eqn:Hy.
    + destruct H as [[e He] | [e He]]; [discriminate|]. rewrite He.
      rewrite (int_param_raises _ _ _ _ He). reflexivity.
    + rewrite (int_param_raises _ _ _ _ Hy). reflexivity.
  - intros Hlib H. unfold dispatch, route, month_view, year_month in H.
    destruct (int_param lib (q_year q) (year (dt_date now)))
      as [y|e] eqn:Hy; [| left; eauto].
    destruct (int_param lib (q_month q) (month (dt_date now)))
      as [m|e] eqn:Hm; [| right; eauto].
    exfalso. cbn [bind catch ret] in H.
    unfold month_window in H. rewrite user_tz_utc in H.
    destruct (month_days y m) as [w|e] eqn:Hw; cbn [bind ret] in H.
    + destruct (get_queryset lib user q s) as [qs|e] eqn:Hq;
        cbn [bind ret handle_exception] in H.
      * unfold list_response, invalid_year_or_month in H. discriminate H.
      * rewrite (get_queryset_raises _ _ _ _ _ Hlib Hq) in H. discriminate H.
    + assert (He : e = ValueError \/ e = OverflowError).
      { unfold month_days in Hw.
        assert (Hnd : forall a b c x,
                   new_datetime a b c = Raise x ->
                   x = ValueError \/ x = OverflowError).
        { intros a b c x. unfold new_datetime, check_date_fields.
          destruct (fits_c_int a && fits_c_int b && fits_c_int c);
            [| intros Hx; injection Hx as <-; right; reflexivity].
          repeat match goal with
                 | |- context [if ?b then _ else _] => destruct b
                 end; cbn [bind ret]; intros Hx; try discriminate Hx;
            injection Hx as <-; left; reflexivity. }
        assert (Hsub : forall a x,
                   datetime_sub a (timedelta_seconds 1) = Raise x ->
                   x = OverflowError).
        { intros a x. unfold datetime_sub, datetime_add.
          repeat match goal with
                 | |- context [let '(_, _) := ?p in _] => destruct p
                 end.
          match goal with
          | |- context [if ?b then _ else _] => destruct b
          end; intros Hx; [discriminate Hx | injection Hx as <-; reflexivity]. }
        destruct (new_datetime y m 1) as [fd|x] eqn:Hfd; cbn [bind] in Hw;
          [| injection Hw as <-; exact (Hnd _ _ _ _ Hfd)].
        destruct (m =? 12).
        - destruct (new_datetime (y + 1) 1 1) as [nx|x] eqn:Hnx;
            cbn [bind] in Hw.
          + destruct (datetime_sub nx (timedelta_seconds 1)) as [ld|x] eqn:Hld;
              cbn [bind ret] in Hw; [discriminate Hw|].
            injection Hw as <-. right. exact (Hsub _ _ Hld).
          + injection Hw as <-. exact (Hnd _ _ _ _ Hnx).
        - destruct (new_datetime y (m + 1) 1) as [nx|x] eqn:Hnx;
            cbn [bind] in Hw.
          + destruct (datetime_sub nx (timedelta_seconds 1)) as [ld|x] eqn:Hld;
              cbn [bind ret] in Hw; [discriminate Hw|].
            injection Hw as <-. right. exact (Hsub _ _ Hld).
          + injection Hw as <-. exact (Hnd _ _ _ _ Hnx). }
      destruct He as [-> | ->]; discriminate H.
Qed.

Lemma month_view_guard_witness :
  (int_param lib0 (q_year (q_month_of "2024" "13")) (year (dt_date now0))
   = Ok 2024
   /\ int_param lib0 (q_month (q_month_of "2024" "13"))
        (month (dt_date now0)) = Ok 13
   /\ (13 < 1 \/ 12 < 13))
  /\ dispatch lib0 now0 alice (q_month_of "2024" "13") EventsMonthView
       empty_store
     = (Raise ValueError, empty_store).
Proof.
  split.
  - split; [reflexivity | split; [reflexivity | right; reflexivity]].
  - apply (proj2 (proj2 (month_view_guard_covers_only_parsing lib0 now0
                           alice (q_month_of "2024" "13") empty_store))
             2024 13);
      [reflexivity | reflexivity | right; reflexivity].
Defined.

(** The month 2147483648 is an integer outside 1..12 that does not fit
    a C [int]: the request ends in an [OverflowError], not in a
    [ValueError]. *)
Lemma month_beyond_c_int_overflows :
  int_param lib0 (q_month (q_month_of "2024" "2147483648"))
    (month (dt_date now0)) = Ok 2147483648
  /\ dispatch lib0 now0 alice (q_month_of "2024" "2147483648")
       EventsMonthView empty_store
     = (Raise OverflowError, empty_store)
  /\ dispatch lib0 now0 alice (q_month_of "2024" "2147483648")
       EventsMonthView empty_store
     <> (Raise ValueError, empty_store).
Proof.
  split; [reflexivity|]. split; [reflexivity|].
  intros H. vm_compute in H. discriminate H.
Qed.



(** Claim C2, as amended.  For every year in 1..9999 and month in 1..12,
    December 9999 apart, the month window is [first day 00:00:00, last
    day 23:59:59.000000] in the user's zone: the end is the first instant
    of the next month minus one second, with the step from December to
    January of the next year; both bounds are inclusive, and the view
    lists the events of the queryset that start inside.  For February
    2024 the window is [2024-02-01T00:00:00, 2024-02-29T23:59:59]. *)
Theorem month_window_spec lib now user q s y m tz :
  1 <= y <= 9999 -> 1 <= m <= 12 -> y < 9999 \/ m < 12 ->
  user_tz lib user = Ok tz ->
  let first_day := mk_datetime (mk_date y m 1) time_min in
  let last_day :=
    mk_datetime (mk_date y m (days_in_month y m)) (mk_time 23 59 59 0) in
  month_window lib user y m = Ok (localize tz first_day, localize tz last_day)
  /\ (forall e,
        in_window (localize tz first_day) (localize tz last_day) e = true
        <-> aware_instant (localize tz first_day)
            <= instant (start_datetime e)
            <= aware_instant (localize tz last_day))
  /\ (forall qs,
        year_month lib now q = Ok (inl (y, m)) ->
        get_queryset lib user q s = Ok qs ->
        month_view lib now user q s
        = Ok (list_response s
                (filter (in_window (localize tz first_day)
                           (localize tz last_day)) qs)))
  /\ month_days 2024 2
     = Ok (mk_datetime (mk_date 2024 2 1) (mk_time 0 0 0 0),
           mk_datetime (mk_date 2024 2 29) (mk_time 23 59 59 0))
  /\ month_days 2023 12
     = Ok (mk_datetime (mk_date 2023 12 1) (mk_time 0 0 0 0),
           mk_datetime (mk_date 2023 12 31) (mk_time 23 59 59 0)).
Proof.
  intros Hy Hm Hlast Htz first_day last_day.
  assert (Hw : month_window lib user y m
               = Ok (localize tz first_day, localize tz last_day)).
  { unfold month_window. rewrite month_days_spec by assumption.
    cbn [bind]. rewrite Htz. reflexivity. }
  split; [exact Hw|]. split; [intros e; apply in_window_iff|].
  split; [|split; reflexivity].
  intros qs Hym Hqs. unfold month_view. rewrite Hym. cbn [bind].
  rewrite Hw. cbn [bind]. rewrite Hqs. reflexivity.
Qed.

Lemma month_window_spec_witness :
  (1 <= 2024 <= 9999 /\ 1 <= 2 <= 12 /\ (2024 < 9999 \/ 2 < 12)
   /\ user_tz lib0 alice = Ok utc)
  /\ month_window lib0 alice 2024 2
     = Ok (localize utc (mk_datetime (mk_date 2024 2 1) time_min),
           localize utc (mk_datetime (mk_date 2024 2 29) (mk_time 23 59 59 0))).
Proof.
  split.
  - split; [lia | split; [lia | split; [left; lia | reflexivity]]].
  - apply (proj1 (month_window_spec lib0 now0 alice no_params empty_store
                    2024 2 utc ltac:(lia) ltac:(lia) ltac:(left; lia)
                    eq_refl)).
Defined.

(** The end of the February 2024 window is 23:59:59.000000, so an event
    that starts half a second later is outside it. *)
Lemma month_window_end_is_not_999 :
  month_days 2024 2
  <> Ok (mk_datetime (mk_date 2024 2 1) (mk_time 0 0 0 0),
         mk_datetime (mk_date 2024 2 29) (mk_time 23 59 59 999000))
  /\ (exists w,
        month_window lib0 alice 2024 2 = Ok w
        /\ in_window (fst w) (snd w)
             (event0 1 1 (at_ 2024 2 29 23 59 59 500000)
                (at_ 2024 3 1 1 0 0 0)) = false).
Proof.
  split.
  - intros H. vm_compute in H. discriminate H.
  - eexists. split; [reflexivity|]. vm_compute. reflexivity.
Qed.

(** The window of [week_view]: for every reference date up to
    9999-12-26 it starts at 00:00:00 of the Monday of the week that
    contains the date and ends at 23:59:59.999999 of the Sunday six days
    later, both bounds inclusive, and the view lists the events of the
    queryset that start inside; for 2025-01-15 the two days are
    2025-01-13 and 2025-01-19. *)
Theorem week_window_spec lib now user q s d tz :
  valid_date d -> toordinal d <= toordinal (mk_date 9999 12 26) ->
  user_tz lib user = Ok tz ->
  exists monday sunday,
    week_window lib user d
    = Ok (localize tz (combine monday time_min),
          localize tz (combine sunday time_max))
    /\ weekday monday = 0 /\ weekday sunday = 6
    /\ toordinal monday <= toordinal d <= toordinal sunday
    /\ toordinal sunday = toordinal monday + 6
    /\ (forall e,
          in_window (localize tz (combine monday time_min))
            (localize tz (combine sunday time_max)) e = true
          <-> aware_instant (localize tz (combine monday time_min))
              <= instant (start_datetime e)
              <= aware_instant (localize tz (combine sunday time_max)))
    /\ (forall qs,
          reference_date lib now q = Ok (Some d) ->
          get_queryset lib user q s = Ok qs ->
          week_view lib now user q s
          = Ok (list_response s
                  (filter (in_window (localize tz (combine monday time_min))
                             (localize tz (combine sunday time_max))) qs)))
    /\ week_dates (mk_date 2025 1 15)
       = Ok (mk_date 2025 1 13, mk_date 2025 1 19).
Proof.
  intros Hv Hmax Htz.
  destruct (week_dates_ok d Hv Hmax)
    as (monday & sunday & Hw & Hmon & Hsun & Hwm & Hws).
  pose proof (weekday_range d) as Hr.
  exists monday, sunday.
  assert (Hwin : week_window lib user d
                 = Ok (localize tz (combine monday time_min),
                       localize tz (combine sunday time_max))).
  { unfold week_window. rewrite Hw. cbn [bind fst snd]. rewrite Htz.
    reflexivity. }
  split; [exact Hwin|]. split; [exact Hwm|]. split; [exact Hws|].
  split; [lia|]. split; [lia|]. split; [intros e; apply in_window_iff|].
  split; [|reflexivity].
  intros qs Hd Hqs. unfold week_view. rewrite Hd. cbn [bind].
  rewrite Hwin. cbn [bind]. rewrite Hqs. reflexivity.
Qed.

Lemma week_window_spec_witness :
  (valid_date (mk_date 2025 1 15)
   /\ toordinal (mk_date 2025 1 15) <= toordinal (mk_date 9999 12 26)
   /\ user_tz lib0 alice = Ok utc)
  /\ exists monday sunday,
      week_window lib0 alice (mk_date 2025 1 15)
      = Ok (localize utc (combine monday time_min),
            localize utc (combine sunday time_max))
      /\ weekday monday = 0 /\ weekday sunday = 6.
Proof.
  assert (Hv : valid_date (mk_date 2025 1 15))
    by (repeat split; vm_compute; discriminate).
  assert (Hm : toordinal (mk_date 2025 1 15) <= toordinal (mk_date 9999 12 26))
    by (vm_compute; discriminate).
  split.
  - split; [exact Hv | split; [exact Hm | reflexivity]].
  - destruct (week_window_spec lib0 now0 alice no_params empty_store
                (mk_date 2025 1 15) utc Hv Hm eq_refl)
      as (monday & sunday & Hw & Hwm & Hws & _).
    exists monday, sunday. split; [exact Hw | split; assumption].
Defined.

(** The week of 9999-12-31 ends after the last representable date. *)
Lemma week_of_last_date_overflows :
  valid_date (mk_date 9999 12 31)
  /\ week_dates (mk_date 9999 12 31) = Raise OverflowError
  /\ dispatch lib0 now0 alice (q_week "9999-12-31") EventsWeekView empty_store
     = (Raise OverflowError, empty_store).
Proof.
  split; [repeat split; vm_compute; discriminate|].
  split; reflexivity.
Qed.

(** The old-style [view=week] filter compares ISO week numbers only: an
    event of week 3 of 2024 passes for the reference date 2025-01-15. *)
Lemma legacy_week_filter_ignores_year :
  legacy_view_filter "week" (mk_date 2025 1 15)
    (event0 1 1 (at_ 2024 1 17 9 0 0 0) (at_ 2024 1 17 10 0 0 0)) = true.
Proof. reflexivity. Qed.

(** Claim C4 (the old-style week filter).  [GET /events/] with
    [?date=2025-01-15&view=week] goes through the week branch of
    [get_queryset], which keeps the events whose ISO week number is
    that of the date, whatever their year: on a store whose only event
    starts on 2024-01-17 the listing holds that event, although the
    week of 2025-01-15 runs from Monday 2025-01-13 to Sunday
    2025-01-19.  [week_view] on the same store and date lists
    nothing. *)
Theorem week_filter_lists_other_years :
  week_dates (mk_date 2025 1 15) = Ok (mk_date 2025 1 13, mk_date 2025 1 19)
  /\ iso_week (mk_date 2024 1 17) = iso_week (mk_date 2025 1 15)
  /\ dispatch lib0 now0 alice (q_legacy "2025-01-15" "week") EventsList
       store2024
     = (Ok (list_response store2024 [event2024]), store2024)
  /\ dispatch lib0 now0 alice (q_week "2025-01-15") EventsWeekView
       store2024
     = (Ok (list_response store2024 []), store2024).
Proof. repeat split; vm_compute; reflexivity. Qed.

End Windows.

(* ================================================================== *)
(** * Lists, the join and the queryset                                *)
(* ================================================================== *)

Module QuerysetFacts.

(** The serializer that each write action validates with. *)
Lemma create_unfold now user d s :
  create now user d s
  = match CalendarEventCreateSerializer_is_valid s false d with
    | Raise e => (Raise e, s)
    | Ok v =>
        match serializer_create now (user_id user) v s with
        | (Raise e, s') => (Raise e, s')
        | (Ok e, s') =>
            (Ok (mk_Response HTTP_201_CREATED (created_body s' e)), s')
        end
    end.
Proof. reflexivity. Qed.

Lemma update_unfold lib now user q partial pk d s :
  update lib now user q partial pk d s
  = match get_object lib user q pk s with
    | Raise e => (Raise e, s)
    | Ok inst =>
        match CalendarEventSerializer_is_valid s partial d with
        | Raise e => (Raise e, s)
        | Ok v =>
            let '(e, s') := serializer_update now inst v s in
            (Ok (mk_Response HTTP_200_OK (detail_body s' e)), s')
        end
    end.
Proof. destruct partial; reflexivity. Qed.

Section ListFacts.

Context {A : Type}.

Lemma filter_filter_and (f g : A -> bool) (l : list A) :
  filter f (filter g l) = filter (fun x => g x && f x) l.
Proof.
  induction l as [|x l IH]; cbn [filter]; [reflexivity|].
  destruct (g x); cbn [filter andb]; [destruct (f x)|]; congruence.
Qed.

Lemma filter_true (l : list A) : filter (fun _ => true) l = l.
Proof.
  induction l as [|x l IH]; cbn [filter]; [reflexivity | now rewrite IH].
Qed.

Lemma In_insert_by (key : A -> Z) (e x : A) (l : list A) :
  In x (insert_by key e l) <-> x = e \/ In x l.
Proof.
  induction l as [|y l IH]; cbn [insert_by In].
  - intuition congruence.
  - destruct (key e <? key y); cbn [In]; rewrite ?IH; intuition congruence.
Qed.

Lemma In_order_by (key : A -> Z) (x : A) (l : list A) :
  In x (order_by key l) <-> In x l.
Proof.
  unfold order_by. induction l as [|y l IH]; cbn [fold_right In].
  - tauto.
  - rewrite In_insert_by, IH. intuition congruence.
Qed.

Lemma NoDup_insert_by (key : A -> Z) (e : A) (l : list A) :
  NoDup l -> ~ In e l -> NoDup (insert_by key e l).
Proof.
  induction l as [|y l IH]; cbn [insert_by]; intros Hnd Hin.
  - constructor; [exact Hin | constructor].
  - destruct (key e <? key y).
    + constructor; assumption.
    + inversion Hnd as [|? ? Hy Hl]; subst. constructor.
      * rewrite In_insert_by. cbn [In] in Hin. intuition congruence.
      * apply IH; [assumption|]. cbn [In] in Hin. tauto.
Qed.

Lemma NoDup_order_by (key : A -> Z) (l : list A) :
  NoDup l -> NoDup (order_by key l).
Proof.
  unfold order_by. induction 1 as [|y l Hy Hl IH]; cbn [fold_right].
  - constructor.
  - apply NoDup_insert_by; [exact IH|].
    fold (order_by key l). rewrite In_order_by. exact Hy.
Qed.

Lemma NoDup_filter' (f : A -> bool) (l : list A) :
  NoDup l -> NoDup (filter f l).
Proof.
  induction 1 as [|y l Hy Hl IH]; cbn [filter]; [constructor|].
  destruct (f y); [|exact IH].
  constructor; [|exact IH]. rewrite filter_In. tauto.
Qed.

End ListFacts.

(** Injective keys: a duplicate-free sublist of a list with distinct keys
    has distinct keys. *)
Lemma NoDup_map_key_inj {A} (key : A -> Z) (l0 : list A) :
  NoDup (map key l0) ->
  forall a b, In a l0 -> In b l0 -> key a = key b -> a = b.
Proof.
  induction l0 as [|x l0 IH]; cbn [map In]; intros Hnd a b Ha Hb Hk.
  - contradiction.
  - inversion Hnd as [|? ? Hx Hl]; subst.
    destruct Ha as [<- | Ha], Hb as [<- | Hb].
    + reflexivity.
    + exfalso. apply Hx. rewrite Hk. apply in_map. exact Hb.
    + exfalso. apply Hx. rewrite <- Hk. apply in_map. exact Ha.
    + apply IH; assumption.
Qed.

Lemma NoDup_map_key_sub {A} (key : A -> Z) (l0 l : list A) :
  NoDup (map key l0) -> NoDup l -> (forall e, In e l -> In e l0) ->
  NoDup (map key l).
Proof.
  intros H0. induction 1 as [|x l Hx Hl IH]; cbn [map]; intros Hsub.
  - constructor.
  - constructor.
    + rewrite in_map_iff. intros (y & Hk & Hy). apply Hx.
      assert (y = x) as <-; [|exact Hy].
      apply (NoDup_map_key_inj key l0 H0); [| |exact Hk];
        apply Hsub; cbn [In]; tauto.
    + apply IH. intros e He. apply Hsub. cbn [In]. tauto.
Qed.

Lemma pair_eqb_eq a b : pair_eqb a b = true <-> a = b.
Proof.
  unfold pair_eqb. destruct a as [a1 a2], b as [b1 b2]. cbn [fst snd].
  rewrite andb_true_iff, !Z.eqb_eq. split; [intros [-> ->] | intros [= -> ->]]; auto.
Qed.

Lemma attendee_ids_In ev uid s :
  In uid (attendee_ids ev s) <-> In (ev, uid) (event_attendees s).
Proof.
  unfold attendee_ids. rewrite in_map_iff. split.
  - intros ([e u] & <- & H). apply filter_In in H as [H He].
    cbn [fst snd] in *. apply Z.eqb_eq in He. subst. exact H.
  - intros H. exists (ev, uid). split; [reflexivity|].
    apply filter_In. split; [exact H|]. cbn [fst]. apply Z.eqb_refl.
Qed.

Lemma is_attendee_true ev uid s :
  is_attendee ev uid s = true <-> In (ev, uid) (event_attendees s).
Proof.
  unfold is_attendee. rewrite existsb_exists. split.
  - intros (x & Hx & He). apply pair_eqb_eq in He. subst. exact Hx.
  - intros H. exists (ev, uid). split; [exact H | apply pair_eqb_eq; reflexivity].
Qed.

Lemma joined_rows_In s e a :
  In (e, a) (joined_rows s)
  <-> In e (events s)
      /\ match a with
         | Some u => In u (attendee_ids (id e) s)
         | None => attendee_ids (id e) s = []
         end.
Proof.
  unfold joined_rows. rewrite in_flat_map. split.
  - intros (x & Hx & Hin). destruct (attendee_ids (id x) s) as [|u0 us] eqn:Hids.
    + cbn [In] in Hin. destruct Hin as [[= <- <-] | []]. auto.
    + apply in_map_iff in Hin as (u & [= <- <-] & Hu). rewrite Hids. auto.
  - intros [He Ha]. exists e. split; [exact He|].
    destruct a as [u|].
    + destruct (attendee_ids (id e) s) as [|u0 us] eqn:Hids; [contradiction|].
      apply (in_map (fun a => (e, Some a))). exact Ha.
    + rewrite Ha. cbn [In]. auto.
Qed.

Lemma base_queryset_In uid s e :
  In e (base_queryset uid s) <-> In e (events s) /\ visible_to uid s e.
Proof.
  unfold base_queryset, distinct, visible_to.
  rewrite nodup_In, in_map_iff. split.
  - intros ([e' a] & <- & H). apply filter_In in H as [Hrow Hq].
    apply joined_rows_In in Hrow as [He Ha]. cbn [fst].
    split; [exact He|].
    unfold Q_creator_or_attendee in Hq. cbn [fst snd] in Hq.
    apply orb_true_iff in Hq as [Hc | Hq].
    + left. apply Z.eqb_eq. exact Hc.
    + right. destruct a as [u|]; [|discriminate].
      apply Z.eqb_eq in Hq. subst. exact Ha.
  - intros [He Hv].
    destruct Hv as [Hc | Hatt].
    + destruct (attendee_ids (id e) s) as [|u0 us] eqn:Hids.
      * exists (e, None). split; [reflexivity|]. apply filter_In. split.
        -- apply joined_rows_In. auto.
        -- unfold Q_creator_or_attendee. cbn [fst snd].
           apply orb_true_iff. left. apply Z.eqb_eq. exact Hc.
      * exists (e, Some u0). split; [reflexivity|]. apply filter_In. split.
        -- apply joined_rows_In. split; [exact He|]. rewrite Hids. cbn [In]. auto.
        -- unfold Q_creator_or_attendee. cbn [fst snd].
           apply orb_true_iff. left. apply Z.eqb_eq. exact Hc.
    + exists (e, Some uid). split; [reflexivity|]. apply filter_In. split.
      * apply joined_rows_In. auto.
      * unfold Q_creator_or_attendee. cbn [fst snd].
        apply orb_true_iff. right. apply Z.eqb_refl.
Qed.

Lemma base_queryset_NoDup uid s : NoDup (base_queryset uid s).
Proof. apply NoDup_nodup. Qed.

(** The request alone decides whether [get_queryset] raises and which
    filter it applies. *)
Lemma get_queryset_shape lib user q :
  (exists f, forall s,
      get_queryset lib user q s
      = Ok (filter f (base_queryset (user_id user) s)))
  \/ (exists ex, forall s, get_queryset lib user q s = Raise ex).
Proof.
  unfold get_queryset.
  set (f1 := fun e : CalendarEvent =>
               if truthy (q_event_type q)
               then String.eqb (event_type e) (opt_or (q_event_type q) EmptyString)
               else true).
  set (f2 := fun e : CalendarEvent =>
               match q_is_completed q with
               | Some v => Bool.eqb (is_completed e) (String.eqb (lower v) "true")
               | None => true
               end).
  assert (H12 : forall s,
             match q_is_completed q with
             | Some v =>
                 filter (fun e => Bool.eqb (is_completed e)
                                    (String.eqb (lower v) "true"))
                   (if truthy (q_event_type q)
                    then filter (fun e => String.eqb (event_type e)
                                            (opt_or (q_event_type q) EmptyString))
                           (base_queryset (user_id user) s)
                    else base_queryset (user_id user) s)
             | None =>
                 if truthy (q_event_type q)
                 then filter (fun e => String.eqb (event_type e)
                                         (opt_or (q_event_type q) EmptyString))
                        (base_queryset (user_id user) s)
                 else base_queryset (user_id user) s
             end
             = filter (fun e => f1 e && f2 e) (base_queryset (user_id user) s)).
  { intros s. subst f1 f2. cbv beta.
    destruct (q_is_completed q), (truthy (q_event_type q));
      rewrite ?filter_filter_and; cbn [andb];
      first [ symmetry; apply filter_true
            | apply filter_ext; intros e; rewrite ?andb_true_r; reflexivity ]. }
  destruct (truthy (q_date q) && truthy (q_view q)).
  - destruct (parse_date lib (opt_or (q_date q) EmptyString)) as [[d|]|ex].
    + left. exists (fun e => (f1 e && f2 e)
                             && legacy_view_filter (opt_or (q_view q) EmptyString) d e).
      intros s. cbn [bind ret]. rewrite H12, filter_filter_and. reflexivity.
    + left. exists (fun e => f1 e && f2 e). intros s. cbn [bind ret].
      rewrite H12. reflexivity.
    + right. exists ex. intros s. reflexivity.
  - left. exists (fun e => f1 e && f2 e). intros s. cbn [ret].
    rewrite H12. reflexivity.
Qed.

Lemma get_queryset_sound lib user q s qs :
  get_queryset lib user q s = Ok qs ->
  NoDup qs
  /\ forall e, In e qs -> In e (events s) /\ visible_to (user_id user) s e.
Proof.
  intros H.
  destruct (get_queryset_shape lib user q) as [[f Hf] | [ex Hex]].
  - rewrite Hf in H. injection H as <-. split.
    + apply NoDup_filter', base_queryset_NoDup.
    + intros e He. apply filter_In in He as [He _].
      apply base_queryset_In. exact He.
  - rewrite Hex in H. discriminate.
Qed.

End QuerysetFacts.

(* ================================================================== *)
(** * Visibility                                                      *)
(* ================================================================== *)

Module Visibility.

Import QuerysetFacts Fixtures.

Lemma listed_ids_list_response s evs :
  listed_ids (data (list_response s evs)) = map id (order_by_start evs).
Proof.
  unfold list_response. cbn [data listed_ids]. rewrite map_map. reflexivity.
Qed.

Lemma list_response_visible lib user q s qs f :
  get_queryset lib user q s = Ok qs ->
  lists_visible (user_id user) s (list_response s (filter f qs)).
Proof.
  intros Hqs. destruct (get_queryset_sound lib user q s qs Hqs) as [Hnd Hvis].
  exists (order_by_start (filter f qs)).
  assert (Hnd' : NoDup (order_by_start (filter f qs)))
    by (apply NoDup_order_by, NoDup_filter', Hnd).
  assert (Hin : forall e, In e (order_by_start (filter f qs)) ->
                          In e (events s) /\ visible_to (user_id user) s e).
  { intros e He. apply In_order_by, filter_In in He as [He _]. auto. }
  split; [reflexivity|]. split; [exact Hnd'|]. split; [exact Hin|].
  intros Hpk. rewrite listed_ids_list_response.
  apply (NoDup_map_key_sub id (events s)); [exact Hpk | exact Hnd' |].
  intros e He. apply Hin. exact He.
Qed.

(** Claim C5.  Whatever the filters of the request, every event that
    [get_queryset] returns is an event of the store that the user created
    or attends, and no event is returned twice; the same holds for what
    the listing, the week view and the month view answer (when they do
    not answer 400), whose entries have pairwise different ids when the
    primary keys of the store are. *)
Theorem visible_events_only lib now user q s :
  (forall qs,
      get_queryset lib user q s = Ok qs ->
      NoDup qs
      /\ forall e, In e qs -> In e (events s)
                              /\ visible_to (user_id user) s e)
  /\ (forall resp,
        list_events lib user q s = Ok resp ->
        lists_visible (user_id user) s resp)
  /\ (forall resp,
        week_view lib now user q s = Ok resp ->
        status resp = HTTP_400_BAD_REQUEST
        \/ lists_visible (user_id user) s resp)
  /\ (forall resp,
        month_view lib now user q s = Ok resp ->
        status resp = HTTP_400_BAD_REQUEST
        \/ lists_visible (user_id user) s resp).
Proof.
  split; [intros qs; apply get_queryset_sound|].
  split; [|split].
  - intros resp. unfold list_events, filter_queryset.
    destruct (get_queryset lib user q s) as [qs|ex] eqn:Hqs; [|discriminate].
    cbn [bind ret]. intros [= <-].
    destruct (truthy (q_search q)).
    + apply (list_response_visible lib user q s qs _ Hqs).
    + rewrite <- (filter_true qs).
      apply (list_response_visible lib user q s qs _ Hqs).
  - intros resp. unfold week_view.
    destruct (reference_date lib now q) as [[d|]|ex]; cbn [bind ret];
      [|intros [= <-]; left; reflexivity | discriminate].
    destruct (week_window lib user d) as [w|ex]; cbn [bind]; [|discriminate].
    destruct (get_queryset lib user q s) as [qs|ex] eqn:Hqs; [|discriminate].
    cbn [bind ret]. intros [= <-]. right.
    apply (list_response_visible lib user q s qs _ Hqs).
  - intros resp. unfold month_view.
    destruct (year_month lib now q) as [[[y m]|r]|ex] eqn:Hym; cbn [bind ret];
      [| |discriminate].
    + destruct (month_window lib user y m) as [w|ex]; cbn [bind];
        [|discriminate].
      destruct (get_queryset lib user q s) as [qs|ex] eqn:Hqs; [|discriminate].
      cbn [bind ret]. intros [= <-]. right.
      apply (list_response_visible lib user q s qs _ Hqs).
    + intros [= <-]. left. revert Hym. unfold year_month.
      destruct (int_param lib (q_year q) (year (dt_date now))) as [y|ex];
        cbn [bind catch].
      * destruct (int_param lib (q_month q) (month (dt_date now))) as [m|ex];
          cbn [bind catch ret]; [discriminate|].
        destruct (is_ValueError ex); [|discriminate].
        intros [= <-]. reflexivity.
      * destruct (is_ValueError ex); [|discriminate].
        cbn [ret]. intros [= <-]. reflexivity.
Qed.

Lemma visible_events_only_witness :
  exists qs,
    get_queryset lib0 alice no_params store5 = Ok qs
    /\ map id qs = [1; 2]
    /\ NoDup qs
    /\ forall e, In e qs -> In e (events store5)
                            /\ visible_to (user_id alice) store5 e.
Proof.
  eexists. split; [vm_compute; reflexivity|]. split; [reflexivity|].
  apply (proj1 (visible_events_only lib0 now0 alice no_params store5)).
  vm_compute. reflexivity.
Defined.

End Visibility.

(* ================================================================== *)
(** * Attendees                                                       *)
(* ================================================================== *)

Module Attendees.

Import QuerysetFacts Fixtures.

Lemma find_user_Some i s u :
  find_user i s = Some u -> In u (users s) /\ user_id u = i.
Proof.
  unfold find_user. intros H. apply find_some in H as [Hin He].
  apply Z.eqb_eq in He. auto.
Qed.

Lemma find_user_None i s :
  find_user i s = None <-> forall u, In u (users s) -> user_id u <> i.
Proof.
  unfold find_user. split.
  - intros H u Hu. apply (find_none _ _ H) in Hu. apply Z.eqb_neq. exact Hu.
  - intros H. destruct (find _ _) as [u|] eqn:Hf; [|reflexivity].
    apply find_some in Hf as [Hin He]. apply Z.eqb_eq in He.
    exfalso. exact (H u Hin He).
Qed.

Lemma find_event_Some pk l e :
  find_event pk l = Some e -> In e l /\ id e = pk.
Proof.
  unfold find_event. intros H. apply find_some in H as [Hin He].
  apply Z.eqb_eq in He. auto.
Qed.

Lemma find_event_unique l e :
  NoDup (map id l) -> In e l -> find_event (id e) l = Some e.
Proof.
  unfold find_event. induction l as [|x l IH]; cbn [map In find];
    intros Hnd Hin; [contradiction|].
  inversion Hnd as [|? ? Hx Hl]; subst.
  destruct Hin as [-> | Hin].
  - rewrite Z.eqb_refl. reflexivity.
  - destruct (Z.eqb_spec (id x) (id e)) as [E | E].
    + exfalso. apply Hx. rewrite E. apply in_map. exact Hin.
    + apply IH; assumption.
Qed.

Lemma filter_queryset_In lib q qs e :
  In e (filter_queryset lib q qs)
  <-> In e qs /\ (truthy (q_search q) = true ->
                  search_matches lib (opt_or (q_search q) EmptyString) e = true).
Proof.
  unfold filter_queryset. destruct (truthy (q_search q)).
  - rewrite filter_In. intuition.
  - intuition discriminate.
Qed.

Lemma filter_queryset_NoDup lib q qs :
  NoDup qs -> NoDup (filter_queryset lib q qs).
Proof.
  unfold filter_queryset. destruct (truthy (q_search q)); [|auto].
  apply NoDup_filter'.
Qed.



Lemma attendees_add_rows ev uid s :
  event_attendees (attendees_add ev uid s)
  = if is_attendee ev uid s then event_attendees s
    else event_attendees s ++ [(ev, uid)].
Proof. unfold attendees_add. destruct (is_attendee ev uid s); reflexivity. Qed.

Lemma attendees_add_events ev uid s :
  events (attendees_add ev uid s) = events s.
Proof. unfold attendees_add. destruct (is_attendee ev uid s); reflexivity. Qed.

Lemma attendees_add_present ev uid s :
  is_attendee ev uid (attendees_add ev uid s) = true.
Proof.
  apply is_attendee_true. rewrite attendees_add_rows.
  destruct (is_attendee ev uid s) eqn:H.
  - apply is_attendee_true. exact H.
  - apply in_or_app. right. cbn [In]. auto.
Qed.


Lemma attendees_add_well_formed ev uid s :
  well_formed s -> well_formed (attendees_add ev uid s).
Proof.
  intros [Hpk Hrows]. split.
  - rewrite attendees_add_events. exact Hpk.
  - rewrite attendees_add_rows. destruct (is_attendee ev uid s) eqn:H.
    + exact Hrows.
    + apply NoDup_app; [exact Hrows | constructor; [intros []|constructor] |].
      intros x Hx [<- | []].
      apply is_attendee_true in Hx. congruence.
Qed.



























End Attendees.

(* ================================================================== *)
(** * Float arithmetic: rounding and the minutes of a span           *)
(* ================================================================== *)

Module FloatFacts.

Local Open Scope Q_scope.

Lemma two_pos k : 0 < 2 ^ k.
Proof. apply Qpower_0_lt. reflexivity. Qed.

Lemma two_nz : ~ 2 == 0.
Proof. intro H. discriminate H. Qed.

Lemma inject_pow2 (n : Z) : (0 <= n)%Z -> inject_Z (2 ^ n) == 2 ^ n.
Proof. intro H. rewrite Zpower_Qpower by assumption. reflexivity. Qed.

Lemma Q_as_div (q : Q) : q == inject_Z (Qnum q) / inject_Z (Zpos (Qden q)).
Proof. destruct q as [n d]. cbn [Qnum Qden]. rewrite <- Qmake_Qdiv. reflexivity. Qed.

Lemma ilog2_spec (q : Q) : 0 < q -> 2 ^ ilog2 q <= q /\ q < 2 ^ (ilog2 q + 1).
Proof.
  intro Hq.
  assert (Hn : (0 < Qnum q)%Z).
  { destruct q as [n d]. unfold Qlt in Hq. cbn in *. lia. }
  set (la := Z.log2 (Qnum q)). set (ld := Z.log2 (Zpos (Qden q))).
  destruct (Z.log2_spec (Qnum q) Hn) as [Ha1 Ha2]. fold la in Ha1, Ha2.
  destruct (Z.log2_spec (Zpos (Qden q)) (Pos2Z.is_pos _)) as [Hd1 Hd2].
  fold ld in Hd1, Hd2.
  assert (Hla : (0 <= la)%Z) by apply Z.log2_nonneg.
  assert (Hld : (0 <= ld)%Z) by apply Z.log2_nonneg.
  assert (Qa1 : 2 ^ la <= inject_Z (Qnum q)).
  { rewrite <- inject_pow2 by assumption. rewrite <- Zle_Qle. assumption. }
  assert (Qa2 : inject_Z (Qnum q) < 2 ^ (la + 1)).
  { rewrite <- inject_pow2 by lia. rewrite <- Zlt_Qlt.
    replace (la + 1)%Z with (Z.succ la) by lia. assumption. }
  assert (Qd1 : 2 ^ ld <= inject_Z (Zpos (Qden q))).
  { rewrite <- inject_pow2 by assumption. rewrite <- Zle_Qle. assumption. }
  assert (Qd2 : inject_Z (Zpos (Qden q)) < 2 ^ (ld + 1)).
  { rewrite <- inject_pow2 by lia. rewrite <- Zlt_Qlt.
    replace (ld + 1)%Z with (Z.succ ld) by lia. assumption. }
  assert (Hdpos : 0 < inject_Z (Zpos (Qden q))) by reflexivity.
  assert (Hqd : q * inject_Z (Zpos (Qden q)) == inject_Z (Qnum q)).
  { rewrite (Q_as_div q) at 1. field. intro H; discriminate H. }
  (* q is between 2^(la-ld-1) and 2^(la-ld+1) *)
  assert (Hlow : 2 ^ (la - ld - 1) < q).
  { apply (Qmult_lt_r _ _ (inject_Z (Zpos (Qden q)))); [assumption|].
    rewrite Hqd.
    apply Qlt_le_trans with (2 ^ (la - ld - 1) * 2 ^ (ld + 1)).
    - apply Qmult_lt_l; [apply two_pos | assumption].
    - rewrite <- Qpower_plus by apply two_nz.
      replace (la - ld - 1 + (ld + 1))%Z with la by lia. assumption. }
  assert (Hup : q < 2 ^ (la - ld + 1)).
  { apply (Qmult_lt_r _ _ (inject_Z (Zpos (Qden q)))); [assumption|].
    rewrite Hqd.
    apply Qlt_le_trans with (2 ^ (la - ld + 1) * 2 ^ ld).
    - rewrite <- Qpower_plus by apply two_nz.
      replace (la - ld + 1 + ld)%Z with (la + 1)%Z by lia. assumption.
    - apply Qmult_le_l; [apply two_pos | assumption]. }
  unfold ilog2. fold la ld.
  destruct (Qcompare q (2 ^ (la - ld))) eqn:Hc.
  - apply Qeq_alt in Hc. split; [rewrite Hc; apply Qle_refl | assumption].
  - apply Qlt_alt in Hc. split.
    + apply Qlt_le_weak. assumption.
    + replace (la - ld - 1 + 1)%Z with (la - ld)%Z by lia. assumption.
  - apply Qgt_alt in Hc. split; [apply Qlt_le_weak; assumption | assumption].
Qed.

Lemma round_half_even_spec (t : Q) :
  inject_Z (round_half_even t) - t <= 1 # 2
  /\ t - inject_Z (round_half_even t) <= 1 # 2.
Proof.
  unfold round_half_even.
  pose proof (Qfloor_le t) as H1. pose proof (Qlt_floor t) as H2.
  rewrite inject_Z_plus in H2. change (inject_Z 1) with 1 in H2.
  destruct (Qcompare (t - inject_Z (Qfloor t)) (1 # 2)) eqn:Hc.
  - apply Qeq_alt in Hc.
    destruct (Z.even (Qfloor t));
      [| rewrite inject_Z_plus; change (inject_Z 1) with 1]; split; lra.
  - apply Qlt_alt in Hc. split; lra.
  - apply Qgt_alt in Hc. rewrite inject_Z_plus.
    change (inject_Z 1) with 1. split; lra.
Qed.

Lemma round_half_even_Z (t : Q) (n : Z) :
  t == inject_Z n -> round_half_even t = n.
Proof.
  intro H. unfold round_half_even.
  assert (Hf : Qfloor t = n) by (rewrite H; apply Qfloor_Z).
  rewrite Hf.
  assert (Hc : Qcompare (t - inject_Z n) (1 # 2) = Lt).
  { apply (proj1 (Qlt_alt _ _)). rewrite H. lra. }
  rewrite Hc. reflexivity.
Qed.

(** The rounded value, its scaled mantissa and the exponent. *)
Lemma float_round_pos_spec (q : Q) :
  0 < q ->
  let e := ilog2 q in
  let m := round_half_even (q * 2 ^ (52 - e)) in
  float_round_pos q = inject_Z m * 2 ^ (e - 52)
  /\ 2 ^ e <= q /\ q < 2 ^ (e + 1)
  /\ inject_Z m - q * 2 ^ (52 - e) <= 1 # 2
  /\ q * 2 ^ (52 - e) - inject_Z m <= 1 # 2.
Proof.
  intros Hq e m. split; [reflexivity|].
  destruct (ilog2_spec q Hq) as [H1 H2].
  destruct (round_half_even_spec (q * 2 ^ (52 - e))) as [H3 H4].
  repeat split; assumption.
Qed.

Lemma pow_inv (e : Z) : 2 ^ (52 - e) * 2 ^ (e - 52) == 1.
Proof.
  rewrite <- Qpower_plus by apply two_nz.
  replace (52 - e + (e - 52))%Z with 0%Z by lia. reflexivity.
Qed.

(** Relative error of one rounding: at most 2^-53. *)
Lemma float_round_pos_error (q : Q) :
  0 < q ->
  q * (1 - (1 # 9007199254740992)) <= float_round_pos q
  /\ float_round_pos q <= q * (1 + (1 # 9007199254740992)).
Proof.
  intro Hq.
  destruct (float_round_pos_spec q Hq) as (Heq & H1 & H2 & H3 & H4).
  cbv zeta in *. rewrite Heq.
  set (e := ilog2 q) in *.
  set (m := round_half_even (q * 2 ^ (52 - e))) in *.
  set (E := 2 ^ (e - 52)).
  assert (HE : 0 < E) by apply two_pos.
  assert (HEe : E * 2 ^ 52 == 2 ^ e).
  { unfold E. rewrite <- Qpower_plus by apply two_nz.
    replace (e - 52 + 52)%Z with e by lia. reflexivity. }
  assert (Hinv : 2 ^ (52 - e) * E == 1) by apply pow_inv.
  (* |m E - q| <= E / 2 and E <= q 2^-52 *)
  assert (Ha : inject_Z m * E - q <= E * (1 # 2)).
  { setoid_replace (inject_Z m * E - q)
      with ((inject_Z m - q * 2 ^ (52 - e)) * E).
    - rewrite (Qmult_comm E). apply Qmult_le_compat_r; [assumption | lra].
    - setoid_replace q with (q * (2 ^ (52 - e) * E)) at 1.
      + ring.
      + rewrite Hinv. ring. }
  assert (Hb : q - inject_Z m * E <= E * (1 # 2)).
  { setoid_replace (q - inject_Z m * E)
      with ((q * 2 ^ (52 - e) - inject_Z m) * E).
    - rewrite (Qmult_comm E). apply Qmult_le_compat_r; [assumption | lra].
    - setoid_replace q with (q * (2 ^ (52 - e) * E)) at 1.
      + ring.
      + rewrite Hinv. ring. }
  assert (Hc : E * 4503599627370496 <= q).
  { change 4503599627370496 with (2 ^ 52). rewrite HEe. assumption. }
  split; lra.
Qed.

Lemma float_round_pos_exact (q : Q) (n : Z) :
  q == inject_Z n -> (0 < n < 2 ^ 53)%Z -> float_round_pos q == inject_Z n.
Proof.
  intros Hq Hn.
  assert (Hpos : 0 < q).
  { rewrite Hq. change 0 with (inject_Z 0). rewrite <- Zlt_Qlt. lia. }
  destruct (ilog2_spec q Hpos) as [H1 _].
  assert (He : (ilog2 q < 53)%Z).
  { apply Qpower_lt_compat_l_inv with (q := 2); [| reflexivity].
    apply Qle_lt_trans with q; [assumption|].
    rewrite Hq. rewrite <- inject_pow2 by lia. rewrite <- Zlt_Qlt. lia. }
  unfold float_round_pos. set (e := ilog2 q) in *.
  assert (Hm : round_half_even (q * 2 ^ (52 - e)) = (n * 2 ^ (52 - e))%Z).
  { apply round_half_even_Z. rewrite inject_Z_mult, inject_pow2 by lia.
    rewrite Hq. reflexivity. }
  rewrite Hm, inject_Z_mult, inject_pow2 by lia.
  rewrite <- Qmult_assoc, pow_inv. ring.
Qed.

Lemma int_of_Q_floor (r : Q) (k : Z) :
  (0 <= k)%Z -> inject_Z k <= r -> r < inject_Z (k + 1) -> int_of_Q r = k.
Proof.
  intros Hk H1 H2.
  assert (Hf : Qfloor r = k).
  { pose proof (Qfloor_resp_le _ _ H1) as Ha. rewrite Qfloor_Z in Ha.
    pose proof (Qfloor_le r) as Hb.
    assert (Hc : inject_Z (Qfloor r) < inject_Z (k + 1))
      by (eapply Qle_lt_trans; eassumption).
    rewrite <- Zlt_Qlt in Hc. lia. }
  assert (Hn : (0 <= Qnum r)%Z).
  { assert (H0 : 0 <= r).
    { apply Qle_trans with (inject_Z k); [| assumption].
      change 0 with (inject_Z 0). rewrite <- Zle_Qle. assumption. }
    destruct r as [n d]. unfold Qle in H0. cbn in *. lia. }
  unfold int_of_Q. rewrite Z.quot_div_nonneg by (try assumption; reflexivity).
  destruct r as [n d]. exact Hf.
Qed.

Lemma float_round_gt (q : Q) : 0 < q -> float_round q = float_round_pos q.
Proof.
  intro H. unfold float_round.
  assert (Hc : Qcompare q 0 = Gt) by (apply (proj1 (Qgt_alt _ _)); assumption).
  rewrite Hc. reflexivity.
Qed.

Lemma float_round_lt (q : Q) :
  q < 0 -> float_round q = - float_round_pos (- q).
Proof.
  intro H. unfold float_round.
  assert (Hc : Qcompare q 0 = Lt) by (apply (proj1 (Qlt_alt _ _)); assumption).
  rewrite Hc. reflexivity.
Qed.

Local Open Scope Z_scope.

(** The minutes of a span of [u] microseconds, for [0 < u < 2^52]. *)
Lemma float_minutes_pos (u : Z) :
  0 < u < 2 ^ 52 ->
  (0 < float_round_pos (u # 1000000))%Q
  /\ float_minutes u = int_of_Q (float_round_pos
                         (float_round_pos (u # 1000000) / (60 # 1)))
  /\ float_minutes u = u / 60000000.
Proof.
  intro Hu.
  set (x := u # 1000000).
  assert (Hx : (x * 1000000 == inject_Z u)%Q).
  { unfold x. rewrite (Qmake_Qdiv u 1000000). field. }
  assert (Hx0 : (0 < x)%Q).
  { unfold x, Qlt. cbn. lia. }
  destruct (float_round_pos_error x Hx0) as [Hs1 Hs2].
  set (s := float_round_pos x) in *.
  assert (Hs0 : (0 < s)%Q) by lra.
  set (y := (s / (60 # 1))%Q).
  assert (Hy : (y * 60 == s)%Q) by (unfold y; field).
  assert (Hy0 : (0 < y)%Q) by lra.
  destruct (float_round_pos_error y Hy0) as [Hr1 Hr2].
  set (r := float_round_pos y) in *.
  assert (Hd : float_minutes u = int_of_Q r).
  { unfold float_minutes, float_div, true_divide.
    change (Z.to_pos 1000000) with 1000000%positive. fold x.
    rewrite (float_round_gt x Hx0). fold s. fold y.
    rewrite (float_round_gt y Hy0). reflexivity. }
  split; [assumption|]. split; [exact Hd|].
  rewrite Hd.
  set (k := u / 60000000). set (f := u mod 60000000).
  assert (Hdiv : u = 60000000 * k + f) by (apply Z.div_mod; lia).
  assert (Hf : 0 <= f < 60000000) by (apply Z.mod_pos_bound; lia).
  assert (Hk : 0 <= k) by (apply Z.div_pos; lia).
  assert (Qu : (inject_Z u == 60000000 * inject_Z k + inject_Z f)%Q).
  { rewrite Hdiv, inject_Z_plus, inject_Z_mult. reflexivity. }
  assert (Qk : (0 <= inject_Z k)%Q).
  { change 0%Q with (inject_Z 0). rewrite <- Zle_Qle. assumption. }
  assert (Qub : (inject_Z u <= 4503599627370495)%Q).
  { change 4503599627370495%Q with (inject_Z 4503599627370495).
    rewrite <- Zle_Qle. lia. }
  destruct (Z.eq_dec f 0) as [Hf0 | Hf0].
  - (* whole minutes: both roundings are exact *)
    assert (Hk0 : 0 < k) by lia.
    assert (Hsx : (s == inject_Z (60 * k))%Q).
    { apply float_round_pos_exact; [| lia].
      rewrite inject_Z_mult. rewrite Hf0 in Qu.
      change (inject_Z 0) with 0%Q in Qu. change (inject_Z 60) with 60%Q.
      lra. }
    assert (Hrx : (r == inject_Z k)%Q).
    { apply float_round_pos_exact; [| lia].
      rewrite inject_Z_mult in Hsx. change (inject_Z 60) with 60%Q in Hsx.
      lra. }
    apply int_of_Q_floor; [assumption | rewrite Hrx; apply Qle_refl |].
    rewrite Hrx, <- Zlt_Qlt. lia.
  - assert (Qf1 : (1 <= inject_Z f)%Q).
    { change 1%Q with (inject_Z 1). rewrite <- Zle_Qle. lia. }
    assert (Qf2 : (inject_Z f <= 59999999)%Q).
    { change 59999999%Q with (inject_Z 59999999). rewrite <- Zle_Qle. lia. }
    apply int_of_Q_floor; [assumption | |].
    + lra.
    + rewrite inject_Z_plus. change (inject_Z 1) with 1%Q. lra.
Qed.

Lemma Qopp_opp_mult (s c : Q) : (- (- s * c))%Q = (s * c)%Q.
Proof.
  destruct s as [sn sd], c as [cn cd]. unfold Qopp, Qmult. cbn [Qnum Qden].
  f_equal. ring.
Qed.

Lemma float_minutes_opp (u : Z) : 0 < u < 2 ^ 52 -> float_minutes (- u) = - float_minutes u.
Proof.
  intro Hu. destruct (float_minutes_pos u Hu) as (Hs0 & Hd & _). rewrite Hd.
  set (x := u # 1000000) in *. set (s := float_round_pos x) in *.
  unfold float_minutes, float_div, true_divide.
  change (Z.to_pos 1000000) with 1000000%positive.
  assert (Hneg : (- u # 1000000 < 0)%Q) by (unfold Qlt; cbn; lia).
  rewrite (float_round_lt _ Hneg).
  assert (Hxx : (- (- u # 1000000))%Q = x).
  { unfold Qopp, x. cbn [Qnum Qden]. rewrite Z.opp_involutive. reflexivity. }
  rewrite Hxx. fold s.
  assert (Hneg2 : (- s / (60 # 1) < 0)%Q).
  { assert (H : (- s / (60 # 1) * 60 == - s)%Q) by field. lra. }
  rewrite (float_round_lt _ Hneg2).
  unfold Qdiv at 1. rewrite Qopp_opp_mult. fold (Qdiv s (60 # 1)).
  unfold int_of_Q. cbn [Qopp Qnum Qden]. apply Z.quot_opp_l. discriminate.
Qed.

(** For spans shorter than 2^52 microseconds the float computation gives
    the whole minutes truncated toward zero. *)
Lemma float_minutes_truncates (u : Z) :
  Z.abs u < 2 ^ 52 -> float_minutes u = Z.quot u 60000000.
Proof.
  intro Hu.
  destruct (Z.lt_trichotomy u 0) as [Hn | [H0 | Hp]].
  - replace u with (- (- u)) by lia.
    rewrite float_minutes_opp by lia. destruct (float_minutes_pos (- u)) as (_ & _ & H); [lia|].
    rewrite H, Z.quot_opp_l by discriminate.
    rewrite Z.quot_div_nonneg by lia. reflexivity.
  - subst u. reflexivity.
  - destruct (float_minutes_pos u) as (_ & _ & H); [lia|].
    rewrite H, Z.quot_div_nonneg by lia. reflexivity.
Qed.

End FloatFacts.

(* ================================================================== *)
(** * The field checks of the event serializers                      *)
(* ================================================================== *)

Module FieldFacts.

Lemma bind_Ok {A B} (r : result A) (k : A -> result B) v :
  bind r k = Ok v -> exists a, r = Ok a /\ k a = Ok v.
Proof. destruct r as [a|e]; cbn [bind]; [eauto | discriminate]. Qed.

Lemma bind_raises_validation {A B} (r : result A) (k : A -> result B) :
  raises_validation r -> (forall a, raises_validation (k a)) ->
  raises_validation (bind r k).
Proof.
  intros Hr Hk ex. destruct r as [a|e]; cbn [bind].
  - apply Hk.
  - intros [= <-]. apply Hr. reflexivity.
Qed.

Lemma ret_raises_validation {A} (a : A) : raises_validation (ret a).
Proof. intros ex H. discriminate H. Qed.

Lemma invalid_raises_validation {A} field msg :
  raises_validation (@invalid A field msg).
Proof. intros ex [= <-]. eauto. Qed.

Lemma char_field_Ok field allow_blank max_length v r :
  char_field field allow_blank max_length v = Ok r -> r = strip v.
Proof.
  unfold char_field, char_validators, invalid, ret.
  destruct (String.eqb_spec (strip v) EmptyString) as [E | E].
  - destruct allow_blank; [|discriminate]. intros [= <-]. symmetry. exact E.
  - destruct (match max_length with Some n => n <? len (strip v)
                                  | None => false end); [discriminate|].
    destruct (has_null (strip v)); [discriminate|]. intros [= <-]. reflexivity.
Qed.

Lemma char_field_raises field allow_blank max_length v :
  raises_validation (char_field field allow_blank max_length v).
Proof.
  unfold char_field, char_validators.
  repeat match goal with
         | |- context [if ?b then _ else _] => destruct b
         end;
    first [apply ret_raises_validation | apply invalid_raises_validation].
Qed.

Lemma check_title_Ok partial t r :
  check_title partial t = Ok r ->
  r = option_map strip t /\ (partial = false -> t <> None).
Proof.
  unfold check_title. destruct t as [t|].
  - intros H. apply bind_Ok in H as (a & Ha & H). injection H as <-.
    apply char_field_Ok in Ha. subst a. split; [reflexivity | discriminate].
  - destruct partial; [|discriminate]. intros [= <-].
    split; [reflexivity | discriminate].
Qed.

Lemma check_title_raises partial t : raises_validation (check_title partial t).
Proof.
  unfold check_title. destruct t as [t|].
  - apply bind_raises_validation; [apply char_field_raises|].
    intros a. apply ret_raises_validation.
  - destruct partial;
      [apply ret_raises_validation | apply invalid_raises_validation].
Qed.

Lemma check_required_Ok {A} field partial (x r : option A) :
  check_required field partial x = Ok r ->
  r = x /\ (partial = false -> x <> None).
Proof.
  unfold check_required, invalid, ret. destruct x as [a|].
  - intros [= <-]. split; [reflexivity | discriminate].
  - destruct partial; [|discriminate]. intros [= <-].
    split; [reflexivity | discriminate].
Qed.

Lemma check_required_raises {A} field partial (x : option A) :
  raises_validation (check_required field partial x).
Proof.
  unfold check_required. destruct x; [apply ret_raises_validation|].
  destruct partial;
    [apply ret_raises_validation | apply invalid_raises_validation].
Qed.

Lemma check_choice_Ok field choices x r :
  check_choice field choices x = Ok r -> r = x.
Proof.
  unfold check_choice, invalid, ret. destruct x as [v|]; [|congruence].
  destruct (str_in v choices); congruence.
Qed.

Lemma check_choice_raises field choices x :
  raises_validation (check_choice field choices x).
Proof.
  unfold check_choice. destruct x as [v|]; [|apply ret_raises_validation].
  destruct (str_in v choices);
    [apply ret_raises_validation | apply invalid_raises_validation].
Qed.

Lemma check_char_Ok field max_length x r :
  check_char field max_length x = Ok r -> r = option_map strip x.
Proof.
  unfold check_char. destruct x as [v|]; [|intros [= <-]; reflexivity].
  intros H. apply bind_Ok in H as (a & Ha & H). injection H as <-.
  apply char_field_Ok in Ha. subst a. reflexivity.
Qed.

Lemma check_char_raises field max_length x :
  raises_validation (check_char field max_length x).
Proof.
  unfold check_char. destruct x as [v|]; [|apply ret_raises_validation].
  apply bind_raises_validation; [apply char_field_raises|].
  intros a. apply ret_raises_validation.
Qed.

Lemma check_char_null_Ok field max_length x r :
  check_char_null field max_length x = Ok r ->
  r = option_map (option_map strip) x.
Proof.
  unfold check_char_null. destruct x as [[v|]|]; try (intros [= <-]; reflexivity).
  intros H. apply bind_Ok in H as (a & Ha & H). injection H as <-.
  apply char_field_Ok in Ha. subst a. reflexivity.
Qed.

Lemma check_char_null_raises field max_length x :
  raises_validation (check_char_null field max_length x).
Proof.
  unfold check_char_null.
  destruct x as [[v|]|]; try apply ret_raises_validation.
  apply bind_raises_validation; [apply char_field_raises|].
  intros a. apply ret_raises_validation.
Qed.

Lemma check_integer_Ok field x r :
  check_integer field x = Ok r -> r = x.
Proof.
  unfold check_integer, invalid, ret. destruct x as [[n|]|]; try congruence.
  destruct (2147483647 <? n); [discriminate|].
  destruct (n <? -2147483648); congruence.
Qed.

Lemma check_integer_raises field x :
  raises_validation (check_integer field x).
Proof.
  unfold check_integer. destruct x as [[n|]|]; try apply ret_raises_validation.
  destruct (2147483647 <? n); [apply invalid_raises_validation|].
  destruct (n <? -2147483648);
    [apply invalid_raises_validation | apply ret_raises_validation].
Qed.

Lemma check_attendees_Ok s x r :
  check_attendees s x = Ok r ->
  r = x /\ (forall ids i, x = Some ids -> In i ids ->
                          exists u, find_user i s = Some u).
Proof.
  unfold check_attendees, invalid_pk, invalid, ret.
  destruct x as [ids|]; [|intros [= <-]; split; [reflexivity | discriminate]].
  destruct (find _ ids) as [i|] eqn:Hf; [discriminate|].
  intros [= <-]. split; [reflexivity|].
  intros ids' i [= <-] Hi. pose proof (find_none _ _ Hf i Hi) as H.
  cbv beta in H. destruct (find_user i s) as [u|]; [eauto | discriminate].
Qed.

Lemma check_attendees_raises s x : raises_validation (check_attendees s x).
Proof.
  unfold check_attendees, invalid_pk.
  destruct x as [ids|]; [|apply ret_raises_validation].
  destruct (find _ ids);
    [apply invalid_raises_validation | apply ret_raises_validation].
Qed.

Lemma check_links_Ok s w d r :
  check_links s w d = Ok r ->
  r = (d_attendees d, d_task_id d, d_meeting_id d)
  /\ check_attendees s (d_attendees d) = Ok (d_attendees d).
Proof.
  unfold check_links. destruct w; intros H.
  - apply bind_Ok in H as (a & Ha & H). apply bind_Ok in H as (t & Ht & H).
    apply bind_Ok in H as (m & Hm & H). injection H as <-.
    apply check_integer_Ok in Ht, Hm. subst t m.
    destruct (check_attendees_Ok _ _ _ Ha) as [-> _]. auto.
  - apply bind_Ok in H as (t & Ht & H). apply bind_Ok in H as (m & Hm & H).
    apply bind_Ok in H as (a & Ha & H). injection H as <-.
    apply check_integer_Ok in Ht, Hm. subst t m.
    destruct (check_attendees_Ok _ _ _ Ha) as [-> _]. auto.
Qed.

Lemma check_links_raises s w d : raises_validation (check_links s w d).
Proof.
  unfold check_links. destruct w;
    repeat (apply bind_raises_validation;
            [first [apply check_attendees_raises | apply check_integer_raises]
            | intros ?]);
    apply ret_raises_validation.
Qed.

(** What the field checks return when they pass: the body as sent with
    the four texts trimmed, [is_completed] kept only by the serializer
    that lists it, and the two read-only fields dropped; the required
    fields are there unless the update is partial, and the attendees
    exist. *)
Lemma run_field_validation_result s partial w d v :
  run_field_validation s partial w d = Ok v ->
  v = validated w d
  /\ (partial = false ->
      d_title d <> None /\ d_start_datetime d <> None
      /\ d_end_datetime d <> None)
  /\ check_attendees s (d_attendees d) = Ok (d_attendees d).
Proof.
  unfold run_field_validation. intros H.
  apply bind_Ok in H as (t & Ht & H). apply check_title_Ok in Ht as [-> Ht].
  apply bind_Ok in H as (de & Hde & H). apply check_char_null_Ok in Hde as ->.
  apply bind_Ok in H as (et & Het & H). apply check_choice_Ok in Het as ->.
  apply bind_Ok in H as (st & Hst & H).
  apply check_required_Ok in Hst as [-> Hst].
  apply bind_Ok in H as (en & Hen & H).
  apply check_required_Ok in Hen as [-> Hen].
  apply bind_Ok in H as (li & Hli & H). apply check_links_Ok in Hli as [-> Ha].
  apply bind_Ok in H as (lo & Hlo & H). apply check_char_null_Ok in Hlo as ->.
  apply bind_Ok in H as (cc & Hcc & H). apply check_char_Ok in Hcc as ->.
  apply bind_Ok in H as (pr & Hpr & H). apply check_choice_Ok in Hpr as ->.
  apply bind_Ok in H as (rm & Hrm & H). apply check_integer_Ok in Hrm as ->.
  injection H as <-. cbn [fst snd]. split; [reflexivity|]. split; [|exact Ha].
  intros Hp. auto.
Qed.

Lemma run_field_validation_raises s partial w d :
  raises_validation (run_field_validation s partial w d).
Proof.
  unfold run_field_validation.
  repeat (apply bind_raises_validation;
          [first [apply check_title_raises | apply check_char_null_raises
                 | apply check_choice_raises | apply check_required_raises
                 | apply check_links_raises | apply check_char_raises
                 | apply check_integer_raises]
          | intros ?]).
  apply ret_raises_validation.
Qed.

End FieldFacts.

(* ================================================================== *)
(** * The event store: range check and duration                       *)
(* ================================================================== *)

Module EventStore.

Import QuerysetFacts Fixtures.

Lemma td_total_new_timedelta d s us :
  td_total_microseconds (new_timedelta d s us)
  = (d * 86400 + s) * 1000000 + us.
Proof.
  unfold new_timedelta, divmod, td_total_microseconds.
  cbn [td_days td_seconds td_microseconds].
  Z.div_mod_to_equations. lia.
Qed.

Lemma datetime_diff_total a b :
  td_total_microseconds (datetime_diff a b) = instant a - instant b.
Proof.
  unfold datetime_diff. rewrite td_total_new_timedelta. unfold instant. lia.
Qed.

Lemma compute_duration_float e :
  compute_duration e = float_minutes (span_microseconds e).
Proof.
  unfold compute_duration, total_seconds, float_minutes, span_microseconds.
  rewrite datetime_diff_total. reflexivity.
Qed.

Lemma duration_float a b :
  int_of_Q (float_div (total_seconds (datetime_diff a b)) (60 # 1))
  = float_minutes (instant a - instant b).
Proof.
  unfold total_seconds, float_minutes. rewrite datetime_diff_total.
  reflexivity.
Qed.

Lemma compute_duration_quot e :
  Z.abs (span_microseconds e) < 2 ^ 52 ->
  compute_duration e = Z.quot (span_microseconds e) 60000000.
Proof.
  intros H. rewrite compute_duration_float.
  apply FloatFacts.float_minutes_truncates. exact H.
Qed.

Lemma compute_duration_floor e :
  0 <= span_microseconds e < 2 ^ 52 ->
  compute_duration e = span_microseconds e / 60000000.
Proof.
  intros H. rewrite compute_duration_quot by lia.
  apply Z.quot_div_nonneg; lia.
Qed.

Lemma In_replace_event e l :
  (exists x, In x l /\ id x = id e) -> In e (replace_event e l).
Proof.
  induction l as [|y l IH]; cbn [replace_event In]; intros (x & Hx & Hid).
  - contradiction.
  - destruct (Z.eqb_spec (id y) (id e)) as [E | E]; cbn [In]; [auto|].
    right. apply IH. destruct Hx as [-> | Hx]; [congruence|]. eauto.
Qed.

Lemma compute_duration_unfold e :
  compute_duration e
  = int_of_Q (float_div
                (total_seconds
                   (datetime_diff (end_datetime e) (start_datetime e)))
                (60 # 1)).
Proof. reflexivity. Qed.

Lemma compute_duration_ext e e' :
  start_datetime e' = start_datetime e -> end_datetime e' = end_datetime e ->
  compute_duration e' = compute_duration e.
Proof. intros Hs He. unfold compute_duration. rewrite Hs, He. reflexivity. Qed.

Lemma save_duration now fresh e s :
  let e' := fst (save now fresh e s) in
  duration_minutes e' = Some (compute_duration e')
  /\ start_datetime e' = start_datetime e
  /\ end_datetime e' = end_datetime e
  /\ (fresh = false -> id e' = id e).
Proof.
  destruct e. unfold save, pre_save.
  destruct fresh;
    cbn [fst with_created_at with_id with_updated_at with_duration
           duration_minutes start_datetime end_datetime id];
    (split; [apply (f_equal Some); symmetry; apply compute_duration_ext;
             reflexivity|]);
    repeat split; try reflexivity; intros; discriminate.
Qed.

Lemma save_stored now fresh e s :
  fresh = true \/ (exists x, In x (events s) /\ id x = id e) ->
  In (fst (save now fresh e s)) (events (snd (save now fresh e s))).
Proof.
  unfold save. destruct fresh; cbn [fst snd events set_events].
  - intros _. apply in_or_app. right. cbn [In]. auto.
  - intros [H | H]; [discriminate|]. apply In_replace_event. exact H.
Qed.

Lemma save_other_tables now fresh e s :
  let s' := snd (save now fresh e s) in
  users s' = users s /\ event_attendees s' = event_attendees s
  /\ reminders s' = reminders s /\ reset_tokens s' = reset_tokens s.
Proof. unfold save. destruct fresh; cbn; auto. Qed.

Lemma attendees_add_other_tables ev uid s :
  let s' := attendees_add ev uid s in
  users s' = users s /\ events s' = events s
  /\ reminders s' = reminders s /\ reset_tokens s' = reset_tokens s.
Proof. unfold attendees_add. destruct (is_attendee ev uid s); cbn; auto. Qed.

Lemma attendees_set_other_tables ev ids s :
  let s' := attendees_set ev ids s in
  users s' = users s /\ events s' = events s
  /\ reminders s' = reminders s /\ reset_tokens s' = reset_tokens s.
Proof.
  unfold attendees_set.
  set (s0 := set_event_attendees s _).
  assert (H0 : users s0 = users s /\ events s0 = events s
               /\ reminders s0 = reminders s
               /\ reset_tokens s0 = reset_tokens s) by (cbn; auto).
  clearbody s0. revert s0 H0.
  induction ids as [|i ids IH]; cbn [fold_left]; intros s0 H0; [exact H0|].
  apply IH.
  destruct (attendees_add_other_tables ev i s0) as (-> & -> & -> & ->).
  exact H0.
Qed.

Lemma attendees_add_next_ids ev uid s :
  next_event_id (attendees_add ev uid s) = next_event_id s
  /\ next_reminder_id (attendees_add ev uid s) = next_reminder_id s.
Proof.
  unfold attendees_add. destruct (is_attendee ev uid s); destruct s; cbn; auto.
Qed.

Lemma attendees_set_next_ids ev ids s :
  next_event_id (attendees_set ev ids s) = next_event_id s
  /\ next_reminder_id (attendees_set ev ids s) = next_reminder_id s.
Proof.
  unfold attendees_set.
  set (s0 := set_event_attendees s _).
  assert (H0 : next_event_id s0 = next_event_id s
               /\ next_reminder_id s0 = next_reminder_id s)
    by (destruct s; cbn; auto).
  clearbody s0. revert s0 H0.
  induction ids as [|i ids IH]; cbn [fold_left]; intros s0 H0; [exact H0|].
  apply IH. destruct (attendees_add_next_ids ev i s0) as (-> & ->). exact H0.
Qed.

Lemma save_next_reminder_id now fresh e s :
  next_reminder_id (snd (save now fresh e s)) = next_reminder_id s.
Proof. unfold save. destruct fresh; destruct s; reflexivity. Qed.

Lemma create_stores_duration now user d s resp s' :
  create now user d s = (Ok resp, s') -> stores_duration resp s'.
Proof.
  rewrite create_unfold.
  destruct (CalendarEventCreateSerializer_is_valid s false d) as [v|ex];
    [|discriminate].
  unfold serializer_create.
  destruct (new_instance now (user_id user) v) as [inst|ex]; [|discriminate].
  pose proof (save_duration now true inst s) as (Hd & _).
  pose proof (save_stored now true inst s (or_introl eq_refl)) as Hin.
  destruct (save now true inst s) as [e s1]. cbn [fst snd] in Hd, Hin. rewrite compute_duration_unfold in Hd.
  destruct (d_attendees v) as [ids|]; intros [= <- <-]; exists e;
    cbn [data]; (split; [reflexivity|]); (split; [|exact Hd]).
  - destruct (attendees_set_other_tables (id e) ids s1) as (_ & -> & _).
    exact Hin.
  - exact Hin.
Qed.

Lemma get_object_In lib user q pk s e :
  get_object lib user q pk s = Ok e -> In e (events s) /\ id e = pk.
Proof.
  unfold get_object.
  destruct (get_queryset lib user q s) as [qs|ex] eqn:Hqs; [|discriminate].
  cbn [bind]. destruct (find_event pk _) as [x|] eqn:Hf; [|discriminate].
  intros [= ->]. apply Attendees.find_event_Some in Hf as [Hin Hid].
  apply Attendees.filter_queryset_In in Hin as [Hin _].
  destruct (get_queryset_sound lib user q s qs Hqs) as [_ Hvis].
  split; [apply Hvis; exact Hin | exact Hid].
Qed.

Lemma update_stores_duration lib now user q partial pk d s resp s' :
  update lib now user q partial pk d s = (Ok resp, s') ->
  stores_duration resp s'.
Proof.
  rewrite update_unfold.
  destruct (get_object lib user q pk s) as [inst|ex] eqn:Hobj; [|discriminate].
  destruct (CalendarEventSerializer_is_valid s partial d) as [v|ex];
    [|discriminate].
  unfold serializer_update.
  apply get_object_In in Hobj as [Hinst _].
  pose proof (save_duration now false (set_attrs inst v) s) as (Hd & _).
  assert (Hin : In (fst (save now false (set_attrs inst v) s))
                  (events (snd (save now false (set_attrs inst v) s)))).
  { apply save_stored. right. exists inst. split; [exact Hinst | reflexivity]. }
  destruct (save now false (set_attrs inst v) s) as [e s1].
  cbn [fst snd] in Hd, Hin. rewrite compute_duration_unfold in Hd.
  destruct (d_attendees v) as [ids|]; intros [= <- <-]; exists e;
    cbn [data]; (split; [reflexivity|]); (split; [|exact Hd]).
  - destruct (attendees_set_other_tables (id e) ids s1) as (_ & -> & _).
    exact Hin.
  - exact Hin.
Qed.

Lemma field_validation_ignores_client_duration s partial w d x :
  run_field_validation s partial w (with_client_duration d x)
  = run_field_validation s partial w d.
Proof. reflexivity. Qed.

(** Claim C3, as amended.  Every create and every update that succeeds
    answers with the saved event, which is in the store and whose
    [duration_minutes] is [int((end - start).total_seconds() / 60)] as
    Python computes it, in floats.  For a span of less than [2 ^ 52]
    microseconds (some 142 years) either way this is the span in whole
    minutes truncated toward zero, which is the floor when the end is
    not before the start.  A [duration_minutes] sent by the client
    changes nothing. *)
Theorem duration_truncated_on_every_write :
  (forall now user d s resp s',
      create now user d s = (Ok resp, s') -> stores_duration resp s')
  /\ (forall lib now user q partial pk d s resp s',
        update lib now user q partial pk d s = (Ok resp, s') ->
        stores_duration resp s')
  /\ (forall a b,
        Z.abs (instant a - instant b) < 2 ^ 52 ->
        int_of_Q (float_div (total_seconds (datetime_diff a b)) (60 # 1))
        = Z.quot (instant a - instant b) 60000000)
  /\ (forall a b,
        0 <= instant a - instant b < 2 ^ 52 ->
        int_of_Q (float_div (total_seconds (datetime_diff a b)) (60 # 1))
        = (instant a - instant b) / 60000000)
  /\ (forall now user d s x,
        create now user (with_client_duration d x) s = create now user d s)
  /\ (forall lib now user q partial pk d s x,
        update lib now user q partial pk (with_client_duration d x) s
        = update lib now user q partial pk d s).
Proof.
  split; [exact create_stores_duration|].
  split; [exact update_stores_duration|].
  split.
  { intros a b H. rewrite duration_float.
    apply FloatFacts.float_minutes_truncates. exact H. }
  split.
  { intros a b H. rewrite duration_float.
    rewrite FloatFacts.float_minutes_truncates by lia.
    apply Z.quot_div_nonneg; lia. }
  split; reflexivity.
Qed.

Lemma duration_truncated_witness :
  (Z.abs (instant (at_ 2025 1 1 11 30 45 0) - instant (at_ 2025 1 1 10 0 0 0))
   < 2 ^ 52)
  /\ exists resp s',
      create now0 alice
        (data0 (at_ 2025 1 1 10 0 0 0) (at_ 2025 1 1 11 30 45 0)) empty_store
      = (Ok resp, s')
      /\ stores_duration resp s'
      /\ map duration_minutes (events s') = [Some 90]
      /\ int_of_Q (float_div
                     (total_seconds
                        (datetime_diff (at_ 2025 1 1 11 30 45 0)
                           (at_ 2025 1 1 10 0 0 0))) (60 # 1))
         = Z.quot (instant (at_ 2025 1 1 11 30 45 0)
                   - instant (at_ 2025 1 1 10 0 0 0)) 60000000.
Proof.
  assert (Hs : Z.abs (instant (at_ 2025 1 1 11 30 45 0)
                      - instant (at_ 2025 1 1 10 0 0 0)) < 2 ^ 52)
    by (vm_compute; reflexivity).
  split; [exact Hs|].
  eexists. eexists. split; [vm_compute; reflexivity|]. split; [| split].
  - apply (proj1 duration_truncated_on_every_write now0 alice
             (data0 (at_ 2025 1 1 10 0 0 0) (at_ 2025 1 1 11 30 45 0))
             empty_store).
    vm_compute. reflexivity.
  - reflexivity.
  - apply (proj1 (proj2 (proj2 duration_truncated_on_every_write))
             (at_ 2025 1 1 11 30 45 0) (at_ 2025 1 1 10 0 0 0) Hs).
Defined.

(** A span of minus ninety seconds is stored as -1 minute; its floor is
    -2 minutes.  A span of a thousand years less one microsecond before
    the full minute is stored as 525948481 minutes; its floor is
    525948480: the division in floats rounds up to the whole minute. *)
Lemma duration_is_not_the_floor :
  (exists resp s' e,
      create now0 alice
        (data0 (at_ 2025 1 1 10 0 0 0) (at_ 2025 1 1 9 58 30 0)) empty_store
      = (Ok resp, s')
      /\ events s' = [e]
      /\ duration_minutes e = Some (-1)
      /\ span_microseconds e / 60000000 = -2)
  /\ (exists resp s' e,
        create now0 alice
          (data0 (at_ 1000 1 1 0 0 0 0) (at_ 2000 1 1 0 0 59 999999))
          empty_store
        = (Ok resp, s')
        /\ events s' = [e]
        /\ duration_minutes e = Some 525948481
        /\ span_microseconds e / 60000000 = 525948480).
Proof.
  split.
  - eexists. eexists. eexists. split; [vm_compute; reflexivity|].
    split; [reflexivity|]. split; vm_compute; reflexivity.
  - eexists. eexists. eexists. split; [vm_compute; reflexivity|].
    split; [reflexivity|]. split; vm_compute; reflexivity.
Qed.

(** ** The range check *)

Lemma run_field_validation_keeps_range s partial w d v :
  run_field_validation s partial w d = Ok v ->
  (forall st, d_start_datetime d = Some st -> d_start_datetime v = Some st)
  /\ (forall en, d_end_datetime d = Some en -> d_end_datetime v = Some en).
Proof.
  intros H. apply FieldFacts.run_field_validation_result in H as [-> _].
  cbn [validated d_start_datetime d_end_datetime]. auto.
Qed.

(** The update path rejects an inverted or empty range when both
    datetimes are in the body, and writes nothing. *)
Lemma update_rejects_inverted_range lib now user q partial pk d s inst st en :
  get_object lib user q pk s = Ok inst ->
  d_start_datetime d = Some st -> d_end_datetime d = Some en ->
  instant en <= instant st ->
  exists field msg,
    update lib now user q partial pk d s
    = (Raise (ValidationError field msg), s)
    /\ dispatch lib now user q
         (if partial then EventsPartialUpdate pk d else EventsUpdate pk d) s
       = (Ok (mk_Response HTTP_400_BAD_REQUEST (ErrorBody field msg)), s).
Proof.
  intros Hobj Hst Hen Hle.
  assert (H : exists field msg,
             update lib now user q partial pk d s
             = (Raise (ValidationError field msg), s)).
  { rewrite update_unfold, Hobj. unfold CalendarEventSerializer_is_valid.
    destruct (run_field_validation s partial true d) as [v|ex] eqn:Hv;
      cbn [bind].
    - destruct (run_field_validation_keeps_range _ _ _ _ _ Hv) as [Hs He].
      unfold CalendarEventSerializer_validate.
      rewrite (Hs st Hst), (He en Hen). unfold datetime_leb.
      destruct (Z.leb_spec (instant en) (instant st)); [|lia].
      eexists. eexists. reflexivity.
    - destruct (FieldFacts.run_field_validation_raises _ _ _ _ _ Hv)
        as (field & msg & ->).
      eexists. eexists. reflexivity. }
  destruct H as (field & msg & H). exists field, msg. split; [exact H|].
  unfold dispatch. destruct partial; cbn [route]; rewrite H; reflexivity.
Qed.

(** The create path accepts every body that passes the field checks,
    whatever the order of the two datetimes. *)
Lemma create_accepts_any_range now user d s v :
  CalendarEventCreateSerializer_is_valid s false d = Ok v ->
  exists resp s',
    create now user d s = (Ok resp, s') /\ status resp = HTTP_201_CREATED.
Proof.
  intros Hv. rewrite create_unfold, Hv. unfold serializer_create.
  assert (Hi : exists inst, new_instance now (user_id user) v = Ok inst).
  { unfold CalendarEventCreateSerializer_is_valid in Hv.
    apply FieldFacts.run_field_validation_result in Hv
      as (-> & Hreq & _).
    destruct (Hreq eq_refl) as (Ht & Hs & He).
    unfold new_instance. cbn [validated d_title d_start_datetime
                                d_end_datetime].
    destruct (d_title d); [|contradiction].
    destruct (d_start_datetime d); [|contradiction].
    destruct (d_end_datetime d); [|contradiction].
    cbn [option_map]. eexists. reflexivity. }
  destruct Hi as [inst ->].
  destruct (save now true inst s) as [e s1].
  destruct (d_attendees v); eexists; eexists; split; reflexivity.
Qed.

(** Claim C1, evaluated where it fails.  A create request whose end is
    one hour before its start is answered 201 and the event is stored,
    although the model's own [clean] rejects it. *)
Theorem create_persists_inverted_range :
  exists e s',
    dispatch lib0 now0 alice no_params
      (EventsCreate (data0 (at_ 2025 1 1 10 0 0 0) (at_ 2025 1 1 9 0 0 0)))
      empty_store
    = (Ok (mk_Response HTTP_201_CREATED (EventCreated e [])), s')
    /\ events s' = [e]
    /\ start_datetime e = at_ 2025 1 1 10 0 0 0
    /\ end_datetime e = at_ 2025 1 1 9 0 0 0
    /\ datetime_leb (end_datetime e) (start_datetime e) = true
    /\ clean e
       = Raise (DjangoValidationError "End time must be after start time").
Proof.
  eexists. eexists. split; [vm_compute; reflexivity|].
  repeat split; vm_compute; reflexivity.
Qed.

End EventStore.

(* ================================================================== *)
(** * Password reset                                                  *)
(* ================================================================== *)

Module PasswordReset.

Import Fixtures.

Lemma is_expired_iff now t :
  is_expired now t = true <-> instant (expires_at t) < instant now.
Proof. unfold is_expired, datetime_ltb. apply Z.ltb_lt. Qed.






End PasswordReset.

(* ================================================================== *)
(** * Reminders                                                       *)
(* ================================================================== *)

Module Reminders.

Import QuerysetFacts EventStore Fixtures MoreFixtures.

Lemma sent_state_step_refl s : sent_state_step s s.
Proof. split; [|lia]. intros x Hx. left. exists x. auto. Qed.

Lemma sent_state_step_same s s' :
  reminders s' = reminders s -> next_reminder_id s' = next_reminder_id s ->
  sent_state_step s s'.
Proof.
  intros H Hn. split; [|lia]. intros x Hx. rewrite H in Hx.
  left. exists x. auto.
Qed.

Lemma sent_state_step_sub s s' :
  (forall x, In x (reminders s') -> In x (reminders s)) ->
  next_reminder_id s' = next_reminder_id s ->
  sent_state_step s s'.
Proof. intros H Hn. split; [|lia]. intros x Hx. left. exists x. auto. Qed.

Lemma sent_state_step_trans s1 s2 s3 :
  sent_state_step s1 s2 -> sent_state_step s2 s3 -> sent_state_step s1 s3.
Proof.
  intros [H12 N12] [H23 N23]. split; [|lia]. intros x Hx.
  destruct (H23 x Hx) as [(x2 & Hx2 & Hid & Hs & Ha) | (Hk & Hs & Ha)].
  - destruct (H12 x2 Hx2)
      as [(x1 & Hx1 & Hid1 & Hs1 & Ha1) | (Hk1 & Hs1 & Ha1)].
    + left. exists x1. repeat split; congruence.
    + right. split; [lia | split; congruence].
  - right. split; [lia | split; assumption].
Qed.

(** On a store whose reminder keys are in order, a step keeps the sent
    state of every reminder that stays and adds unsent ones only. *)
Lemma sent_state_step_kept s s' :
  reminder_keys_ok s -> sent_state_step s s' -> sent_state_kept s s'.
Proof.
  intros [Hnd Hlt] [Hstep _]. split.
  - intros x0 x Hx0 Hx Hid.
    destruct (Hstep x Hx) as [(x1 & Hx1 & Hid1 & Hs & Ha) | (Hk & _)].
    + assert (x1 = x0) as ->; [| split; congruence].
      apply (NoDup_map_key_inj r_id (reminders s) Hnd); try assumption.
      congruence.
    + exfalso. assert (r_id x0 < next_reminder_id s)
        by (apply Hlt, in_map; exact Hx0).
      lia.
  - intros x Hx Hnew.
    destruct (Hstep x Hx) as [(x1 & Hx1 & Hid1 & _) | (_ & Hs & Ha)];
      [| split; assumption].
    exfalso. apply Hnew. rewrite <- Hid1. apply in_map. exact Hx1.
Qed.

Lemma In_replace_reminder r l x :
  In x (replace_reminder r l) -> x = r \/ In x l.
Proof.
  induction l as [|y l IH]; cbn [replace_reminder In]; [tauto|].
  destruct (r_id y =? r_id r); cbn [In]; intuition.
Qed.

Lemma get_reminder_In user pk s r :
  get_reminder user pk s = Ok r -> In r (reminders s).
Proof.
  unfold get_reminder, reminder_queryset.
  destruct (find _ _) as [x|] eqn:Hf; [|discriminate].
  intros [= <-]. apply find_some in Hf as [Hin _].
  apply filter_In in Hin as [Hin _]. exact Hin.
Qed.

Lemma reminders_create_keeps d s :
  sent_state_step s (snd (reminders_create d s)).
Proof.
  unfold reminders_create.
  destruct (EventReminderSerializer_is_valid s false None d)
    as [[[ev us] dt]|ex]; cbn [snd]; [|apply sent_state_step_refl].
  split; [| cbn [next_reminder_id]; lia].
  intros x Hx. cbn [reminders] in Hx. apply in_app_or in Hx as [Hx | Hx].
  - left. exists x. auto.
  - right. cbn [In] in Hx. destruct Hx as [<- | []].
    cbn [r_id is_sent sent_at]. split; [lia | split; reflexivity].
Qed.

Lemma reminders_update_keeps user partial pk d s :
  sent_state_step s (snd (reminders_update user partial pk d s)).
Proof.
  unfold reminders_update.
  destruct (get_reminder user pk s) as [inst|ex] eqn:Hget; cbn [snd];
    [|apply sent_state_step_refl].
  destruct (EventReminderSerializer_is_valid s partial (Some inst) d)
    as [[[ev us] dt]|ex]; cbn [snd]; [|apply sent_state_step_refl].
  apply get_reminder_In in Hget.
  split; [| destruct s; cbn; lia].
  intros x Hx. destruct s; cbn [reminders set_reminders] in *.
  apply In_replace_reminder in Hx as [-> | Hx].
  - left. exists inst. cbn. auto.
  - left. exists x. auto.
Qed.

Lemma reminders_destroy_keeps user pk s :
  sent_state_step s (snd (reminders_destroy user pk s)).
Proof.
  unfold reminders_destroy.
  destruct (get_reminder user pk s) as [inst|ex]; cbn [snd];
    [|apply sent_state_step_refl].
  apply sent_state_step_sub; [| destruct s; reflexivity].
  intros x Hx. destruct s; cbn [reminders set_reminders] in *.
  apply filter_In in Hx. tauto.
Qed.

Lemma create_keeps_reminders now user d s :
  reminders (snd (create now user d s)) = reminders s
  /\ next_reminder_id (snd (create now user d s)) = next_reminder_id s.
Proof.
  rewrite create_unfold.
  destruct (CalendarEventCreateSerializer_is_valid s false d) as [v|ex];
    [|split; reflexivity].
  unfold serializer_create.
  destruct (new_instance now (user_id user) v) as [inst|ex];
    [|split; reflexivity].
  pose proof (save_other_tables now true inst s) as (_ & _ & Hr & _).
  pose proof (save_next_reminder_id now true inst s) as Hn.
  destruct (save now true inst s) as [e s1]. cbn [snd] in *.
  destruct (d_attendees v) as [ids|]; cbn [snd]; [|split; assumption].
  destruct (attendees_set_other_tables (id e) ids s1)
    as (_ & _ & -> & _).
  destruct (attendees_set_next_ids (id e) ids s1) as (_ & ->).
  split; assumption.
Qed.

Lemma update_keeps_reminders lib now user q partial pk d s :
  reminders (snd (update lib now user q partial pk d s)) = reminders s
  /\ next_reminder_id (snd (update lib now user q partial pk d s))
     = next_reminder_id s.
Proof.
  rewrite update_unfold.
  destruct (get_object lib user q pk s) as [inst|ex]; [|split; reflexivity].
  destruct (CalendarEventSerializer_is_valid s partial d) as [v|ex];
    [|split; reflexivity].
  unfold serializer_update.
  pose proof (save_other_tables now false (set_attrs inst v) s)
    as (_ & _ & Hr & _).
  pose proof (save_next_reminder_id now false (set_attrs inst v) s) as Hn.
  destruct (save now false (set_attrs inst v) s) as [e s1]. cbn [snd] in *.
  destruct (d_attendees v) as [ids|]; cbn [snd]; [|split; assumption].
  destruct (attendees_set_other_tables (id e) ids s1)
    as (_ & _ & -> & _).
  destruct (attendees_set_next_ids (id e) ids s1) as (_ & ->).
  split; assumption.
Qed.

Lemma mark_completed_keeps_reminders lib now user q pk s :
  reminders (snd (mark_completed lib now user q pk s)) = reminders s
  /\ next_reminder_id (snd (mark_completed lib now user q pk s))
     = next_reminder_id s.
Proof.
  unfold mark_completed.
  destruct (get_object lib user q pk s) as [event|ex]; [|split; reflexivity].
  pose proof (save_other_tables now false
                (with_is_completed event true) s) as (_ & _ & Hr & _).
  pose proof (save_next_reminder_id now false
                (with_is_completed event true) s) as Hn.
  destruct (save now false (with_is_completed event true) s) as [e s1].
  split; assumption.
Qed.

Lemma route_keeps_sent_state lib now user q req s :
  sent_state_step s (snd (route lib now user q req s)).
Proof.
  destruct req; cbn [route snd]; try apply sent_state_step_refl.
  - apply sent_state_step_same; apply create_keeps_reminders.
  - apply sent_state_step_same; apply update_keeps_reminders.
  - apply sent_state_step_same; apply update_keeps_reminders.
  - unfold destroy. destruct (get_object lib user q pk s); cbn [snd];
      [|apply sent_state_step_refl].
    apply sent_state_step_sub; [|reflexivity].
    intros x Hx. cbn [reminders delete_event] in Hx.
    apply filter_In in Hx. tauto.
  - apply sent_state_step_same; apply mark_completed_keeps_reminders.
  - unfold add_attendee.
    destruct (get_object lib user q pk s) as [ev|ex0]; cbn [snd];
      [|apply sent_state_step_refl].
    destruct (get_user lib target s) as [u|ex]; cbn [snd].
    + apply sent_state_step_same.
      * apply (attendees_add_other_tables (id ev) (user_id u) s).
      * apply attendees_add_next_ids.
    + destruct (is_DoesNotExist ex); apply sent_state_step_refl.
  - unfold remove_attendee. destruct (get_object lib user q pk s); cbn [snd];
      [|apply sent_state_step_refl].
    destruct (get_user lib target s) as [u|ex]; cbn [snd].
    + apply sent_state_step_same; destruct s; reflexivity.
    + destruct (is_DoesNotExist ex); apply sent_state_step_refl.
  - apply reminders_create_keeps.
  - apply reminders_update_keeps.
  - apply reminders_update_keeps.
  - apply reminders_destroy_keeps.
Qed.

Lemma dispatch_store lib now user q req s :
  snd (dispatch lib now user q req s) = snd (route lib now user q req s).
Proof. unfold dispatch. destruct (route lib now user q req s). reflexivity. Qed.

Lemma serve_keeps_sent_state lib calls s :
  sent_state_step s (serve lib calls s).
Proof.
  revert s. induction calls as [|c calls IH]; cbn [serve]; intros s.
  - apply sent_state_step_refl.
  - eapply sent_state_step_trans; [| apply IH].
    rewrite dispatch_store. apply route_keeps_sent_state.
Qed.

Lemma all_unsent_step s s' :
  all_unsent s -> sent_state_step s s' -> all_unsent s'.
Proof.
  intros Hs [Hk _] x Hx.
  destruct (Hk x Hx) as [(x0 & Hx0 & _ & Hsent & Hat) | (_ & H)];
    [|exact H].
  destruct (Hs x0 Hx0). split; congruence.
Qed.

(** Claim C8, as amended.  The code has no operation that marks a
    reminder as sent.  On a store whose reminder keys are unique and
    below the next key, every request to the events and reminders
    endpoints, and every sequence of requests by any users at any
    times, leaves [is_sent] and [sent_at] of every reminder it keeps
    exactly as they were, and every reminder it adds is unsent with no
    [sent_at]: a stored [sent_at] is never overwritten, and no reminder
    ever becomes sent.  What a client sends for the two read-only fields
    changes nothing. *)
Theorem sent_state_is_never_written lib :
  (forall now user q req s,
      reminder_keys_ok s ->
      sent_state_kept s (snd (dispatch lib now user q req s)))
  /\ (forall calls s,
        reminder_keys_ok s -> sent_state_kept s (serve lib calls s))
  /\ (forall calls s, all_unsent s -> all_unsent (serve lib calls s))
  /\ (forall user s d d',
        rd_event d' = rd_event d -> rd_user d' = rd_user d ->
        rd_reminder_datetime d' = rd_reminder_datetime d ->
        reminders_create d' s = reminders_create d s
        /\ forall partial pk,
            reminders_update user partial pk d' s
            = reminders_update user partial pk d s).
Proof.
  split; [|split; [|split]].
  - intros now user q req s Hk. apply sent_state_step_kept; [exact Hk|].
    rewrite dispatch_store. apply route_keeps_sent_state.
  - intros calls s Hk. apply sent_state_step_kept; [exact Hk|].
    apply serve_keeps_sent_state.
  - intros calls s Hs. apply (all_unsent_step s); [exact Hs|].
    apply serve_keeps_sent_state.
  - intros user s d d' He Hu Hd.
    assert (Hv : forall partial inst,
               EventReminderSerializer_is_valid s partial inst d'
               = EventReminderSerializer_is_valid s partial inst d).
    { intros partial inst. unfold EventReminderSerializer_is_valid.
      rewrite He, Hu, Hd. reflexivity. }
    split.
    + unfold reminders_create. rewrite Hv. reflexivity.
    + intros partial pk. unfold reminders_update.
      destruct (get_reminder user pk s); [|reflexivity].
      rewrite Hv. reflexivity.
Qed.

Lemma sent_state_is_never_written_witness :
  reminder_keys_ok store_sent
  /\ sent_state_kept store_sent (serve lib0 calls_on_sent store_sent)
  /\ map (fun r => (r_id r, is_sent r, sent_at r))
       (reminders (serve lib0 calls_on_sent store_sent))
     = [(1, true, Some (at_ 2025 1 10 9 0 0 0)); (3, false, None)].
Proof.
  assert (Hk : reminder_keys_ok store_sent).
  { split.
    - cbn. repeat constructor; cbn; intuition discriminate.
    - intros i Hi. cbn in Hi. destruct Hi as [<- | [<- | []]]; reflexivity. }
  split; [exact Hk|]. split.
  - apply (proj1 (proj2 (sent_state_is_never_written lib0))
             calls_on_sent store_sent Hk).
  - vm_compute. reflexivity.
Defined.

(** No request turns the one unsent reminder of [store8] into a sent
    one: the API has no operation that marks a reminder as sent. *)
Lemma no_request_marks_sent :
  all_unsent store8
  /\ ~ exists now user q req x,
         In x (reminders (snd (dispatch lib0 now user q req store8)))
         /\ (is_sent x = true \/ sent_at x <> None).
Proof.
  assert (H0 : all_unsent store8).
  { intros x [<- | []]. split; reflexivity. }
  split; [exact H0|].
  intros (now & user & q & req & x & Hx & Hsent).
  assert (Hk : sent_state_step store8
                 (snd (dispatch lib0 now user q req store8)))
    by (rewrite dispatch_store; apply route_keeps_sent_state).
  destruct (all_unsent_step _ _ H0 Hk x Hx) as [Hs Ha].
  destruct Hsent; congruence.
Qed.

End Reminders.

(* ================================================================== *)
(** * What the queryset holds                                       *)
(* ================================================================== *)

Module QuerysetExact.

Import DatetimeFacts BoundaryFacts QuerysetFacts Attendees EventStore Reminders
  PasswordReset Fixtures.

Lemma get_queryset_legacy lib user q s :
  get_queryset lib user q s
  = (d <- legacy_date lib q ;;
     qs <- get_queryset lib user (without_legacy q) s ;;
     ret (match d with
          | Some d => filter (legacy_view_filter
                                (opt_or (q_view q) EmptyString) d) qs
          | None => qs
          end)).
Proof.
  unfold get_queryset, legacy_date, without_legacy.
  cbn [q_event_type q_is_completed q_date q_view truthy andb].
  destruct (truthy (q_date q) && truthy (q_view q)); cbn [bind ret];
    [|reflexivity].
  destruct (parse_date lib (opt_or (q_date q) EmptyString)) as [[d|]|ex];
    reflexivity.
Qed.

Lemma get_queryset_plain lib user q s :
  exists qs,
    get_queryset lib user (without_legacy q) s = Ok qs
    /\ NoDup qs
    /\ forall e, In e qs
                 <-> In e (events s) /\ visible_to (user_id user) s e
                     /\ passes_filters q e.
Proof.
  unfold get_queryset, without_legacy, passes_filters.
  cbn [q_event_type q_is_completed q_date q_view truthy andb].
  eexists. split; [reflexivity|]. split.
  - destruct (q_is_completed q), (truthy (q_event_type q));
      repeat apply NoDup_filter'; apply base_queryset_NoDup.
  - intros e.
    destruct (q_is_completed q) as [v|], (truthy (q_event_type q)) eqn:Ht;
      rewrite ?filter_In, base_queryset_In.
    + rewrite Bool.eqb_true_iff, String.eqb_eq. split.
      * intros [[[He Hv] Hty] Hc]. repeat split; try assumption.
        -- intros _. destruct (q_event_type q); cbn in *; congruence.
        -- intros v' [= <-]. exact Hc.
      * intros (He & Hv & Hty & Hc). repeat split; try assumption.
        -- specialize (Hty eq_refl). rewrite <- Hty. reflexivity.
        -- apply Hc. reflexivity.
    + rewrite Bool.eqb_true_iff. split.
      * intros [[He Hv] Hc]. repeat split; try assumption; try discriminate.
        intros v' [= <-]. exact Hc.
      * intros (He & Hv & Hty & Hc). repeat split; try assumption.
        apply Hc. reflexivity.
    + rewrite String.eqb_eq. split.
      * intros [[He Hv] Hty]. repeat split; try assumption; try discriminate.
        intros _. destruct (q_event_type q); cbn in *; congruence.
      * intros (He & Hv & Hty & Hc). repeat split; try assumption.
        specialize (Hty eq_refl). rewrite <- Hty. reflexivity.
    + split.
      * intros [He Hv]. repeat split; try assumption; discriminate.
      * intros (He & Hv & _). auto.
Qed.

(** The queryset when the old-style date is read without an exception. *)
Lemma get_queryset_Ok lib user q s od :
  legacy_date lib q = Ok od ->
  exists qs,
    get_queryset lib user q s = Ok qs
    /\ NoDup qs
    /\ forall e,
        In e qs
        <-> In e (events s) /\ visible_to (user_id user) s e
            /\ passes_filters q e
            /\ (forall d, od = Some d ->
                  legacy_view_filter (opt_or (q_view q) EmptyString) d e
                  = true).
Proof.
  intros Hod. rewrite get_queryset_legacy.
  destruct (get_queryset_plain lib user q s) as (qs & Hqs & Hnd & Hin).
  rewrite Hqs, Hod. destruct od as [d|]; cbn [bind ret].
  - eexists. split; [reflexivity|]. split; [apply NoDup_filter', Hnd|].
    intros e. rewrite filter_In, Hin. split.
    + intros [(He & Hv & Hp) Hl]. repeat split; try assumption; try apply Hp.
      intros d' [= <-]. exact Hl.
    + intros (He & Hv & Hp & Hl). split; [tauto|]. apply Hl. reflexivity.
  - exists qs. split; [reflexivity|]. split; [exact Hnd|].
    intros e. rewrite Hin. split.
    + intros (He & Hv & Hp). repeat split; try assumption; try apply Hp.
      discriminate.
    + tauto.
Qed.

(** Property X1.  [get_queryset] answers exactly the events of the store
    that the user created or attends and that pass the [event_type] and
    [is_completed] parameters and, when [?date=] and [?view=] are both
    given and the date parses, the old-style view filter; no event is
    listed twice.  When [parse_date] raises, so does [get_queryset]. *)
Theorem get_queryset_exact lib user q s :
  match legacy_date lib q with
  | Raise ex => get_queryset lib user q s = Raise ex
  | Ok od =>
      exists qs,
        get_queryset lib user q s = Ok qs
        /\ NoDup qs
        /\ forall e,
            In e qs
            <-> In e (events s) /\ visible_to (user_id user) s e
                /\ passes_filters q e
                /\ (forall d, od = Some d ->
                      legacy_view_filter (opt_or (q_view q) EmptyString) d e
                      = true)
  end.
Proof.
  destruct (legacy_date lib q) as [od|ex] eqn:Hod.
  - apply get_queryset_Ok. exact Hod.
  - rewrite get_queryset_legacy.
    destruct (get_queryset_plain lib user q s) as (qs & Hqs & _).
    rewrite Hqs, Hod. reflexivity.
Qed.

Lemma legacy_view_filter_unknown v d e :
  known_view v = false -> legacy_view_filter v d e = true.
Proof.
  unfold known_view, legacy_view_filter. intros H.
  apply orb_false_iff in H as [H Hm]. apply orb_false_iff in H as [Hd Hw].
  rewrite Hd, Hw, Hm. reflexivity.
Qed.

(** Property X2.  The old-style [?date=]/[?view=] filter is dropped
    without a word when one of the two is missing or empty, when the date
    does not match the pattern of [parse_date], or when the view is none
    of day, week and month: the queryset is that of the request without
    the two parameters.  A date that matches the pattern and is no date
    makes [parse_date] raise, and the listing ends in that exception. *)
Theorem legacy_filter_silently_skipped lib now user q s :
  (truthy (q_date q) && truthy (q_view q) = false
   \/ parse_date lib (opt_or (q_date q) EmptyString) = Ok None
   \/ (exists d, parse_date lib (opt_or (q_date q) EmptyString) = Ok (Some d)
                 /\ known_view (opt_or (q_view q) EmptyString) = false) ->
   get_queryset lib user q s = get_queryset lib user (without_legacy q) s)
  /\ (forall ex,
        truthy (q_date q) && truthy (q_view q) = true ->
        parse_date lib (opt_or (q_date q) EmptyString) = Raise ex ->
        get_queryset lib user q s = Raise ex
        /\ dispatch lib now user q EventsList s
           = (handle_exception (Raise ex), s)).
Proof.
  split.
  - intros H. rewrite get_queryset_legacy. unfold legacy_date.
    destruct (get_queryset_plain lib user q s) as (qs & Hqs & _).
    rewrite Hqs.
    destruct (truthy (q_date q) && truthy (q_view q)); [|reflexivity].
    destruct H as [H | [H | (d & H & Hv)]]; [discriminate| |];
      rewrite H; cbn [bind ret]; [reflexivity|].
    apply (f_equal Ok). rewrite <- (filter_true qs) at 2. apply filter_ext.
    intros e. apply legacy_view_filter_unknown, Hv.
  - intros ex Ht Hp.
    assert (Hq : get_queryset lib user q s = Raise ex).
    { rewrite get_queryset_legacy. unfold legacy_date. rewrite Ht, Hp.
      reflexivity. }
    split; [exact Hq|].
    unfold dispatch, route, list_events. rewrite Hq. reflexivity.
Qed.

End QuerysetExact.

(* ================================================================== *)
(** * The week and month views                                      *)
(* ================================================================== *)

Module CalendarViews.

Import DatetimeFacts BoundaryFacts QuerysetFacts Attendees EventStore Reminders
  PasswordReset Fixtures QuerysetExact.

Section Sorting.

Context {A : Type} (key : A -> Z).

Lemma insert_by_StronglySorted e l :
  StronglySorted (fun a b => key a <= key b) l ->
  StronglySorted (fun a b => key a <= key b) (insert_by key e l).
Proof.
  induction 1 as [|x r Hr IH Hx]; cbn [insert_by].
  - constructor; constructor.
  - destruct (Z.ltb_spec (key e) (key x)) as [Hlt | Hge].
    + constructor; [constructor; assumption|].
      constructor; [lia|].
      rewrite Forall_forall in *. intros y Hy. specialize (Hx y Hy). lia.
    + constructor; [exact IH|].
      rewrite Forall_forall in *. intros y Hy.
      apply In_insert_by in Hy as [-> | Hy]; [lia | auto].
Qed.

Lemma order_by_StronglySorted l :
  StronglySorted (fun a b => key a <= key b) (order_by key l).
Proof.
  unfold order_by. induction l as [|x l IH]; cbn [fold_right].
  - constructor.
  - apply insert_by_StronglySorted, IH.
Qed.

Lemma insert_by_Permutation e l : Permutation (insert_by key e l) (e :: l).
Proof.
  induction l as [|x l IH]; cbn [insert_by]; [reflexivity|].
  destruct (key e <? key x); [reflexivity|].
  rewrite IH. apply perm_swap.
Qed.

Lemma order_by_Permutation l : Permutation (order_by key l) l.
Proof.
  unfold order_by. induction l as [|x l IH]; cbn [fold_right]; [reflexivity|].
  rewrite insert_by_Permutation. constructor. exact IH.
Qed.

End Sorting.

Lemma list_response_sorted s l : sorted_listing s (list_response s l) l.
Proof.
  exists (order_by_start l). split; [reflexivity|]. split.
  - apply (order_by_StronglySorted (fun e => instant (start_datetime e))).
  - apply order_by_Permutation.
Qed.

(** Property X3.  A week or month view that answers is a 400 or lists,
    in ascending order of start, the events of the user's queryset that
    start inside the window. *)
Theorem calendar_views_sorted lib now user q s resp :
  (week_view lib now user q s = Ok resp ->
   status resp = HTTP_400_BAD_REQUEST
   \/ exists d w qs,
       reference_date lib now q = Ok (Some d)
       /\ week_window lib user d = Ok w
       /\ get_queryset lib user q s = Ok qs
       /\ sorted_listing s resp (filter (in_window (fst w) (snd w)) qs))
  /\ (month_view lib now user q s = Ok resp ->
      status resp = HTTP_400_BAD_REQUEST
      \/ exists y m w qs,
          year_month lib now q = Ok (inl (y, m))
          /\ month_window lib user y m = Ok w
          /\ get_queryset lib user q s = Ok qs
          /\ sorted_listing s resp (filter (in_window (fst w) (snd w)) qs)).
Proof.
  split.
  - unfold week_view.
    destruct (reference_date lib now q) as [[d|]|ex] eqn:Hd; cbn [bind ret];
      [|intros [= <-]; left; reflexivity | discriminate].
    destruct (week_window lib user d) as [w|ex] eqn:Hw; cbn [bind];
      [|discriminate].
    destruct (get_queryset lib user q s) as [qs|ex] eqn:Hqs; [|discriminate].
    cbn [bind ret]. intros [= <-]. right. exists d, w, qs.
    split; [reflexivity|]. split; [exact Hw|]. split; [reflexivity|].
    apply list_response_sorted.
  - unfold month_view.
    destruct (year_month lib now q) as [[[y m]|r]|ex] eqn:Hym; cbn [bind ret];
      [| |discriminate].
    + destruct (month_window lib user y m) as [w|ex] eqn:Hw; cbn [bind];
        [|discriminate].
      destruct (get_queryset lib user q s) as [qs|ex] eqn:Hqs;
        [|discriminate].
      cbn [bind ret]. intros [= <-]. right. exists y, m, w, qs.
      split; [reflexivity|]. split; [exact Hw|]. split; [reflexivity|].
      apply list_response_sorted.
    + intros [= <-]. left. revert Hym. unfold year_month.
      destruct (int_param lib (q_year q) (year (dt_date now))) as [y|ex];
        cbn [bind catch].
      * destruct (int_param lib (q_month q) (month (dt_date now))) as [m|ex];
          cbn [bind catch ret]; [discriminate|].
        destruct (is_ValueError ex); [|discriminate].
        intros [= <-]. reflexivity.
      * destruct (is_ValueError ex); [|discriminate].
        cbn [ret]. intros [= <-]. reflexivity.
Qed.

Lemma instant_within_day x :
  valid_clock x ->
  toordinal (dt_date x) * 86400000000 <= instant x
  < (toordinal (dt_date x) + 1) * 86400000000.
Proof.
  intros (Hh & Hm & Hs & Hu). unfold instant, dt_seconds_of_day. lia.
Qed.

Lemma instant_midnight d :
  instant (combine d time_min) = toordinal d * 86400000000.
Proof. unfold instant, dt_seconds_of_day, combine. cbn. lia. Qed.

Lemma instant_day_end d :
  instant (combine d time_max) = (toordinal d + 1) * 86400000000 - 1.
Proof. unfold instant, dt_seconds_of_day, combine. cbn. lia. Qed.

Lemma utc_instant x : aware_instant (localize utc x) = instant x.
Proof. unfold aware_instant, localize. cbn. lia. Qed.

(** Property X4.  For a user in UTC and a day up to 9999-12-26, the
    week window holds an event exactly when its start falls in the same
    Monday-to-Sunday week as the day. *)
Theorem week_view_is_the_calendar_week lib user d e :
  valid_date d -> toordinal d <= toordinal (mk_date 9999 12 26) ->
  user_tz lib user = Ok utc ->
  valid_clock (start_datetime e) ->
  exists w,
    week_window lib user d = Ok w
    /\ (in_window (fst w) (snd w) e = true
        <-> (toordinal (dt_date (start_datetime e)) - 1) / 7
            = (toordinal d - 1) / 7).
Proof.
  intros Hv Hmax Htz Hclock.
  destruct (week_dates_ok d Hv Hmax)
    as (monday & sunday & Hw & Hmon & Hsun & _ & _).
  eexists. split.
  { unfold week_window. rewrite Hw. cbn [bind fst snd]. rewrite Htz.
    reflexivity. }
  cbn [fst snd]. rewrite Windows.in_window_iff, !utc_instant.
  rewrite instant_midnight, instant_day_end, Hsun, Hmon.
  pose proof (instant_within_day _ Hclock) as Hi.
  pose proof (toordinal_bounds d Hv) as Hb.
  unfold weekday.
  set (o := toordinal d) in *. set (o' := toordinal (dt_date (start_datetime e))) in *.
  clearbody o o'. Z.div_mod_to_equations. lia.
Qed.

(** Property X5.  The month window ends at 23:59:59.000000 of the last
    day, so an event that starts later within that second is left out
    of the month view, while the old-style [?view=month] filter of
    [get_queryset], which compares year and month, keeps it. *)
Theorem month_view_misses_last_second lib user y m us e :
  1 <= y <= 9999 -> 1 <= m <= 12 -> y < 9999 \/ m < 12 ->
  user_tz lib user = Ok utc ->
  0 < us < 1000000 ->
  start_datetime e
  = mk_datetime (mk_date y m (days_in_month y m)) (mk_time 23 59 59 us) ->
  exists w,
    month_window lib user y m = Ok w
    /\ in_window (fst w) (snd w) e = false
    /\ forall d, year d = y -> month d = m ->
                 legacy_view_filter "month" d e = true.
Proof.
  intros Hy Hm Hlast Htz Hus He.
  eexists. split.
  { unfold month_window. rewrite month_days_spec by assumption.
    cbn [bind]. rewrite Htz. reflexivity. }
  cbn [fst snd]. split.
  - unfold in_window. rewrite !utc_instant, He.
    apply andb_false_iff. right. apply Z.leb_gt.
    unfold instant, dt_seconds_of_day. cbn [dt_date dt_time hour minute second microsecond]. lia.
  - intros d Hdy Hdm. unfold legacy_view_filter. cbn [String.eqb Ascii.eqb Bool.eqb].
    rewrite He. cbn [dt_date year month]. rewrite Hdy, Hdm, !Z.eqb_refl.
    reflexivity.
Qed.

End CalendarViews.

(* ================================================================== *)
(** * Lookup, deletion, completion, creation and update of events   *)
(* ================================================================== *)

Module EventWrites.

Import DatetimeFacts BoundaryFacts QuerysetFacts Attendees FieldFacts EventStore
  Reminders PasswordReset Fixtures QuerysetExact CalendarViews.

Lemma find_event_None pk l :
  find_event pk l = None <-> forall e, In e l -> id e <> pk.
Proof.
  unfold find_event. split.
  - intros H e He. apply (find_none _ _ H) in He. apply Z.eqb_neq. exact He.
  - intros H. destruct (find _ _) as [e|] eqn:Hf; [|reflexivity].
    apply find_some in Hf as [Hin He]. apply Z.eqb_eq in He.
    exfalso. exact (H e Hin He).
Qed.

(** Property X8.  With unique primary keys, [get_object] returns an
    event exactly when it is in the store under that key, the user
    created or attends it, and it passes the filters of the request,
    search included.  When there is none, retrieve and destroy answer
    404 with the detail "No CalendarEvent matches the given query." and
    leave the store as it is: an event of somebody else is
    indistinguishable from a missing one. *)
Theorem get_object_exact lib now user q pk s od :
  NoDup (map id (events s)) ->
  legacy_date lib q = Ok od ->
  let reachable e :=
    In e (events s) /\ id e = pk /\ visible_to (user_id user) s e
    /\ passes_filters q e
    /\ (forall d, od = Some d ->
          legacy_view_filter (opt_or (q_view q) EmptyString) d e = true)
    /\ passes_search lib q e in
  (forall e, get_object lib user q pk s = Ok e <-> reachable e)
  /\ ((forall e, ~ reachable e) ->
      get_object lib user q pk s = Raise (no_match "CalendarEvent")
      /\ dispatch lib now user q (EventsRetrieve pk) s
         = (Ok (mk_Response HTTP_404_NOT_FOUND
                  (ErrorBody "detail"
                     "No CalendarEvent matches the given query.")), s)
      /\ dispatch lib now user q (EventsDestroy pk) s
         = (Ok (mk_Response HTTP_404_NOT_FOUND
                  (ErrorBody "detail"
                     "No CalendarEvent matches the given query.")), s)).
Proof.
  intros Hpk Hod reachable.
  destruct (get_queryset_Ok lib user q s od Hod) as (qs & Hqs & Hnd & Hin).
  assert (Hids : NoDup (map id (filter_queryset lib q qs))).
  { apply (NoDup_map_key_sub id (events s)); [exact Hpk | |].
    - apply filter_queryset_NoDup, Hnd.
    - intros e He. apply filter_queryset_In in He as [He _].
      apply Hin in He. tauto. }
  assert (Hiff : forall e, get_object lib user q pk s = Ok e <-> reachable e).
  { intros e. unfold get_object, reachable, passes_search. rewrite Hqs.
    cbn [bind]. split.
    - destruct (find_event pk _) as [x|] eqn:Hf; [|discriminate].
      intros [= ->]. apply find_event_Some in Hf as [Hf Hid].
      apply filter_queryset_In in Hf as [Hf Hs]. apply Hin in Hf. tauto.
    - intros (He & Hid & Hv & Hp & Hl & Hs). subst pk.
      rewrite find_event_unique; [reflexivity | exact Hids |].
      apply filter_queryset_In. split; [|exact Hs]. apply Hin. tauto. }
  split; [exact Hiff|].
  intros Hnone.
  assert (H404 : get_object lib user q pk s = Raise (no_match "CalendarEvent")).
  { destruct (get_object lib user q pk s) as [x|ex] eqn:Hobj.
    - exfalso. apply (Hnone x). apply Hiff. reflexivity.
    - revert Hobj. unfold get_object. rewrite Hqs. cbn [bind].
      destruct (find_event pk _); [discriminate | intros [= <-]; reflexivity]. }
  split; [exact H404|].
  unfold dispatch, route, retrieve, destroy. rewrite H404.
  split; reflexivity.
Qed.

(** Property X7.  Deleting an event that the user can reach answers 204
    and removes the event, its attendee rows and its reminders, nothing
    else; afterwards nobody finds the event. *)
Theorem destroy_cascades lib user q pk s e :
  get_object lib user q pk s = Ok e ->
  exists s',
    destroy lib user q pk s
    = (Ok (mk_Response HTTP_204_NO_CONTENT NoContent), s')
    /\ (forall x, In x (events s') <-> In x (events s) /\ id x <> id e)
    /\ (forall r, In r (event_attendees s')
                  <-> In r (event_attendees s) /\ fst r <> id e)
    /\ (forall r, In r (reminders s')
                  <-> In r (reminders s) /\ r_event r <> id e)
    /\ users s' = users s /\ reset_tokens s' = reset_tokens s
    /\ forall user' q',
        get_object lib user' q' (id e) s' = Raise (no_match "CalendarEvent")
        \/ exists ex, get_queryset lib user' q' s' = Raise ex.
Proof.
  intros Hobj. exists (delete_event (id e) s).
  split; [unfold destroy; rewrite Hobj; reflexivity|].
  assert (Hev : forall x, In x (events (delete_event (id e) s))
                          <-> In x (events s) /\ id x <> id e).
  { intros x. cbn [events delete_event]. rewrite filter_In, negb_true_iff,
      Z.eqb_neq. tauto. }
  split; [exact Hev|]. split.
  { intros r. cbn [event_attendees delete_event].
    rewrite filter_In, negb_true_iff, Z.eqb_neq. tauto. }
  split.
  { intros r. cbn [reminders delete_event].
    rewrite filter_In, negb_true_iff, Z.eqb_neq. tauto. }
  split; [reflexivity|]. split; [reflexivity|].
  intros user' q'. unfold get_object.
  destruct (get_queryset lib user' q' (delete_event (id e) s)) as [qs|ex]
    eqn:Hqs; [left | right; eauto].
  cbn [bind]. destruct (find_event (id e) _) as [x|] eqn:Hf; [|reflexivity].
  exfalso. apply find_event_Some in Hf as [Hf Hid].
  apply filter_queryset_In in Hf as [Hf _].
  apply (get_queryset_sound _ _ _ _ _ Hqs) in Hf as [Hf _].
  apply Hev in Hf. tauto.
Qed.

Lemma map_id_replace_event e l :
  map id (replace_event e l) = map id l.
Proof.
  induction l as [|x l IH]; cbn [replace_event map]; [reflexivity|].
  destruct (Z.eqb_spec (id x) (id e)) as [E | E]; cbn [map].
  - congruence.
  - rewrite IH. reflexivity.
Qed.


Lemma replace_event_idempotent e l :
  replace_event e (replace_event e l) = replace_event e l.
Proof.
  induction l as [|x l IH]; cbn [replace_event]; [reflexivity|].
  destruct (Z.eqb_spec (id x) (id e)) as [E | E]; cbn [replace_event].
  - rewrite Z.eqb_refl. reflexivity.
  - destruct (Z.eqb_spec (id x) (id e)); [contradiction|].
    rewrite IH. reflexivity.
Qed.

Ltac event_fields :=
  cbn [with_updated_at with_duration with_is_completed with_id
         with_created_at id title description event_type start_datetime
         end_datetime duration_minutes created_by task_id meeting_id
         location color_code priority is_all_day reminder_minutes
         is_completed created_at updated_at].



Lemma attendees_add_rows_In ev uid s r :
  In r (event_attendees (attendees_add ev uid s))
  <-> In r (event_attendees s) \/ r = (ev, uid).
Proof.
  rewrite attendees_add_rows. destruct (is_attendee ev uid s) eqn:H.
  - apply is_attendee_true in H. split; [auto|]. intros [Hr | ->]; auto.
  - rewrite in_app_iff. cbn [In]. intuition congruence.
Qed.

Lemma fold_attendees_add_rows ev ids s r :
  In r (event_attendees
          (fold_left (fun acc uid => attendees_add ev uid acc) ids s))
  <-> In r (event_attendees s) \/ (fst r = ev /\ In (snd r) ids).
Proof.
  revert s. induction ids as [|i ids IH]; intros s; cbn [fold_left In].
  - tauto.
  - rewrite IH, attendees_add_rows_In. destruct r as [a b]. cbn [fst snd].
    split.
    + intros [[H | [= -> ->]] | [Ha Hb]]; auto.
    + intros [H | [Ha [<- | Hb]]]; subst; auto.
Qed.

Lemma attendees_set_rows ev ids s r :
  In r (event_attendees (attendees_set ev ids s))
  <-> (fst r <> ev /\ In r (event_attendees s))
      \/ (fst r = ev /\ In (snd r) ids).
Proof.
  unfold attendees_set. rewrite fold_attendees_add_rows.
  destruct s; cbn [event_attendees set_event_attendees].
  rewrite filter_In, orb_true_iff, negb_true_iff, Z.eqb_neq, existsb_exists.
  split.
  - intros [[Hin [Hne | (x & Hx & Hex)]] | H]; auto.
    apply Z.eqb_eq in Hex. subst x.
    destruct (Z.eq_dec (fst r) ev); auto.
  - intros [[Hne Hin] | H]; auto.
Qed.




Lemma validate_returns_data v v' :
  CalendarEventSerializer_validate v = Ok v' -> v' = v.
Proof.
  unfold CalendarEventSerializer_validate, invalid, ret.
  destruct (d_start_datetime v), (d_end_datetime v);
    try destruct (datetime_leb _ _); congruence.
Qed.

Lemma attendee_ids_attendees_set ev ids s u :
  In u (attendee_ids ev (attendees_set ev ids s)) <-> In u ids.
Proof.
  rewrite attendee_ids_In, attendees_set_rows. cbn [fst snd]. tauto.
Qed.

(** What a successful update does: the instance with the sent
    attributes is saved over its row, then the attendees are set. *)
Lemma update_result lib now user q partial pk d s inst v :
  get_object lib user q pk s = Ok inst ->
  CalendarEventSerializer_is_valid s partial d = Ok v ->
  let e := pre_save now (set_attrs inst v) in
  let s1 := set_events s (replace_event e (events s)) in
  let s' := match d_attendees d with
            | Some ids => attendees_set (id inst) ids s1
            | None => s1
            end in
  update lib now user q partial pk d s
  = (Ok (mk_Response HTTP_200_OK (detail_body s' e)), s')
  /\ v = validated true d.
Proof.
  intros Hobj Hv e s1 s'. rewrite update_unfold, Hobj, Hv.
  unfold CalendarEventSerializer_is_valid in Hv.
  destruct (run_field_validation s partial true d) as [v0|] eqn:Hf;
    [|discriminate].
  cbn [bind] in Hv. apply validate_returns_data in Hv. subst v0.
  apply run_field_validation_result in Hf as [Hf _]. split; [|exact Hf].
  unfold serializer_update, save.
  assert (Ha : d_attendees v = d_attendees d) by (rewrite Hf; reflexivity).
  rewrite Ha. subst s'. fold e. fold s1.
  destruct (d_attendees d); reflexivity.
Qed.

Lemma replace_event_keeps_others e l x :
  In x l -> id x <> id e -> In x (replace_event e l).
Proof.
  induction l as [|y l IH]; cbn [replace_event In]; [tauto|].
  intros [-> | Hx] Hne.
  - destruct (Z.eqb_spec (id x) (id e)); [contradiction|]. left. reflexivity.
  - destruct (id y =? id e); cbn [In]; auto.
Qed.

Lemma update_Ok_valid lib now user q partial pk d s resp s' :
  update lib now user q partial pk d s = (Ok resp, s') ->
  exists inst v,
    get_object lib user q pk s = Ok inst
    /\ CalendarEventSerializer_is_valid s partial d = Ok v.
Proof.
  rewrite update_unfold.
  destruct (get_object lib user q pk s) as [inst|]; [|discriminate].
  destruct (CalendarEventSerializer_is_valid s partial d) as [v|];
    [|discriminate].
  eauto.
Qed.

(** Property X11.  An update that succeeds answers 200 with the event
    under the same primary key, creator and creation time, stamped with
    the time of the request; title, type, range, completion and priority
    keep their value when the body leaves them out, the other events
    stay, and the attendees are replaced only when the body lists
    them. *)
Theorem update_keeps_identity lib now user q partial pk d s resp s' :
  update lib now user q partial pk d s = (Ok resp, s') ->
  exists inst e,
    get_object lib user q pk s = Ok inst
    /\ resp = mk_Response HTTP_200_OK (detail_body s' e)
    /\ id e = pk /\ id inst = pk
    /\ created_by e = created_by inst /\ created_at e = created_at inst
    /\ updated_at e = now
    /\ title e = opt_or (option_map strip (d_title d)) (title inst)
    /\ event_type e = opt_or (d_event_type d) (event_type inst)
    /\ start_datetime e = opt_or (d_start_datetime d) (start_datetime inst)
    /\ end_datetime e = opt_or (d_end_datetime d) (end_datetime inst)
    /\ is_completed e = opt_or (d_is_completed d) (is_completed inst)
    /\ priority e = opt_or (d_priority d) (priority inst)
    /\ In e (events s')
    /\ map id (events s') = map id (events s)
    /\ (forall x, In x (events s) -> id x <> pk -> In x (events s'))
    /\ (d_attendees d = None -> event_attendees s' = event_attendees s)
    /\ (forall ids, d_attendees d = Some ids ->
                    forall u, In u (attendee_ids pk s') <-> In u ids)
    /\ users s' = users s /\ reminders s' = reminders s
    /\ reset_tokens s' = reset_tokens s
    /\ next_event_id s' = next_event_id s.
Proof.
  intros Hup.
  destruct (update_Ok_valid _ _ _ _ _ _ _ _ _ _ Hup) as (inst & v & Hobj & Hv).
  destruct (update_result lib now user q partial pk d s inst v Hobj Hv)
    as [Hres Ev].
  cbv zeta in Hres. rewrite Hres in Hup.
  apply get_object_In in Hobj as Hin. destruct Hin as [Hin Hid].
  exists inst, (pre_save now (set_attrs inst v)).
  injection Hup as <- <-.
  set (e := pre_save now (set_attrs inst v)).
  set (s1 := set_events s (replace_event e (events s))).
  assert (Eid : id e = id inst) by reflexivity.
  assert (He1 : In e (events s1)).
  { apply In_replace_event. exists inst. auto. }
  assert (Hm1 : map id (events s1) = map id (events s)).
  { apply map_id_replace_event. }
  assert (Ho1 : forall x, In x (events s) -> id x <> pk -> In x (events s1)).
  { intros x Hx Hne. apply replace_event_keeps_others; [exact Hx|].
    rewrite Eid, Hid. exact Hne. }
  split; [exact Hobj|]. split; [reflexivity|].
  split; [rewrite Eid; exact Hid|]. split; [exact Hid|].
  do 3 (split; [reflexivity|]).
  do 6 (split; [unfold e, pre_save; rewrite Ev; reflexivity|]).
  destruct (d_attendees d) as [ids|] eqn:Hatt.
  - destruct (attendees_set_other_tables (id inst) ids s1)
      as (Hu & He & Hr & Ht).
    destruct (attendees_set_next_ids (id inst) ids s1) as (Hn & _).
    cbv zeta in Hu, He, Hr, Ht. rewrite He, Hu, Hr, Ht, Hn.
    split; [exact He1|]. split; [exact Hm1|]. split; [exact Ho1|].
    split; [discriminate|].
    split; [|repeat split].
    intros ids' [= <-] u. rewrite <- Hid. apply attendee_ids_attendees_set.
  - split; [exact He1|]. split; [exact Hm1|]. split; [exact Ho1|].
    split; [reflexivity|]. split; [discriminate|]. repeat split.
Qed.


Lemma remove_row_count (ev uid : Z) (rows : list (Z * Z)) :
  NoDup rows ->
  Nat.add
    (List.length
       (filter (fun r => fst r =? ev)
          (filter (fun r => negb (pair_eqb (ev, uid) r)) rows)))
    (if existsb (pair_eqb (ev, uid)) rows then 1%nat else 0%nat)
  = List.length (filter (fun r => fst r =? ev) rows).
Proof.
  induction rows as [|r l IH]; intros Hnd; [reflexivity|].
  inversion Hnd as [|? ? Hr Hl]; subst. specialize (IH Hl).
  cbn [filter existsb].
  destruct (pair_eqb (ev, uid) r) eqn:E; cbn [negb orb].
  - apply pair_eqb_eq in E. subst r. cbn [fst]. rewrite Z.eqb_refl.
    cbn [List.length].
    destruct (existsb (pair_eqb (ev, uid)) l) eqn:Ex.
    + exfalso. apply Hr. apply existsb_exists in Ex as (x & Hx & Hxe).
      apply pair_eqb_eq in Hxe. subst x. exact Hx.
    + lia.
  - cbn [filter]. destruct (fst r =? ev); cbn [List.length]; lia.
Qed.

Lemma remove_other_rows (ev other uid : Z) (rows : list (Z * Z)) :
  other <> ev ->
  filter (fun r => fst r =? ev)
    (filter (fun r => negb (pair_eqb (other, uid) r)) rows)
  = filter (fun r => fst r =? ev) rows.
Proof.
  intros Hne. induction rows as [|r l IH]; [reflexivity|]. cbn [filter].
  destruct (pair_eqb (other, uid) r) eqn:E; cbn [negb filter].
  - apply pair_eqb_eq in E. subst r. cbn [fst].
    destruct (Z.eqb_spec other ev); [contradiction|]. exact IH.
  - destruct (fst r =? ev); [f_equal|]; exact IH.
Qed.

(** Property X13.  With no duplicate attendee row, the [attendee_count]
    of the list serializer goes up by one when a new attendee is added,
    down by one when an attendee is removed, and stays when the user is
    already, or is not, an attendee; the counts of other events do not
    move. *)
Theorem attendee_count_follows_add_and_remove ev uid s e :
  NoDup (event_attendees s) ->
  id e = ev ->
  let count := fun s' => li_attendee_count (to_list_item s' e) in
  count (attendees_add ev uid s)
  = count s + (if is_attendee ev uid s then 0 else 1)
  /\ count (attendees_remove ev uid s)
     = count s - (if is_attendee ev uid s then 1 else 0)
  /\ count (attendees_remove ev uid (attendees_add ev uid s))
     = count s - (if is_attendee ev uid s then 1 else 0)
  /\ (forall other uid',
         other <> ev ->
         count (attendees_add other uid' s) = count s
         /\ count (attendees_remove other uid' s) = count s)
  /\ 0 <= count s.
Proof.
  intros Hnd Hid count. subst count. cbv beta.
  unfold to_list_item. cbn [li_attendee_count]. rewrite Hid.
  assert (Hadd : forall s0,
             Z.of_nat (List.length (attendee_ids ev (attendees_add ev uid s0)))
             = Z.of_nat (List.length (attendee_ids ev s0))
               + (if is_attendee ev uid s0 then 0 else 1)).
  { intros s0. unfold attendee_ids. rewrite attendees_add_rows.
    destruct (is_attendee ev uid s0); [lia|].
    rewrite filter_app, map_app, length_app. cbn [filter fst].
    rewrite Z.eqb_refl. cbn [map List.length]. lia. }
  assert (Hrem : forall s0,
             NoDup (event_attendees s0) ->
             Z.of_nat
               (List.length (attendee_ids ev (attendees_remove ev uid s0)))
             = Z.of_nat (List.length (attendee_ids ev s0))
               - (if is_attendee ev uid s0 then 1 else 0)).
  { intros s0 Hnd0. unfold attendee_ids, attendees_remove, is_attendee.
    destruct s0 as [us es rows rs ts n1 n2].
    cbn [event_attendees set_event_attendees] in *.
    rewrite !length_map.
    pose proof (remove_row_count ev uid rows Hnd0) as H.
    destruct (existsb (pair_eqb (ev, uid)) rows); lia. }
  split; [apply Hadd|]. split; [apply Hrem; exact Hnd|].
  split.
  { rewrite Hrem.
    - rewrite Hadd. rewrite attendees_add_present.
      destruct (is_attendee ev uid s); lia.
    - rewrite attendees_add_rows. destruct (is_attendee ev uid s) eqn:E;
        [exact Hnd|].
      apply NoDup_app; [exact Hnd | repeat constructor; intros [] |].
      intros x Hx [<- | []].
      assert (is_attendee ev uid s = true) by (apply is_attendee_true; exact Hx).
      congruence. }
  split; [|lia].
  intros other uid' Hne. unfold attendee_ids. split.
  - rewrite attendees_add_rows. destruct (is_attendee other uid' s);
      [reflexivity|].
    rewrite filter_app. cbn [filter fst].
    destruct (Z.eqb_spec other ev); [contradiction|]. rewrite app_nil_r.
    reflexivity.
  - destruct s as [us es rows rs ts n1 n2].
    cbn [attendees_remove event_attendees set_event_attendees].
    rewrite remove_other_rows by exact Hne. reflexivity.
Qed.

End EventWrites.

(* ================================================================== *)
(** * The reminder endpoints                                        *)
(* ================================================================== *)

Module ReminderViews.

Import DatetimeFacts BoundaryFacts QuerysetFacts Attendees EventStore Reminders
  PasswordReset Fixtures QuerysetExact CalendarViews EventWrites.

Lemma datetime_add_24h x :
  valid_clock x ->
  1 <= toordinal (dt_date x) < MAXORDINAL ->
  exists y,
    datetime_add x (timedelta_hours 24) = Ok y
    /\ instant y = instant x + 86400000000.
Proof.
  intros (Hh & Hm & Hs & Hu) Ho. unfold datetime_add.
  change (timedelta_hours 24) with (mk_timedelta 1 0 0).
  unfold td_add, new_timedelta, divmod.
  cbn [td_days td_seconds td_microseconds].
  set (secs := hour (dt_time x) * 3600 + minute (dt_time x) * 60
               + second (dt_time x)).
  assert (Hsecs : 0 <= secs < 86400) by (unfold secs; lia).
  assert (E1 : microsecond (dt_time x) / 1000000 = 0)
    by (apply Z.div_small; lia).
  assert (E2 : microsecond (dt_time x) mod 1000000 = microsecond (dt_time x))
    by (apply Z.mod_small; lia).
  rewrite E1, E2, !Z.add_0_r.
  assert (E3 : secs / 86400 = 0) by (apply Z.div_small; lia).
  assert (E4 : secs mod 86400 = secs) by (apply Z.mod_small; lia).
  rewrite E3, E4, E1, E2, !Z.add_0_r, E3, E4, !Z.add_0_r.
  assert (E5 : secs / 3600 = hour (dt_time x)).
  { unfold secs. symmetry.
    apply (Z.div_unique _ _ _ (minute (dt_time x) * 60 + second (dt_time x)));
      lia. }
  assert (E6 : secs mod 3600 = minute (dt_time x) * 60 + second (dt_time x)).
  { unfold secs. symmetry. apply (Z.mod_unique _ _ (hour (dt_time x))); lia. }
  rewrite E5, E6.
  assert (E7 : (minute (dt_time x) * 60 + second (dt_time x)) / 60
               = minute (dt_time x)).
  { symmetry. apply (Z.div_unique _ _ _ (second (dt_time x))); lia. }
  assert (E8 : (minute (dt_time x) * 60 + second (dt_time x)) mod 60
               = second (dt_time x)).
  { symmetry. apply (Z.mod_unique _ _ (minute (dt_time x))); lia. }
  rewrite E7, E8.
  destruct (Z.ltb_spec 0 (toordinal (dt_date x) + 1)); [|lia].
  destruct (Z.leb_spec (toordinal (dt_date x) + 1) MAXORDINAL); [|lia].
  cbn [andb]. eexists. split; [reflexivity|].
  unfold instant, dt_seconds_of_day, combine.
  cbn [dt_date dt_time hour minute second microsecond].
  rewrite toordinal_fromordinal by lia. lia.
Qed.

(** Property X14.  [upcoming] answers 200 with the user's unsent
    reminders that are due from now to now plus 24 hours, both ends
    included, in ascending order of their time. *)
Theorem upcoming_lists_due_reminders now user s :
  valid_date (dt_date now) -> valid_clock now ->
  toordinal (dt_date now) < MAXORDINAL ->
  exists rs,
    upcoming now user s = Ok (mk_Response HTTP_200_OK (ReminderList rs))
    /\ StronglySorted
         (fun a b => instant (reminder_datetime a)
                     <= instant (reminder_datetime b)) rs
    /\ forall r,
        In r rs
        <-> In r (reminders s) /\ r_user r = user_id user
            /\ is_sent r = false
            /\ instant now <= instant (reminder_datetime r)
               <= instant now + 86400000000.
Proof.
  intros Hd Hc Hmax. pose proof (toordinal_bounds _ Hd) as Ho.
  destruct (datetime_add_24h now Hc) as (y & Hy & Iy); [lia|].
  unfold upcoming. rewrite Hy. cbn [bind ret].
  eexists. split; [reflexivity|]. split.
  - apply (order_by_StronglySorted
             (fun r => instant (reminder_datetime r))).
  - intros r. unfold order_by_reminder, reminder_queryset.
    rewrite In_order_by, !filter_In, !andb_true_iff, negb_true_iff.
    unfold datetime_leb. rewrite !Z.leb_le, Z.eqb_eq, Iy. tauto.
Qed.

Lemma find_reminder_Some pk l r :
  find (fun x : EventReminder => r_id x =? pk) l = Some r ->
  In r l /\ r_id r = pk.
Proof.
  intros H. apply find_some in H as [Hin He]. apply Z.eqb_eq in He. auto.
Qed.

Lemma find_reminder_unique pk l r :
  NoDup (map r_id l) -> In r l -> r_id r = pk ->
  find (fun x : EventReminder => r_id x =? pk) l = Some r.
Proof.
  induction l as [|y l IH]; cbn [map In find]; intros Hnd Hin Hid;
    [contradiction|].
  inversion Hnd as [|? ? Hy Hl]; subst.
  destruct Hin as [-> | Hin].
  - rewrite Z.eqb_refl. reflexivity.
  - destruct (Z.eqb_spec (r_id y) (r_id r)) as [E | E]; [|auto].
    exfalso. apply Hy. rewrite E. apply in_map. exact Hin.
Qed.

Lemma NoDup_map_filter {A B} (key : A -> B) (f : A -> bool) (l : list A) :
  NoDup (map key l) -> NoDup (map key (filter f l)).
Proof.
  induction l as [|y l IH]; cbn [map filter]; intros Hnd; [constructor|].
  inversion Hnd as [|? ? Hy Hl]; subst.
  destruct (f y); cbn [map]; [|auto].
  constructor; [|auto]. intros Hin. apply Hy.
  apply in_map_iff in Hin as (x & Hx & Hin). apply filter_In in Hin as [Hin _].
  rewrite <- Hx. apply in_map. exact Hin.
Qed.

Lemma get_reminder_iff user pk s r :
  NoDup (map r_id (reminders s)) ->
  get_reminder user pk s = Ok r
  <-> In r (reminders s) /\ r_id r = pk /\ r_user r = user_id user.
Proof.
  intros Hnd. unfold get_reminder, reminder_queryset. split.
  - destruct (find _ _) as [x|] eqn:Hf; [|discriminate].
    intros [= <-]. apply find_reminder_Some in Hf as [Hin Hid].
    apply filter_In in Hin as [Hin Hu]. apply Z.eqb_eq in Hu. auto.
  - intros (Hin & Hid & Hu).
    rewrite (find_reminder_unique pk _ r); [reflexivity | | | exact Hid].
    + apply NoDup_map_filter. exact Hnd.
    + apply filter_In. split; [exact Hin|]. apply Z.eqb_eq. exact Hu.
Qed.

Lemma get_reminder_other_user user s r :
  NoDup (map r_id (reminders s)) -> In r (reminders s) ->
  r_user r <> user_id user ->
  get_reminder user (r_id r) s = Raise (no_match "EventReminder").
Proof.
  intros Hnd Hin Hne.
  destruct (get_reminder user (r_id r) s) as [x|ex] eqn:Hg.
  - apply get_reminder_iff in Hg as (Hx & Hid & Hu); [|exact Hnd].
    assert (x = r) by (apply (NoDup_map_key_inj r_id _ Hnd); auto).
    subst x. contradiction.
  - revert Hg. unfold get_reminder. destruct (find _ _); [discriminate|].
    intros [= <-]. reflexivity.
Qed.

(** Property X15.  A reminder of another user cannot be read, changed
    or deleted: retrieve, update, partial update and destroy answer 404
    and leave the store as it is, and neither the list nor [upcoming]
    shows it.  Its owner retrieves it. *)
Theorem reminders_of_others_are_hidden lib now user q s r :
  NoDup (map r_id (reminders s)) -> In r (reminders s) ->
  r_user r <> user_id user ->
  let not_found :=
    (Ok (mk_Response HTTP_404_NOT_FOUND
           (ErrorBody "detail" "No EventReminder matches the given query.")),
     s)
  in
  dispatch lib now user q (RemindersRetrieve (r_id r)) s = not_found
  /\ (forall d,
         dispatch lib now user q (RemindersUpdate (r_id r) d) s = not_found
         /\ dispatch lib now user q (RemindersPartialUpdate (r_id r) d) s
            = not_found)
  /\ dispatch lib now user q (RemindersDestroy (r_id r)) s = not_found
  /\ (forall rs,
         fst (dispatch lib now user q RemindersList s)
         = Ok (mk_Response HTTP_200_OK (ReminderList rs)) ->
         ~ In r rs)
  /\ (forall rs,
         fst (dispatch lib now user q RemindersUpcoming s)
         = Ok (mk_Response HTTP_200_OK (ReminderList rs)) ->
         ~ In r rs)
  /\ (forall owner,
         user_id owner = r_user r ->
         dispatch lib now owner q (RemindersRetrieve (r_id r)) s
         = (Ok (mk_Response HTTP_200_OK (ReminderDetail r)), s)).
Proof.
  intros Hnd Hin Hne not_found. subst not_found.
  pose proof (get_reminder_other_user user s r Hnd Hin Hne) as Hg.
  unfold dispatch, route, reminders_retrieve, reminders_update,
    reminders_destroy.
  rewrite Hg. cbn [bind handle_exception ret].
  split; [reflexivity|]. split; [intros d; split; reflexivity|].
  split; [reflexivity|]. split; [|split].
  - intros rs. unfold reminders_list. cbn [ret handle_exception fst].
    intros [= <-] Hr. apply In_order_by in Hr.
    apply filter_In in Hr as [_ Hu]. apply Z.eqb_eq in Hu. contradiction.
  - intros rs. unfold upcoming.
    destruct (datetime_add now (timedelta_hours 24)) as [y|ex];
      cbn [bind ret handle_exception fst].
    + intros [= <-] Hr. apply In_order_by in Hr.
      apply filter_In in Hr as [Hr _].
      apply filter_In in Hr as [_ Hu]. apply Z.eqb_eq in Hu. contradiction.
    + destruct ex; discriminate.
  - intros owner Ho.
    assert (Hgo : get_reminder owner (r_id r) s = Ok r).
    { apply get_reminder_iff; auto. }
    rewrite Hgo. reflexivity.
Qed.

Lemma find_app_none {A} (f : A -> bool) (l l' : list A) :
  (forall x, In x l -> f x = false) -> find f (l ++ l') = find f l'.
Proof.
  induction l as [|y l IH]; cbn [app find]; intros H; [reflexivity|].
  rewrite (H y) by (left; reflexivity). apply IH. intros x Hx. apply H.
  right. exact Hx.
Qed.

(** Property X16.  Creating a reminder takes its owner from the body,
    not from the acting user, and accepts any event that exists: the
    row is stored unsent under the next key, and when the owner is
    somebody else the creator cannot read it back.  A second reminder
    for the same event, user and time is refused with a 400. *)
Theorem reminder_create_takes_owner_from_body
        lib now user q d s ev us dt :
  rd_event d = Some ev -> rd_user d = Some us ->
  rd_reminder_datetime d = Some dt ->
  has_event_id ev (events s) = true ->
  (exists u, find_user us s = Some u) ->
  (forall x, In x (reminders s) -> r_id x < next_reminder_id s) ->
  let r := mk_EventReminder (next_reminder_id s) ev us dt false None in
  if existsb (same_reminder_key ev us dt) (reminders s)
  then
    dispatch lib now user q (RemindersCreate d) s
    = (Ok (mk_Response HTTP_400_BAD_REQUEST
             (ErrorBody "non_field_errors"
                "The fields event, user, reminder_datetime must make a unique set.")),
       s)
  else
    exists s',
      dispatch lib now user q (RemindersCreate d) s
      = (Ok (mk_Response HTTP_201_CREATED (ReminderDetail r)), s')
      /\ reminders s' = reminders s ++ [r]
      /\ next_reminder_id s' = next_reminder_id s + 1
      /\ events s' = events s /\ event_attendees s' = event_attendees s
      /\ users s' = users s
      /\ (us <> user_id user ->
          get_reminder user (r_id r) s' = Raise (no_match "EventReminder"))
      /\ (us = user_id user -> get_reminder user (r_id r) s' = Ok r).
Proof.
  intros Hev Hus Hdt Hhas (u & Hu) Hids r.
  unfold dispatch, route, reminders_create, EventReminderSerializer_is_valid.
  rewrite Hev, Hus, Hdt. unfold check_required, check_event_pk, check_user_pk.
  cbn [bind ret]. rewrite Hhas. cbn [bind ret]. rewrite Hu. cbn [bind ret].
  destruct (existsb (same_reminder_key ev us dt) (reminders s)) eqn:Hdup.
  - reflexivity.
  - cbn [ret handle_exception]. fold r. eexists. split; [reflexivity|].
    cbn [reminders next_reminder_id events event_attendees users].
    do 5 (split; [reflexivity|]).
    unfold get_reminder, reminder_queryset.
    cbn [reminders r_id r]. rewrite filter_app.
    rewrite find_app_none.
    2:{ intros x Hx. apply filter_In in Hx as [Hx _].
        apply Z.eqb_neq. specialize (Hids x Hx). lia. }
    cbn [filter r_user r]. split; intros Hown.
    + destruct (Z.eqb_spec us (user_id user)); [contradiction|]. reflexivity.
    + destruct (Z.eqb_spec us (user_id user)); [|contradiction].
      cbn [find r_id]. rewrite Z.eqb_refl. reflexivity.
Qed.

End ReminderViews.

(* ================================================================== *)
(** * Invariants of the tables                                      *)
(* ================================================================== *)

Module StoreInvariants.

Import DatetimeFacts BoundaryFacts QuerysetFacts Attendees FieldFacts EventStore
  Reminders PasswordReset Fixtures QuerysetExact CalendarViews EventWrites
  ReminderViews.

Lemma event_rows_same_tables s s' :
  map id (events s') = map id (events s) ->
  event_attendees s' = event_attendees s ->
  users s' = users s -> next_event_id s' = next_event_id s ->
  event_rows_consistent s -> event_rows_consistent s'.
Proof.
  unfold event_rows_consistent. intros -> -> -> ->. exact (fun H => H).
Qed.

Lemma find_user_uid i s u :
  find_user i s = Some u -> In i (map user_id (users s)).
Proof.
  intros H. apply find_user_Some in H as [Hin <-]. apply in_map. exact Hin.
Qed.

Lemma has_event_id_In i l :
  has_event_id i l = true <-> In i (map id l).
Proof.
  unfold has_event_id. rewrite existsb_exists, in_map_iff.
  split; intros (x & H1 & H2).
  - exists x. apply Z.eqb_eq in H2. auto.
  - exists x. split; [exact H2|]. apply Z.eqb_eq. exact H1.
Qed.

Lemma event_rows_attendees_add ev uid s :
  In ev (map id (events s)) -> In uid (map user_id (users s)) ->
  event_rows_consistent s -> event_rows_consistent (attendees_add ev uid s).
Proof.
  intros Hev Hu (H1 & H2 & H3 & H4).
  destruct (attendees_add_well_formed ev uid s (conj H1 H3)) as [_ Hnd].
  destruct (attendees_add_other_tables ev uid s) as (Eu & Ee & _ & _).
  destruct (attendees_add_next_ids ev uid s) as (En & _).
  cbv zeta in Eu, Ee. unfold event_rows_consistent.
  rewrite Ee, Eu, En. split; [exact H1|]. split; [exact H2|].
  split; [exact Hnd|].
  intros r Hr. apply attendees_add_rows_In in Hr as [Hr | ->]; [auto|].
  cbn [fst snd]. auto.
Qed.

Lemma event_rows_attendees_remove ev uid s :
  event_rows_consistent s ->
  event_rows_consistent (attendees_remove ev uid s).
Proof.
  intros (H1 & H2 & H3 & H4). destruct s as [us es rows rs ts n1 n2].
  unfold event_rows_consistent, attendees_remove.
  cbn [events event_attendees users next_event_id set_event_attendees] in *.
  split; [exact H1|]. split; [exact H2|].
  split; [apply NoDup_filter'; exact H3|].
  intros r Hr. apply filter_In in Hr as [Hr _]. auto.
Qed.

Lemma event_rows_attendees_set ev ids s :
  In ev (map id (events s)) ->
  (forall i, In i ids -> In i (map user_id (users s))) ->
  event_rows_consistent s -> event_rows_consistent (attendees_set ev ids s).
Proof.
  intros Hev Hids Hs. unfold attendees_set.
  set (s0 := set_event_attendees s _).
  assert (H0 : event_rows_consistent s0
               /\ events s0 = events s /\ users s0 = users s).
  { destruct Hs as (H1 & H2 & H3 & H4). subst s0.
    destruct s as [us es rows rs ts n1 n2].
    unfold event_rows_consistent.
    cbn [events event_attendees users next_event_id set_event_attendees] in *.
    split; [|auto]. split; [exact H1|]. split; [exact H2|].
    split; [apply NoDup_filter'; exact H3|].
    intros r Hr. apply filter_In in Hr as [Hr _]. auto. }
  clearbody s0. revert s0 H0.
  induction ids as [|i ids IH]; cbn [fold_left]; intros s0 (H0 & He & Hu);
    [exact H0|].
  destruct (attendees_add_other_tables ev i s0) as (Eu & Ee & _ & _).
  cbv zeta in Eu, Ee.
  apply IH.
  - intros j Hj. apply Hids. right. exact Hj.
  - split; [|split; congruence].
    apply event_rows_attendees_add; [rewrite He; exact Hev | | exact H0].
    rewrite Hu. apply Hids. left. reflexivity.
Qed.

Lemma event_rows_save_fresh now e s :
  event_rows_consistent s ->
  event_rows_consistent (snd (save now true e s))
  /\ id (fst (save now true e s)) = next_event_id s
  /\ In (next_event_id s) (map id (events (snd (save now true e s))))
  /\ users (snd (save now true e s)) = users s.
Proof.
  intros (H1 & H2 & H3 & H4). unfold save, event_rows_consistent.
  cbn [fst snd events event_attendees users next_event_id].
  rewrite map_app. cbn [map]. unfold pre_save. event_fields.
  split; [|split; [reflexivity|split; [|reflexivity]]].
  - split.
    { apply NoDup_app; [exact H1 | repeat constructor; intros [] |].
      intros x Hx [<- | []]. specialize (H2 _ Hx). lia. }
    split.
    { intros i Hi. apply in_app_iff in Hi as [Hi | [<- | []]];
        [specialize (H2 _ Hi)|]; lia. }
    split; [exact H3|].
    intros r Hr. destruct (H4 r Hr). split; [|assumption].
    apply in_or_app. left. assumption.
  - apply in_or_app. right. left. reflexivity.
Qed.

Lemma event_rows_save_existing now e s :
  event_rows_consistent s ->
  event_rows_consistent (snd (save now false e s))
  /\ id (fst (save now false e s)) = id e
  /\ map id (events (snd (save now false e s))) = map id (events s)
  /\ users (snd (save now false e s)) = users s.
Proof.
  intros Hs. unfold save. cbn [fst snd].
  assert (Hm : map id (replace_event (pre_save now e) (events s))
               = map id (events s)) by apply map_id_replace_event.
  split; [|split; [reflexivity|split; [|destruct s; reflexivity]]].
  - apply (event_rows_same_tables s); try (destruct s; reflexivity);
      [|exact Hs].
    destruct s; exact Hm.
  - destruct s; exact Hm.
Qed.

Lemma event_rows_delete pk s :
  event_rows_consistent s -> event_rows_consistent (delete_event pk s).
Proof.
  intros (H1 & H2 & H3 & H4). unfold event_rows_consistent, delete_event.
  cbn [events event_attendees users next_event_id].
  assert (Hsub : forall i,
             In i (map id (filter (fun e => negb (id e =? pk)) (events s)))
             <-> In i (map id (events s)) /\ i <> pk).
  { intros i. rewrite !in_map_iff. split.
    - intros (x & <- & Hx). apply filter_In in Hx as [Hx Hp].
      apply negb_true_iff, Z.eqb_neq in Hp. split; [eauto | exact Hp].
    - intros [(x & <- & Hx) Hp]. exists x. split; [reflexivity|].
      apply filter_In. split; [exact Hx|].
      apply negb_true_iff, Z.eqb_neq. exact Hp. }
  split; [apply NoDup_map_filter; exact H1|].
  split; [intros i Hi; apply Hsub in Hi as [Hi _]; auto|].
  split; [apply NoDup_filter'; exact H3|].
  intros r Hr. apply filter_In in Hr as [Hr Hp].
  apply negb_true_iff, Z.eqb_neq in Hp. destruct (H4 r Hr).
  split; [apply Hsub; auto | assumption].
Qed.

Lemma validated_attendees_exist s partial w d v ids :
  run_field_validation s partial w d = Ok v ->
  d_attendees v = Some ids ->
  forall i, In i ids -> In i (map user_id (users s)).
Proof.
  intros Hv Ha.
  destruct (run_field_validation_result _ _ _ _ _ Hv) as (Ev & _ & Hc).
  rewrite Ev in Ha. cbn [validated d_attendees] in Ha.
  destruct (check_attendees_Ok _ _ _ Hc) as [_ Hall].
  intros i Hi. destruct (Hall ids i Ha Hi) as [u Hf].
  exact (find_user_uid _ _ _ Hf).
Qed.

Lemma create_keeps_event_rows now user d s :
  event_rows_consistent s ->
  event_rows_consistent (snd (create now user d s)).
Proof.
  intros Hs. rewrite create_unfold.
  destruct (CalendarEventCreateSerializer_is_valid s false d) as [v|ex] eqn:Hv;
    [|exact Hs].
  unfold serializer_create.
  destruct (new_instance now (user_id user) v) as [inst|ex]; [|exact Hs].
  destruct (event_rows_save_fresh now inst s Hs) as (H1 & Hid & Hin & Hu).
  destruct (save now true inst s) as [e s1]. cbn [fst snd] in *.
  destruct (d_attendees v) as [ids|] eqn:Ha; cbn [snd]; [|exact H1].
  apply event_rows_attendees_set; [rewrite Hid; exact Hin | | exact H1].
  rewrite Hu. unfold CalendarEventCreateSerializer_is_valid in Hv.
  exact (validated_attendees_exist _ _ _ _ _ _ Hv Ha).
Qed.

Lemma update_keeps_event_rows lib now user q partial pk d s :
  event_rows_consistent s ->
  event_rows_consistent (snd (update lib now user q partial pk d s)).
Proof.
  intros Hs. rewrite update_unfold.
  destruct (get_object lib user q pk s) as [inst|ex] eqn:Hobj; [|exact Hs].
  destruct (CalendarEventSerializer_is_valid s partial d) as [v|ex] eqn:Hv;
    [|exact Hs].
  unfold serializer_update.
  destruct (event_rows_save_existing now (set_attrs inst v) s Hs)
    as (H1 & Hid & Hm & Hu).
  destruct (save now false (set_attrs inst v) s) as [e s1].
  cbn [fst snd] in *.
  destruct (d_attendees v) as [ids|] eqn:Ha; cbn [snd]; [|exact H1].
  apply event_rows_attendees_set; [| | exact H1].
  - rewrite Hm, Hid. cbn [set_attrs id].
    apply get_object_In in Hobj as [Hin _]. apply in_map. exact Hin.
  - rewrite Hu. unfold CalendarEventSerializer_is_valid in Hv.
    destruct (run_field_validation s partial true d) as [v0|] eqn:Hf;
      [|discriminate].
    cbn [bind] in Hv. apply validate_returns_data in Hv. subst v0.
    exact (validated_attendees_exist _ _ _ _ _ _ Hf Ha).
Qed.

Lemma route_keeps_event_rows lib now user q req s :
  event_rows_consistent s ->
  event_rows_consistent (snd (route lib now user q req s)).
Proof.
  intros Hs. destruct req; cbn [route snd]; try exact Hs.
  - apply create_keeps_event_rows. exact Hs.
  - apply update_keeps_event_rows. exact Hs.
  - apply update_keeps_event_rows. exact Hs.
  - unfold destroy. destruct (get_object lib user q pk s); cbn [snd];
      [|exact Hs].
    apply event_rows_delete. exact Hs.
  - unfold mark_completed.
    destruct (get_object lib user q pk s) as [ev|]; [|exact Hs].
    destruct (event_rows_save_existing now (with_is_completed ev true) s Hs)
      as (H1 & _).
    destruct (save now false (with_is_completed ev true) s). exact H1.
  - unfold add_attendee.
    destruct (get_object lib user q pk s) as [ev|] eqn:Hobj; cbn [snd];
      [|exact Hs].
    destruct (get_user lib target s) as [u|ex] eqn:Hu; cbn [snd].
    + apply event_rows_attendees_add; [| | exact Hs].
      * apply get_object_In in Hobj as [Hin _]. apply in_map. exact Hin.
      * unfold get_user in Hu.
        destruct (get_prep_value lib target) as [[i|]|]; cbn [bind] in Hu;
          try discriminate.
        unfold User_objects_get in Hu.
        destruct (find_user i s) as [u'|] eqn:Hf; [|discriminate].
        injection Hu as ->. apply find_user_Some in Hf as Hf'.
        destruct Hf' as [Hin _]. apply in_map. exact Hin.
    + destruct (is_DoesNotExist ex); exact Hs.
  - unfold remove_attendee.
    destruct (get_object lib user q pk s) as [ev|]; cbn [snd]; [|exact Hs].
    destruct (get_user lib target s) as [u|ex]; cbn [snd].
    + apply event_rows_attendees_remove. exact Hs.
    + destruct (is_DoesNotExist ex); exact Hs.
  - unfold reminders_create.
    destruct (EventReminderSerializer_is_valid s false None d)
      as [[[ev us] dt]|]; [|exact Hs].
    cbn [snd]. revert Hs. apply event_rows_same_tables; reflexivity.
  - unfold reminders_update. destruct (get_reminder user pk s) as [inst|];
      [|exact Hs].
    destruct (EventReminderSerializer_is_valid s false (Some inst) d)
      as [[[ev us] dt]|]; [|exact Hs].
    cbn [snd]. revert Hs. apply event_rows_same_tables; destruct s; reflexivity.
  - unfold reminders_update. destruct (get_reminder user pk s) as [inst|];
      [|exact Hs].
    destruct (EventReminderSerializer_is_valid s true (Some inst) d)
      as [[[ev us] dt]|]; [|exact Hs].
    cbn [snd]. revert Hs. apply event_rows_same_tables; destruct s; reflexivity.
  - unfold reminders_destroy. destruct (get_reminder user pk s) as [inst|];
      [|exact Hs].
    cbn [snd]. revert Hs. apply event_rows_same_tables; destruct s; reflexivity.
Qed.

Lemma same_reminder_key_true ev us dt r :
  same_reminder_key ev us dt r = true
  <-> r_event r = ev /\ r_user r = us
      /\ instant (reminder_datetime r) = instant dt.
Proof.
  unfold same_reminder_key. rewrite !andb_true_iff, !Z.eqb_eq. tauto.
Qed.

Lemma reminder_valid_create s d ev us dt :
  EventReminderSerializer_is_valid s false None d = Ok (ev, us, dt) ->
  In ev (map id (events s)) /\ In us (map user_id (users s))
  /\ existsb (same_reminder_key ev us dt) (reminders s) = false.
Proof.
  unfold EventReminderSerializer_is_valid, check_required, check_event_pk,
    check_user_pk, invalid_pk, not_unique, invalid, ret.
  destruct (rd_event d) as [e|]; cbn [bind]; [|discriminate].
  destruct (has_event_id e (events s)) eqn:He; cbn [bind]; [|discriminate].
  destruct (rd_user d) as [u|]; cbn [bind]; [|discriminate].
  destruct (find_user u s) as [usr|] eqn:Hu; cbn [bind]; [|discriminate].
  destruct (rd_reminder_datetime d) as [t|]; cbn [bind]; [|discriminate].
  destruct (existsb _ _) eqn:Hex; [discriminate|].
  intros [= <- <- <-]. split; [apply has_event_id_In; exact He|].
  split; [exact (find_user_uid _ _ _ Hu) | exact Hex].
Qed.

Lemma reminder_valid_update s partial inst d ev us dt :
  EventReminderSerializer_is_valid s partial (Some inst) d = Ok (ev, us, dt) ->
  In (r_event inst) (map id (events s)) ->
  In (r_user inst) (map user_id (users s)) ->
  In ev (map id (events s)) /\ In us (map user_id (users s))
  /\ existsb (fun x => same_reminder_key ev us dt x
                       && negb (r_id x =? r_id inst)) (reminders s) = false.
Proof.
  intros Hv Hie Hiu. revert Hv.
  unfold EventReminderSerializer_is_valid.
  destruct (check_required "event" partial (rd_event d)) as [oe|] eqn:H1;
    cbn [bind]; [|discriminate].
  destruct (check_event_pk s oe) as [oe'|] eqn:H2; cbn [bind]; [|discriminate].
  destruct (check_required "user" partial (rd_user d)) as [ou|] eqn:H3;
    cbn [bind]; [|discriminate].
  destruct (check_user_pk s ou) as [ou'|] eqn:H4; cbn [bind]; [|discriminate].
  destruct (check_required "reminder_datetime" partial
              (rd_reminder_datetime d)) as [ot|] eqn:H5;
    cbn [bind]; [|discriminate].
  cbv zeta. unfold not_unique, invalid.
  destruct (existsb _ _) eqn:Hex; [discriminate|].
  unfold ret. intros [= <- <- <-].
  split; [|split; [|exact Hex]].
  - unfold check_event_pk, invalid_pk, invalid, ret in H2. destruct oe as [e|].
    + destruct (has_event_id e (events s)) eqn:He; [|discriminate].
      injection H2 as <-. cbn [opt_or]. apply has_event_id_In. exact He.
    + injection H2 as <-. exact Hie.
  - unfold check_user_pk, invalid_pk, invalid, ret in H4. destruct ou as [u|].
    + destruct (find_user u s) as [usr|] eqn:Hu; [|discriminate].
      injection H4 as <-. cbn [opt_or]. exact (find_user_uid _ _ _ Hu).
    + injection H4 as <-. exact Hiu.
Qed.

Lemma map_r_id_replace_reminder r l :
  map r_id (replace_reminder r l) = map r_id l.
Proof.
  induction l as [|x l IH]; cbn [replace_reminder map]; [reflexivity|].
  destruct (Z.eqb_spec (r_id x) (r_id r)) as [E | E]; cbn [map].
  - congruence.
  - rewrite IH. reflexivity.
Qed.

Lemma In_replace_reminder_inv r l x :
  NoDup (map r_id l) ->
  In x (replace_reminder r l) ->
  x = r \/ (In x l /\ r_id x <> r_id r).
Proof.
  induction l as [|y l IH]; cbn [replace_reminder map In]; intros Hnd;
    [tauto|].
  inversion Hnd as [|? ? Hy Hl]; subst.
  destruct (Z.eqb_spec (r_id y) (r_id r)) as [E | E]; cbn [In].
  - intros [<- | Hx]; [auto|]. right. split; [auto|].
    intros Hxe. apply Hy. rewrite E, <- Hxe. apply in_map. exact Hx.
  - intros [<- | Hx]; [auto|]. destruct (IH Hl Hx) as [-> | [H1 H2]]; auto.
Qed.

Lemma reminder_rows_same_tables s s' :
  reminders s' = reminders s -> next_reminder_id s' = next_reminder_id s ->
  (forall i, In i (map id (events s)) -> In i (map id (events s'))) ->
  users s' = users s ->
  reminder_rows_consistent s -> reminder_rows_consistent s'.
Proof.
  unfold reminder_rows_consistent. intros -> -> He -> (H1 & H2 & H3 & H4).
  split; [exact H1|]. split; [exact H2|]. split; [exact H3|].
  intros r Hr. destruct (H4 r Hr). auto.
Qed.

Lemma reminders_create_keeps_rows d s :
  reminder_rows_consistent s ->
  reminder_rows_consistent (snd (reminders_create d s)).
Proof.
  intros Hs. unfold reminders_create.
  destruct (EventReminderSerializer_is_valid s false None d)
    as [[[ev us] dt]|] eqn:Hv; [|exact Hs].
  apply reminder_valid_create in Hv as (Hev & Hus & Hex).
  destruct Hs as (H1 & H2 & H3 & H4). unfold reminder_rows_consistent.
  cbn [snd reminders next_reminder_id events users].
  set (r := mk_EventReminder (next_reminder_id s) ev us dt false None).
  rewrite map_app. cbn [map r_id r].
  assert (Hnew : forall x, In x (reminders s) ->
                           same_reminder_key ev us dt x = false).
  { intros x Hx. destruct (same_reminder_key ev us dt x) eqn:E; [|reflexivity].
    assert (existsb (same_reminder_key ev us dt) (reminders s) = true)
      by (apply existsb_exists; eauto).
    congruence. }
  split.
  { apply NoDup_app; [exact H1 | repeat constructor; intros [] |].
    intros x Hx [<- | []]. specialize (H2 _ Hx). lia. }
  split.
  { intros i Hi. apply in_app_iff in Hi as [Hi | [<- | []]];
      [specialize (H2 _ Hi)|]; lia. }
  split.
  { intros a b Ha Hb Ee Eu Et.
    apply in_app_iff in Ha as [Ha | [<- | []]];
      apply in_app_iff in Hb as [Hb | [<- | []]]; [auto | | | reflexivity].
    - specialize (Hnew a Ha).
      assert (same_reminder_key ev us dt a = true)
        by (apply same_reminder_key_true; cbn in *; auto).
      congruence.
    - specialize (Hnew b Hb).
      assert (same_reminder_key ev us dt b = true)
        by (apply same_reminder_key_true; cbn in *; auto).
      congruence. }
  intros x Hx. apply in_app_iff in Hx as [Hx | [<- | []]]; [auto|].
  cbn [r_event r_user r]. auto.
Qed.

Lemma reminders_update_keeps_rows user partial pk d s :
  reminder_rows_consistent s ->
  reminder_rows_consistent (snd (reminders_update user partial pk d s)).
Proof.
  intros Hs. unfold reminders_update.
  destruct (get_reminder user pk s) as [inst|] eqn:Hg; [|exact Hs].
  destruct (EventReminderSerializer_is_valid s partial (Some inst) d)
    as [[[ev us] dt]|] eqn:Hv; [|exact Hs].
  destruct Hs as (H1 & H2 & H3 & H4).
  apply get_reminder_In in Hg as Hin. destruct (H4 inst Hin) as [Hie Hiu].
  apply reminder_valid_update in Hv as (Hev & Hus & Hex); [|assumption..].
  unfold reminder_rows_consistent.
  set (r := mk_EventReminder (r_id inst) ev us dt (is_sent inst)
              (sent_at inst)).
  assert (Hnew : forall x, In x (reminders s) -> r_id x <> r_id inst ->
                           same_reminder_key ev us dt x = false).
  { intros x Hx Hne. destruct (same_reminder_key ev us dt x) eqn:E;
      [|reflexivity].
    assert (existsb (fun x => same_reminder_key ev us dt x
                              && negb (r_id x =? r_id inst)) (reminders s)
            = true).
    { apply existsb_exists. exists x. split; [exact Hx|]. rewrite E.
      apply negb_true_iff, Z.eqb_neq. exact Hne. }
    congruence. }
  destruct s as [usr es rows rs ts n1 n2].
  cbn [snd reminders next_reminder_id events users set_reminders] in *.
  rewrite map_r_id_replace_reminder.
  split; [exact H1|]. split; [exact H2|]. split.
  { intros a b Ha Hb Ee Eu Et.
    apply (In_replace_reminder_inv r rs a H1) in Ha.
    apply (In_replace_reminder_inv r rs b H1) in Hb.
    destruct Ha as [-> | [Ha Hna]], Hb as [-> | [Hb Hnb]];
      [reflexivity | | | auto].
    - specialize (Hnew b Hb Hnb).
      assert (same_reminder_key ev us dt b = true)
        by (apply same_reminder_key_true; cbn in *; auto).
      congruence.
    - specialize (Hnew a Ha Hna).
      assert (same_reminder_key ev us dt a = true)
        by (apply same_reminder_key_true; cbn in *; auto).
      congruence. }
  intros x Hx. apply (In_replace_reminder_inv r rs x H1) in Hx.
  destruct Hx as [-> | [Hx _]]; [|auto]. cbn [r_event r_user r]. auto.
Qed.

Lemma reminder_rows_filter (f : EventReminder -> bool) s :
  reminder_rows_consistent s ->
  reminder_rows_consistent (set_reminders s (filter f (reminders s))).
Proof.
  intros (H1 & H2 & H3 & H4). unfold reminder_rows_consistent.
  destruct s as [usr es rows rs ts n1 n2].
  cbn [reminders next_reminder_id events users set_reminders] in *.
  split; [apply NoDup_map_filter; exact H1|].
  split.
  { intros i Hi. apply H2. apply in_map_iff in Hi as (x & <- & Hx).
    apply filter_In in Hx as [Hx _]. apply in_map. exact Hx. }
  split.
  { intros a b Ha Hb. apply filter_In in Ha as [Ha _].
    apply filter_In in Hb as [Hb _]. auto. }
  intros x Hx. apply filter_In in Hx as [Hx _]. auto.
Qed.

Lemma reminder_rows_delete_event pk s :
  reminder_rows_consistent s -> reminder_rows_consistent (delete_event pk s).
Proof.
  intros (H1 & H2 & H3 & H4). unfold reminder_rows_consistent, delete_event.
  cbn [reminders next_reminder_id events users].
  split; [apply NoDup_map_filter; exact H1|].
  split.
  { intros i Hi. apply H2. apply in_map_iff in Hi as (x & <- & Hx).
    apply filter_In in Hx as [Hx _]. apply in_map. exact Hx. }
  split.
  { intros a b Ha Hb. apply filter_In in Ha as [Ha _].
    apply filter_In in Hb as [Hb _]. auto. }
  intros x Hx. apply filter_In in Hx as [Hx Hp].
  apply negb_true_iff, Z.eqb_neq in Hp. destruct (H4 x Hx) as [He Hu].
  split; [|exact Hu].
  apply in_map_iff in He as (e & Hid & He). apply in_map_iff. exists e.
  split; [exact Hid|]. apply filter_In. split; [exact He|].
  apply negb_true_iff, Z.eqb_neq. congruence.
Qed.

Lemma reminder_rows_save_existing now e s :
  reminder_rows_consistent s ->
  reminder_rows_consistent (snd (save now false e s)).
Proof.
  apply reminder_rows_same_tables; unfold save; destruct s;
    cbn [snd set_events reminders next_reminder_id users events]; auto.
  intros i Hi. rewrite map_id_replace_event. exact Hi.
Qed.

Lemma reminder_rows_attendees_set ev ids s :
  reminder_rows_consistent s ->
  reminder_rows_consistent (attendees_set ev ids s).
Proof.
  destruct (attendees_set_other_tables ev ids s) as (Hu & He & Hr & _).
  destruct (attendees_set_next_ids ev ids s) as (_ & Hn).
  cbv zeta in *. apply reminder_rows_same_tables; try congruence.
Qed.

Lemma update_keeps_reminder_rows lib now user q partial pk d s :
  reminder_rows_consistent s ->
  reminder_rows_consistent (snd (update lib now user q partial pk d s)).
Proof.
  intros Hs. rewrite update_unfold.
  destruct (get_object lib user q pk s) as [inst|]; [|exact Hs].
  destruct (CalendarEventSerializer_is_valid s partial d) as [v|];
    [|exact Hs].
  unfold serializer_update.
  pose proof (reminder_rows_save_existing now (set_attrs inst v) s Hs) as H1.
  destruct (save now false (set_attrs inst v) s) as [e s1]. cbn [snd] in *.
  destruct (d_attendees v) as [ids|]; cbn [snd]; [|exact H1].
  apply reminder_rows_attendees_set. exact H1.
Qed.

Lemma route_keeps_reminder_rows lib now user q req s :
  reminder_rows_consistent s ->
  reminder_rows_consistent (snd (route lib now user q req s)).
Proof.
  intros Hs. destruct req; cbn [route snd]; try exact Hs.
  - revert Hs. rewrite create_unfold.
    destruct (CalendarEventCreateSerializer_is_valid s false d) as [v|];
      [|exact (fun H => H)].
    unfold serializer_create.
    destruct (new_instance now (user_id user) v) as [inst|];
      [|exact (fun H => H)].
    pose proof (save_other_tables now true inst s) as (Hu & _ & Hr & _).
    assert (Hn : next_reminder_id (snd (save now true inst s))
                 = next_reminder_id s) by reflexivity.
    assert (He : forall i, In i (map id (events s)) ->
                           In i (map id (events (snd (save now true inst s))))).
    { intros i Hi. unfold save. cbn [snd events]. rewrite map_app.
      apply in_or_app. left. exact Hi. }
    destruct (save now true inst s) as [e s1]. cbn [snd] in *.
    destruct (d_attendees v) as [ids|]; cbn [snd].
    + destruct (attendees_set_other_tables (id e) ids s1)
        as (Hu' & He' & Hr' & _).
      destruct (attendees_set_next_ids (id e) ids s1) as (_ & Hn').
      cbv zeta in *. apply reminder_rows_same_tables; try congruence.
      rewrite He'. exact He.
    + apply reminder_rows_same_tables; assumption.
  - apply update_keeps_reminder_rows. exact Hs.
  - apply update_keeps_reminder_rows. exact Hs.
  - unfold destroy. destruct (get_object lib user q pk s); cbn [snd];
      [|exact Hs].
    apply reminder_rows_delete_event. exact Hs.
  - unfold mark_completed.
    destruct (get_object lib user q pk s) as [ev|]; [|exact Hs].
    pose proof (reminder_rows_save_existing now (with_is_completed ev true)
                  s Hs) as H1.
    destruct (save now false (with_is_completed ev true) s). exact H1.
  - unfold add_attendee.
    destruct (get_object lib user q pk s) as [ev|]; cbn [snd]; [|exact Hs].
    destruct (get_user lib target s) as [u|ex]; cbn [snd].
    + destruct (attendees_add_other_tables (id ev) (user_id u) s)
        as (Hu & He & Hr & _).
      destruct (attendees_add_next_ids (id ev) (user_id u) s) as (_ & Hn).
      cbv zeta in *. revert Hs.
      apply reminder_rows_same_tables; try congruence.
    + destruct (is_DoesNotExist ex); exact Hs.
  - unfold remove_attendee.
    destruct (get_object lib user q pk s) as [ev|]; cbn [snd]; [|exact Hs].
    destruct (get_user lib target s) as [u|ex]; cbn [snd].
    + revert Hs. apply reminder_rows_same_tables; destruct s; auto.
    + destruct (is_DoesNotExist ex); exact Hs.
  - apply reminders_create_keeps_rows. exact Hs.
  - apply reminders_update_keeps_rows. exact Hs.
  - apply reminders_update_keeps_rows. exact Hs.
  - unfold reminders_destroy. destruct (get_reminder user pk s) as [inst|];
      [|exact Hs].
    cbn [snd]. apply reminder_rows_filter. exact Hs.
Qed.

Lemma run_keeps lib now user (P : Store -> Prop) :
  (forall q req s, P s -> P (snd (route lib now user q req s))) ->
  forall reqs s, P s -> P (run lib now user reqs s).
Proof.
  intros Hstep. induction reqs as [|[q r] reqs IH]; cbn [run]; intros s Hs;
    [exact Hs|].
  apply IH. rewrite dispatch_store. apply Hstep. exact Hs.
Qed.

(** Property X12.  Every request of the calendar API, and so every run
    of requests, keeps the event tables consistent: unique primary keys
    below the next key, no duplicate attendee row, and every attendee
    row naming an event and a user that exist. *)
Theorem requests_keep_event_rows_consistent lib s :
  event_rows_consistent s ->
  (forall now user q req,
      event_rows_consistent (snd (dispatch lib now user q req s)))
  /\ (forall now user reqs, event_rows_consistent (run lib now user reqs s)).
Proof.
  intros Hs. split.
  - intros. rewrite dispatch_store. apply route_keeps_event_rows. exact Hs.
  - intros. apply (run_keeps lib now user event_rows_consistent); [|exact Hs].
    intros. apply route_keeps_event_rows. assumption.
Qed.

(** Property X17.  Every request of the calendar API, and so every run
    of requests, keeps the reminder table consistent: unique primary
    keys below the next key, at most one reminder per event, user and
    time, and every reminder naming an event and a user that exist. *)
Theorem requests_keep_reminder_rows_consistent lib s :
  reminder_rows_consistent s ->
  (forall now user q req,
      reminder_rows_consistent (snd (dispatch lib now user q req s)))
  /\ (forall now user reqs,
         reminder_rows_consistent (run lib now user reqs s)).
Proof.
  intros Hs. split.
  - intros. rewrite dispatch_store. apply route_keeps_reminder_rows. exact Hs.
  - intros. apply (run_keeps lib now user reminder_rows_consistent);
      [|exact Hs].
    intros. apply route_keeps_reminder_rows. assumption.
Qed.

End StoreInvariants.

(* ================================================================== *)
(** * Past and ongoing events                                       *)
(* ================================================================== *)

Module EventClock.

Import DatetimeFacts BoundaryFacts QuerysetFacts Attendees EventStore Reminders
  PasswordReset Fixtures QuerysetExact CalendarViews EventWrites ReminderViews StoreInvariants.

(** Property X18.  An event that is past is not ongoing, at the same
    reading of the clock or a later one, and stays past; an event whose
    end is not after its start is ongoing at most at one instant; an
    event that is neither past nor ongoing has not started. *)
Theorem past_excludes_ongoing now1 now2 e :
  instant now1 <= instant now2 ->
  (is_past now1 e = true -> is_ongoing now2 e = false)
  /\ (is_past now1 e = true -> is_past now2 e = true)
  /\ (is_ongoing now1 e = true ->
      instant (start_datetime e) <= instant (end_datetime e))
  /\ (clean e <> Ok tt -> is_ongoing now1 e = true ->
      instant now1 = instant (start_datetime e)
      /\ instant now1 = instant (end_datetime e))
  /\ (is_past now1 e = false -> is_ongoing now1 e = false ->
      instant now1 < instant (start_datetime e)).
Proof.
  intros Hle. unfold is_past, is_ongoing, clean, datetime_ltb, datetime_leb.
  destruct (Z.leb_spec (instant (end_datetime e))
              (instant (start_datetime e))) as [Hc | Hc];
    rewrite !Z.ltb_lt, !Z.ltb_ge, !andb_true_iff, !andb_false_iff, !Z.leb_le,
      !Z.leb_gt.
  - repeat split; try lia.
  - split; [lia|]. split; [lia|]. split; [lia|]. split; [|lia].
    intros Hne. exfalso. apply Hne. reflexivity.
Qed.

End EventClock.

(* ================================================================== *)
(** * Use of reset tokens                                           *)
(* ================================================================== *)

Module ResetTokens.

Import DatetimeFacts BoundaryFacts QuerysetFacts Attendees EventStore Reminders
  PasswordReset Fixtures QuerysetExact CalendarViews EventWrites ReminderViews StoreInvariants EventClock.

Lemma NoDup_map_inj {A B} (f : A -> B) (l : list A) :
  NoDup (map f l) -> forall a b, In a l -> In b l -> f a = f b -> a = b.
Proof.
  induction l as [|x l IH]; cbn [map In]; intros Hnd a b Ha Hb Hk;
    [contradiction|].
  inversion Hnd as [|? ? Hx Hl]; subst.
  destruct Ha as [-> | Ha], Hb as [-> | Hb]; [reflexivity | | | auto].
  - exfalso. apply Hx. rewrite Hk. apply in_map. exact Hb.
  - exfalso. apply Hx. rewrite <- Hk. apply in_map. exact Ha.
Qed.

Lemma get_reset_token_Some tok s t :
  get_reset_token tok s = Some t -> In t (reset_tokens s) /\ token t = tok.
Proof.
  unfold get_reset_token. intros H. apply find_some in H as [Hin He].
  apply String.eqb_eq in He. auto.
Qed.

Lemma get_reset_token_None tok s :
  get_reset_token tok s = None
  <-> forall x, In x (reset_tokens s) -> token x <> tok.
Proof.
  unfold get_reset_token. split.
  - intros H x Hx E. apply (find_none _ _ H) in Hx.
    apply String.eqb_neq in Hx. contradiction.
  - intros H. destruct (find _ _) as [x|] eqn:Hf; [|reflexivity].
    apply find_some in Hf as [Hin He]. apply String.eqb_eq in He.
    exfalso. exact (H x Hin He).
Qed.

Lemma set_password_tables mk uid pw s :
  reset_tokens (set_password mk uid pw s) = reset_tokens s
  /\ events (set_password mk uid pw s) = events s
  /\ event_attendees (set_password mk uid pw s) = event_attendees s
  /\ reminders (set_password mk uid pw s) = reminders s
  /\ next_event_id (set_password mk uid pw s) = next_event_id s
  /\ next_reminder_id (set_password mk uid pw s) = next_reminder_id s
  /\ map user_id (users (set_password mk uid pw s)) = map user_id (users s).
Proof.
  unfold set_password. destruct s as [us ? ? ? ? ? ?].
  cbn [set_users users reset_tokens events event_attendees reminders
         next_event_id next_reminder_id].
  repeat (split; [reflexivity|]).
  rewrite map_map. apply map_ext. intros u.
  destruct (user_id u =? uid); reflexivity.
Qed.

Lemma delete_reset_token_tables t s :
  users (delete_reset_token t s) = users s
  /\ events (delete_reset_token t s) = events s
  /\ event_attendees (delete_reset_token t s) = event_attendees s
  /\ reminders (delete_reset_token t s) = reminders s
  /\ next_event_id (delete_reset_token t s) = next_event_id s
  /\ next_reminder_id (delete_reset_token t s) = next_reminder_id s.
Proof. unfold delete_reset_token. destruct s. cbn. auto 10. Qed.

Lemma delete_reset_token_In t s x :
  In x (reset_tokens (delete_reset_token t s))
  <-> In x (reset_tokens s) /\ t_id x <> t_id t.
Proof.
  unfold delete_reset_token. destruct s; cbn [reset_tokens set_reset_tokens].
  rewrite filter_In, negb_true_iff, Z.eqb_neq. tauto.
Qed.

(** What a reset that finds its token leaves in the token table. *)
Lemma reset_password_post_tokens mk now d s tok pw t :
  ResetPasswordSerializer_is_valid d = Ok (tok, pw) ->
  get_reset_token tok s = Some t ->
  (exists u, find_user (t_user t) s = Some u) ->
  forall x,
    In x (reset_tokens (snd (reset_password_post mk now d s)))
    <-> In x (reset_tokens s) /\ t_id x <> t_id t.
Proof.
  intros Hv Ht (u & Hu) x. unfold reset_password_post. rewrite Hv, Ht.
  destruct (is_expired now t); cbn [snd].
  - apply delete_reset_token_In.
  - rewrite Hu. cbn [snd]. rewrite delete_reset_token_In.
    destruct (set_password_tables mk (user_id u) pw s) as (-> & _). tauto.
Qed.

(** Property X19.  With unique token strings, a reset that finds its
    token consumes it, whether it is expired or not: the same request
    again answers 400 "Invalid token" and changes nothing, and the other
    tokens stay. *)
Theorem reset_token_is_single_use mk now now' d s tok pw t :
  NoDup (map token (reset_tokens s)) ->
  ResetPasswordSerializer_is_valid d = Ok (tok, pw) ->
  get_reset_token tok s = Some t ->
  (exists u, find_user (t_user t) s = Some u) ->
  let s1 := snd (reset_password_post mk now d s) in
  get_reset_token tok s1 = None
  /\ reset_password_post mk now' d s1
     = (Ok (mk_DetailResponse HTTP_400_BAD_REQUEST "Invalid token"), s1)
  /\ (forall x, In x (reset_tokens s1) -> In x (reset_tokens s))
  /\ (forall x, In x (reset_tokens s) -> t_id x <> t_id t ->
                In x (reset_tokens s1)).
Proof.
  intros Hnd Hv Ht Hu s1.
  pose proof (reset_password_post_tokens mk now d s tok pw t Hv Ht Hu) as Hx.
  fold s1 in Hx. apply get_reset_token_Some in Ht as Ht'.
  destruct Ht' as [Hin Htok].
  assert (Hnone : get_reset_token tok s1 = None).
  { apply get_reset_token_None. intros x Hx1 E. apply Hx in Hx1 as [Hx1 Hne].
    apply Hne. f_equal.
    apply (NoDup_map_inj token _ Hnd); [exact Hx1 | exact Hin | congruence]. }
  split; [exact Hnone|]. split.
  - unfold reset_password_post. rewrite Hv, Hnone. reflexivity.
  - split; intros x; [intros H; apply Hx in H; tauto|].
    intros H1 H2. apply Hx. auto.
Qed.

(** Property X20.  A reset request touches nothing but the token table
    and one password: events, attendees and reminders stay, no user is
    added or removed, no token is added, and a user that differs from
    before is the owner of the presented, unexpired token with the new
    password hashed.  An unknown token answers 400 "Invalid token" and
    leaves the store as it is. *)
Theorem reset_changes_one_password_only mk now d s :
  let s1 := snd (reset_password_post mk now d s) in
  events s1 = events s /\ event_attendees s1 = event_attendees s
  /\ reminders s1 = reminders s
  /\ map user_id (users s1) = map user_id (users s)
  /\ (forall x, In x (reset_tokens s1) -> In x (reset_tokens s))
  /\ (forall u,
         In u (users s1) ->
         In u (users s)
         \/ exists tok pw t u0,
             ResetPasswordSerializer_is_valid d = Ok (tok, pw)
             /\ get_reset_token tok s = Some t
             /\ is_expired now t = false
             /\ In u0 (users s) /\ user_id u0 = t_user t
             /\ u = mk_User (user_id u0) (username u0) (email u0) (mk pw))
  /\ (forall tok pw,
         ResetPasswordSerializer_is_valid d = Ok (tok, pw) ->
         get_reset_token tok s = None ->
         reset_password_post mk now d s
         = (Ok (mk_DetailResponse HTTP_400_BAD_REQUEST "Invalid token"), s)).
Proof.
  intros s1. subst s1. unfold reset_password_post.
  destruct (ResetPasswordSerializer_is_valid d) as [[tok pw]|ex] eqn:Hv;
    cbn [snd]; [|repeat split; auto; discriminate].
  destruct (get_reset_token tok s) as [t|] eqn:Ht; cbn [snd].
  2:{ repeat split; auto. }
  destruct (is_expired now t) eqn:Hexp; cbn [snd].
  - destruct (delete_reset_token_tables t s) as (-> & -> & -> & -> & _).
    repeat split; auto.
    + intros x Hx. apply delete_reset_token_In in Hx. tauto.
    + intros tok' pw' [= <- <-]. rewrite Ht. discriminate.
  - destruct (find_user (t_user t) s) as [u0|] eqn:Hu; cbn [snd].
    2:{ repeat split; auto. intros tok' pw' [= <- <-]. rewrite Ht.
        discriminate. }
    destruct (delete_reset_token_tables t
                (set_password mk (user_id u0) pw s))
      as (-> & -> & -> & -> & _).
    destruct (set_password_tables mk (user_id u0) pw s)
      as (Et & -> & -> & -> & _ & _ & ->).
    do 4 (split; [reflexivity|]).
    split.
    { intros x Hx. apply delete_reset_token_In in Hx as [Hx _].
      rewrite Et in Hx. exact Hx. }
    split.
    { intros u Hin. unfold set_password in Hin. destruct s as [us ? ? ? ? ? ?].
      cbn [users set_users] in *. apply in_map_iff in Hin as (x & <- & Hx).
      destruct (Z.eqb_spec (user_id x) (user_id u0)) as [E | E]; [|auto].
      right. exists tok, pw, t, x. apply find_user_Some in Hu as [_ Hid].
      repeat split; auto. congruence. }
    intros tok' pw' [= <- <-]. rewrite Ht. discriminate.
Qed.

End ResetTokens.

(* ================================================================== *)
(** * Forgot password, then reset                                   *)
(* ================================================================== *)

Module ForgotPassword.

Import DatetimeFacts BoundaryFacts QuerysetFacts Attendees EventStore Reminders
  PasswordReset Fixtures QuerysetExact CalendarViews EventWrites ReminderViews StoreInvariants EventClock ResetTokens.

Lemma datetime_add_instant x td :
  valid_clock x ->
  0 <= td_seconds td < 86400 -> 0 <= td_microseconds td < 1000000 ->
  1 <= toordinal (dt_date x) + td_days td ->
  toordinal (dt_date x) + td_days td < MAXORDINAL ->
  exists y,
    datetime_add x td = Ok y
    /\ instant y = instant x + td_total_microseconds td.
Proof.
  intros (Hh & Hm & Hs & Hu) Hts Htu Hlo Hhi. unfold datetime_add.
  unfold td_add, new_timedelta, divmod.
  cbn [td_days td_seconds td_microseconds].
  set (secs := hour (dt_time x) * 3600 + minute (dt_time x) * 60
               + second (dt_time x)).
  assert (Hsecs : 0 <= secs < 86400) by (unfold secs; lia).
  assert (E1 : microsecond (dt_time x) / 1000000 = 0)
    by (apply Z.div_small; lia).
  assert (E2 : microsecond (dt_time x) mod 1000000 = microsecond (dt_time x))
    by (apply Z.mod_small; lia).
  rewrite E1, E2, !Z.add_0_r.
  assert (E3 : secs / 86400 = 0) by (apply Z.div_small; lia).
  assert (E4 : secs mod 86400 = secs) by (apply Z.mod_small; lia).
  rewrite E3, E4, !Z.add_0_r.
  set (ord := toordinal (dt_date x)) in *.
  set (us := microsecond (dt_time x)) in *.
  set (c1 := (us + td_microseconds td) / 1000000).
  set (u1 := (us + td_microseconds td) mod 1000000).
  assert (Hc1 : us + td_microseconds td = 1000000 * c1 + u1
                /\ 0 <= u1 < 1000000 /\ 0 <= c1 <= 1).
  { unfold c1, u1.
    pose proof (Z.div_mod (us + td_microseconds td) 1000000 ltac:(lia)).
    pose proof (Z.mod_pos_bound (us + td_microseconds td) 1000000 ltac:(lia)).
    lia. }
  set (c2 := (secs + td_seconds td + c1) / 86400).
  set (s2 := (secs + td_seconds td + c1) mod 86400).
  assert (Hc2 : secs + td_seconds td + c1 = 86400 * c2 + s2
                /\ 0 <= s2 < 86400 /\ 0 <= c2 <= 1).
  { unfold c2, s2.
    pose proof (Z.div_mod (secs + td_seconds td + c1) 86400 ltac:(lia)).
    pose proof (Z.mod_pos_bound (secs + td_seconds td + c1) 86400 ltac:(lia)).
    lia. }
  clearbody c1 u1 c2 s2.
  destruct (Z.ltb_spec 0 (ord + td_days td + c2)); [|lia].
  destruct (Z.leb_spec (ord + td_days td + c2) MAXORDINAL); [|lia].
  cbn [andb]. eexists. split; [reflexivity|].
  unfold instant, dt_seconds_of_day, combine, td_total_microseconds.
  cbn [dt_date dt_time hour minute second microsecond].
  rewrite toordinal_fromordinal by lia. fold ord us secs.
  pose proof (Z.div_mod s2 3600 ltac:(lia)).
  pose proof (Z.div_mod (s2 mod 3600) 60 ltac:(lia)).
  unfold secs in *. lia.
Qed.

Lemma timedelta_minutes_15 : timedelta_minutes 15 = mk_timedelta 0 900 0.
Proof. reflexivity. Qed.

Lemma get_reset_token_appended tok s row :
  (forall x, In x (reset_tokens s) -> token x <> tok) ->
  token row = tok ->
  get_reset_token tok (set_reset_tokens s (reset_tokens s ++ [row]))
  = Some row.
Proof.
  intros Hnew Hrow. unfold get_reset_token. destruct s as [? ? ? ? ts ? ?].
  cbn [reset_tokens set_reset_tokens] in *.
  rewrite find_app_none.
  - cbn [find]. rewrite Hrow, String.eqb_refl. reflexivity.
  - intros x Hx. apply String.eqb_neq. auto.
Qed.

Lemma existsb_token_false tok (ts : list PasswordResetToken) :
  (forall x, In x ts -> token x <> tok) ->
  existsb (fun t => String.eqb (token t) tok) ts = false.
Proof.
  intros H. destruct (existsb _ ts) eqn:E; [|reflexivity].
  apply existsb_exists in E as (x & Hx & He). apply String.eqb_eq in He.
  exfalso. exact (H x Hx He).
Qed.

Lemma users_with_email_In address s u :
  In u (users_with_email address s) -> In u (users s).
Proof. unfold users_with_email. intros H. apply filter_In in H. tauto. Qed.

(** Property X21.  For an address that one user has, a forgot-password
    request stores a token for that user that expires 15 minutes later,
    leaves users and earlier tokens alone, and sends one mail with the
    reset link to that address.  A reset with that token and a valid
    password succeeds up to the expiry, the instant itself included, and
    sets the password of that user; later it answers "Token expired". *)
Theorem forgot_then_reset EmailField mk env d s outbox address u pw pw' :
  EmailField d = Ok address ->
  users_with_email address s = [u] ->
  valid_date (dt_date (env_now env)) -> valid_clock (env_now env) ->
  toordinal (dt_date (env_now env)) < MAXORDINAL ->
  (forall x, In x (reset_tokens s) -> token x <> env_uuid env) ->
  env_delivered env = true ->
  CharField "token" 0 (Some (env_uuid env)) = Ok (env_uuid env) ->
  CharField "new_password" 8 (Some pw) = Ok pw' ->
  exists t s1,
    forgot_password_post EmailField env d (s, outbox)
    = (Answered (mk_DetailResponse HTTP_200_OK "Password reset link sent"),
       (s1, outbox ++ [reset_mail address (env_uuid env)]))
    /\ reset_tokens s1 = reset_tokens s ++ [t] /\ users s1 = users s
    /\ t_user t = user_id u /\ token t = env_uuid env
    /\ instant (expires_at t) = instant (env_now env) + 900000000
    /\ forall now',
        let body := mk_ResetData (Some (env_uuid env)) (Some pw) in
        (instant now' <= instant (env_now env) + 900000000 ->
         exists s2,
           reset_password_post mk now' body s1
           = (Ok (mk_DetailResponse HTTP_200_OK "Password reset successful"),
              s2)
           /\ (forall x, In x (users s2) -> user_id x = user_id u ->
                         password x = mk pw')
           /\ map user_id (users s2) = map user_id (users s))
        /\ (instant (env_now env) + 900000000 < instant now' ->
            exists s2,
              reset_password_post mk now' body s1
              = (Ok (mk_DetailResponse HTTP_400_BAD_REQUEST "Token expired"),
                 s2)
              /\ users s2 = users s).
Proof.
  intros Hd Hu Hvd Hvc Hmax Hnew Hdel Htok Hpw.
  pose proof (toordinal_bounds _ Hvd) as Ho.
  destruct (datetime_add_instant (env_now env) (mk_timedelta 0 900 0) Hvc)
    as (expires & Hadd & Hinst); cbn [td_days td_seconds td_microseconds];
    try lia.
  change (td_total_microseconds (mk_timedelta 0 900 0)) with 900000000
    in Hinst.
  set (row := mk_PasswordResetToken (env_pk env) (user_id u) (env_uuid env)
                expires (env_created env)).
  set (s1 := set_reset_tokens s (reset_tokens s ++ [row])).
  exists row, s1.
  assert (Hget : get_reset_token (env_uuid env) s1 = Some row).
  { apply get_reset_token_appended; [exact Hnew | reflexivity]. }
  assert (Hus : users s1 = users s) by (destruct s; reflexivity).
  assert (Hfind : exists u', find_user (user_id u) s1 = Some u').
  { destruct (find_user (user_id u) s1) as [u'|] eqn:Hf; [eauto|].
    exfalso.
    apply (proj1 (find_user_None (user_id u) s1) Hf u); [|reflexivity].
    rewrite Hus. apply (users_with_email_In address). rewrite Hu. left.
    reflexivity. }
  split.
  { unfold forgot_password_post. rewrite Hd, Hu, timedelta_minutes_15, Hadd.
    rewrite existsb_token_false by exact Hnew. rewrite Hdel. reflexivity. }
  split; [destruct s; reflexivity|]. split; [exact Hus|].
  split; [reflexivity|]. split; [reflexivity|]. split; [exact Hinst|].
  intros now'. set (body := mk_ResetData (Some (env_uuid env)) (Some pw)).
  assert (Hv : ResetPasswordSerializer_is_valid body
               = Ok (env_uuid env, pw')).
  { unfold ResetPasswordSerializer_is_valid, body.
    cbn [rp_token rp_new_password]. rewrite Htok. cbn [bind].
    rewrite Hpw. reflexivity. }
  unfold reset_password_post. rewrite Hv, Hget.
  split.
  - intros Hle.
    assert (Hexp : is_expired now' row = false).
    { unfold is_expired, datetime_ltb. apply Z.ltb_ge. cbn [expires_at row].
      lia. }
    rewrite Hexp. cbn [t_user row]. destruct Hfind as (u' & Hf). rewrite Hf.
    eexists. split; [reflexivity|].
    apply find_user_Some in Hf as [_ Hid].
    destruct (delete_reset_token_tables row
                (set_password mk (user_id u') pw' s1)) as (-> & _).
    split.
    + unfold set_password. destruct s1 as [us ? ? ? ? ? ?].
      cbn [users set_users]. intros x Hx Hxid.
      apply in_map_iff in Hx as (x0 & <- & Hx0).
      destruct (Z.eqb_spec (user_id x0) (user_id u')) as [E | E];
        [reflexivity|].
      exfalso. apply E. destruct (user_id x0 =? user_id u') eqn:E'.
      * apply Z.eqb_eq in E'. exact E'.
      * congruence.
    + destruct (set_password_tables mk (user_id u') pw' s1)
        as (_ & _ & _ & _ & _ & _ & ->).
      rewrite Hus. reflexivity.
  - intros Hgt.
    assert (Hexp : is_expired now' row = true).
    { apply is_expired_iff. cbn [expires_at row]. lia. }
    rewrite Hexp. eexists. split; [reflexivity|].
    destruct (delete_reset_token_tables row s1) as (-> & _). exact Hus.
Qed.

(** Property X22.  A forgot-password request for an address that nobody
    has answers 404 "User not found" and changes nothing; an address
    that two users share ends in [MultipleObjectsReturned]; a token
    string that is taken ends in [IntegrityError]; and when [send_mail]
    raises, the token is stored already and stays usable.  Earlier
    tokens are never removed. *)
Theorem forgot_password_failures EmailField env d s outbox address :
  EmailField d = Ok address ->
  let run := forgot_password_post EmailField env d (s, outbox) in
  ((forall u, In u (users s) -> email u <> address) ->
   run = (Answered (mk_DetailResponse HTTP_404_NOT_FOUND "User not found"),
          (s, outbox)))
  /\ ((2 <= List.length (users_with_email address s))%nat ->
      run = (Failed MultipleObjectsReturned, (s, outbox)))
  /\ (forall u expires,
         users_with_email address s = [u] ->
         datetime_add (env_now env) (timedelta_minutes 15) = Ok expires ->
         ((exists x, In x (reset_tokens s) /\ token x = env_uuid env) ->
          run = (Failed IntegrityError, (s, outbox)))
         /\ ((forall x, In x (reset_tokens s) -> token x <> env_uuid env) ->
             env_delivered env = false ->
             exists row,
               run = (Failed SMTPException,
                      (set_reset_tokens s (reset_tokens s ++ [row]), outbox))
               /\ get_reset_token (env_uuid env)
                    (set_reset_tokens s (reset_tokens s ++ [row]))
                  = Some row
               /\ t_user row = user_id u /\ expires_at row = expires)
         /\ (forall t, In t (reset_tokens s) ->
                       In t (reset_tokens (fst (snd run))))).
Proof.
  intros Hd run. subst run. unfold forgot_password_post. rewrite Hd.
  split; [|split].
  - intros Hnone.
    assert (E : users_with_email address s = []).
    { unfold users_with_email.
      destruct (filter _ (users s)) as [|x l] eqn:Hf; [reflexivity|].
      assert (Hx : In x (filter (fun u => String.eqb (email u) address)
                           (users s))) by (rewrite Hf; left; reflexivity).
      apply filter_In in Hx as [Hx He]. apply String.eqb_eq in He.
      exfalso. exact (Hnone x Hx He). }
    rewrite E. reflexivity.
  - destruct (users_with_email address s) as [|u1 [|u2 rest]];
      cbn [List.length]; [lia | lia | reflexivity].
  - intros u expires -> ->. split; [|split].
    + intros (x & Hx & He).
      assert (E : existsb (fun t => String.eqb (token t) (env_uuid env))
                    (reset_tokens s) = true).
      { apply existsb_exists. exists x. split; [exact Hx|].
        apply String.eqb_eq. exact He. }
      rewrite E. reflexivity.
    + intros Hnew Hdel. rewrite existsb_token_false by exact Hnew.
      rewrite Hdel. eexists. split; [reflexivity|].
      split; [apply get_reset_token_appended; [exact Hnew | reflexivity]|].
      split; reflexivity.
    + intros t Ht. destruct (existsb _ (reset_tokens s)); cbn [snd fst];
        [exact Ht|].
      destruct (env_delivered env); cbn [snd fst]; destruct s;
        cbn [reset_tokens set_reset_tokens] in *; apply in_or_app; left;
        exact Ht.
Qed.

End ForgotPassword.

(* ================================================================== *)
(** * The properties at sample data                                 *)
(* ================================================================== *)

Module Examples.

Import DatetimeFacts BoundaryFacts QuerysetFacts Attendees EventStore Reminders
  PasswordReset Fixtures QuerysetExact CalendarViews EventWrites ReminderViews StoreInvariants EventClock ResetTokens ForgotPassword MoreFixtures.

Lemma legacy_filter_silently_skipped_witness :
  get_queryset lib0 alice (q_legacy "soon" "week") store5
  = get_queryset lib0 alice no_params store5
  /\ dispatch lib0 now0 alice (q_legacy "2025-13-45" "week") EventsList store5
     = (Raise ValueError, store5).
Proof.
  split.
  - destruct (legacy_filter_silently_skipped lib0 now0 alice
                (q_legacy "soon" "week") store5) as [H _].
    apply H. right. left. vm_compute. reflexivity.
  - destruct (legacy_filter_silently_skipped lib0 now0 alice
                (q_legacy "2025-13-45" "week") store5) as [_ H].
    destruct (H ValueError) as [_ Hd]; [reflexivity | vm_compute; reflexivity|].
    exact Hd.
Defined.

Lemma calendar_views_sorted_witness :
  exists resp,
    week_view lib0 now0 alice (q_week "2025-01-15") store5 = Ok resp
    /\ (status resp = HTTP_400_BAD_REQUEST
        \/ exists d w qs,
            reference_date lib0 now0 (q_week "2025-01-15") = Ok (Some d)
            /\ week_window lib0 alice d = Ok w
            /\ get_queryset lib0 alice (q_week "2025-01-15") store5 = Ok qs
            /\ sorted_listing store5 resp
                 (filter (in_window (fst w) (snd w)) qs)).
Proof.
  eexists. split; [vm_compute; reflexivity|].
  apply (proj1 (calendar_views_sorted lib0 now0 alice (q_week "2025-01-15")
                  store5 _)).
  vm_compute. reflexivity.
Defined.

Lemma week_view_is_the_calendar_week_witness :
  exists w,
    week_window lib0 alice (mk_date 2025 1 15) = Ok w
    /\ in_window (fst w) (snd w)
         (event0 1 1 (at_ 2025 1 14 9 0 0 0) (at_ 2025 1 14 10 0 0 0))
       = true.
Proof.
  destruct (week_view_is_the_calendar_week lib0 alice (mk_date 2025 1 15)
              (event0 1 1 (at_ 2025 1 14 9 0 0 0) (at_ 2025 1 14 10 0 0 0)))
    as (w & Hw & Hiff).
  - repeat split; vm_compute; discriminate.
  - vm_compute. discriminate.
  - reflexivity.
  - repeat split; vm_compute; discriminate.
  - exists w. split; [exact Hw|]. apply Hiff. vm_compute. reflexivity.
Defined.

Lemma month_view_misses_last_second_witness :
  exists w,
    month_window lib0 alice 2025 1 = Ok w
    /\ in_window (fst w) (snd w)
         (event0 9 1 (at_ 2025 1 31 23 59 59 500000) (at_ 2025 2 1 1 0 0 0))
       = false
    /\ legacy_view_filter "month" (mk_date 2025 1 10)
         (event0 9 1 (at_ 2025 1 31 23 59 59 500000) (at_ 2025 2 1 1 0 0 0))
       = true.
Proof.
  destruct (month_view_misses_last_second lib0 alice 2025 1 500000
              (event0 9 1 (at_ 2025 1 31 23 59 59 500000)
                 (at_ 2025 2 1 1 0 0 0)))
    as (w & Hw & Hout & Hleg); try lia; try reflexivity.
  exists w. split; [exact Hw|]. split; [exact Hout|].
  apply Hleg; reflexivity.
Defined.

Lemma NoDup_ids_store5 : NoDup (map id (events store5)).
Proof.
  cbn. repeat constructor; cbn; intros H;
    repeat (destruct H as [H | H]; [discriminate|]); exact H.
Qed.


Lemma get_object_exact_witness :
  get_object lib0 alice no_params 1 store5 = Ok ev1
  /\ get_object lib0 carol no_params 3 store5
     = Raise (no_match "CalendarEvent").
Proof.
  split.
  - apply (proj1 (get_object_exact lib0 now0 alice no_params 1 store5 None
                    NoDup_ids_store5 eq_refl)).
    split; [left; reflexivity|]. split; [reflexivity|].
    split; [left; reflexivity|].
    split; [split; [discriminate | discriminate]|].
    split; [discriminate | discriminate].
  - apply (proj2 (get_object_exact lib0 now0 carol no_params 3 store5 None
                    NoDup_ids_store5 eq_refl)).
    intros e (Hin & Hid & Hvis & _).
    cbn in Hin. destruct Hin as [<- | [<- | [<- | []]]]; try discriminate.
    destruct Hvis as [Hc | Ha]; [discriminate|].
    vm_compute in Ha. exact Ha.
Defined.

Lemma destroy_cascades_witness :
  exists s',
    destroy lib0 alice no_params 1 store5
    = (Ok (mk_Response HTTP_204_NO_CONTENT NoContent), s')
    /\ map id (events s') = [2; 3]
    /\ event_attendees s' = [(2, 1); (2, 3)]
    /\ forall r, In r (event_attendees s')
                 <-> In r (event_attendees store5) /\ fst r <> 1.
Proof.
  destruct (destroy_cascades lib0 alice no_params 1 store5 ev1)
    as (s' & Hd & _ & Hr & _); [vm_compute; reflexivity|].
  exists s'. split; [exact Hd|].
  assert (E : s' = snd (destroy lib0 alice no_params 1 store5))
    by (rewrite Hd; reflexivity).
  split; [rewrite E; vm_compute; reflexivity|].
  split; [rewrite E; vm_compute; reflexivity|].
  exact Hr.
Defined.




Lemma update_keeps_identity_witness :
  exists inst e,
    get_object lib0 alice no_params 1 store6 = Ok inst
    /\ id e = 1 /\ created_by e = created_by inst
    /\ created_at e = created_at inst /\ updated_at e = now0
    /\ end_datetime e = at_ 2025 1 14 11 0 0 0.
Proof.
  assert (Hup : exists resp s',
             update lib0 now0 alice no_params false 1
               (data0 (at_ 2025 1 14 9 0 0 0) (at_ 2025 1 14 11 0 0 0)) store6
             = (Ok resp, s'))
    by (eexists; eexists; vm_compute; reflexivity).
  destruct Hup as (resp & s' & Hup).
  destruct (update_keeps_identity _ _ _ _ _ _ _ _ _ _ Hup)
    as (inst & e & Hobj & _ & Hid & _ & Hby & Hat & Hnow & _ & _ & _ & Hen
        & _).
  exists inst, e. split; [exact Hobj|]. split; [exact Hid|].
  split; [exact Hby|]. split; [exact Hat|]. split; [exact Hnow | exact Hen].
Defined.

Lemma NoDup_rows_store5 : NoDup (event_attendees store5).
Proof.
  cbn. repeat constructor; cbn; intros H;
    repeat (destruct H as [H | H]; [discriminate|]); exact H.
Qed.

Lemma attendee_count_witness :
  li_attendee_count (to_list_item store5 ev1) = 2
  /\ li_attendee_count (to_list_item (attendees_add 1 1 store5) ev1) = 3
  /\ li_attendee_count (to_list_item (attendees_add 1 2 store5) ev1) = 2
  /\ li_attendee_count (to_list_item (attendees_remove 1 2 store5) ev1) = 1.
Proof.
  destruct (attendee_count_follows_add_and_remove 1 1 store5 ev1
              NoDup_rows_store5 eq_refl) as (Ha & _).
  destruct (attendee_count_follows_add_and_remove 1 2 store5 ev1
              NoDup_rows_store5 eq_refl) as (Ha' & Hr & _).
  cbv beta in *. split; [reflexivity|].
  split; [rewrite Ha; reflexivity|].
  split; [rewrite Ha'; reflexivity|]. rewrite Hr. reflexivity.
Defined.

Lemma event_rows_consistent_store5 : event_rows_consistent store5.
Proof.
  split; [exact NoDup_ids_store5|]. split.
  { cbn. intros i H. repeat (destruct H as [<- | H]; [lia|]). destruct H. }
  split; [exact NoDup_rows_store5|].
  cbn. intros r H.
  repeat (destruct H as [<- | H]; [cbn; tauto|]). destruct H.
Qed.

Lemma requests_keep_event_rows_witness :
  event_rows_consistent
    (run lib0 now0 alice
       [(no_params,
         EventsCreate (data0 (at_ 2025 1 20 9 0 0 0) (at_ 2025 1 20 10 0 0 0)));
        (no_params, EventsAddAttendee 2 (VInt 3));
        (no_params, EventsDestroy 1)]
       store5).
Proof.
  apply (proj2 (requests_keep_event_rows_consistent lib0 store5
                  event_rows_consistent_store5)).
Defined.

Lemma upcoming_lists_due_reminders_witness :
  exists rs,
    upcoming now0 alice store8
    = Ok (mk_Response HTTP_200_OK (ReminderList rs))
    /\ In reminder0 rs.
Proof.
  destruct (upcoming_lists_due_reminders now0 alice store8)
    as (rs & Hu & _ & Hiff).
  - repeat split; vm_compute; discriminate.
  - repeat split; vm_compute; discriminate.
  - vm_compute. reflexivity.
  - exists rs. split; [exact Hu|]. apply Hiff.
    split; [left; reflexivity|]. split; [reflexivity|].
    split; [reflexivity|]. split; vm_compute; discriminate.
Defined.

Lemma reminders_of_others_are_hidden_witness :
  dispatch lib0 now0 bob no_params (RemindersRetrieve 1) store8
  = (Ok (mk_Response HTTP_404_NOT_FOUND (ErrorBody "detail"
                                        "No EventReminder matches the given query.")),
     store8)
  /\ dispatch lib0 now0 bob no_params (RemindersDestroy 1) store8
     = (Ok (mk_Response HTTP_404_NOT_FOUND (ErrorBody "detail"
                                        "No EventReminder matches the given query.")),
        store8)
  /\ dispatch lib0 now0 alice no_params (RemindersRetrieve 1) store8
     = (Ok (mk_Response HTTP_200_OK (ReminderDetail reminder0)), store8).
Proof.
  destruct (reminders_of_others_are_hidden lib0 now0 bob no_params store8
              reminder0)
    as (H1 & _ & H3 & _ & _ & H6).
  - cbn. repeat constructor. intros [].
  - left. reflexivity.
  - discriminate.
  - split; [exact H1|]. split; [exact H3|]. apply (H6 alice). reflexivity.
Defined.

Lemma reminder_create_witness :
  exists s',
    dispatch lib0 now0 bob no_params (RemindersCreate reminder_data0) store8
    = (Ok (mk_Response HTTP_201_CREATED
             (ReminderDetail
                (mk_EventReminder 2 1 1 (at_ 2025 1 10 13 30 0 0) false None))),
       s')
    /\ get_reminder bob 2 s' = Raise (no_match "EventReminder")
    /\ dispatch lib0 now0 bob no_params (RemindersCreate reminder_data0) s'
       = (Ok (mk_Response HTTP_400_BAD_REQUEST
                (ErrorBody "non_field_errors"
                   "The fields event, user, reminder_datetime must make a unique set.")),
          s').
Proof.
  pose proof (reminder_create_takes_owner_from_body lib0 now0 bob no_params
                reminder_data0 store8 1 1 (at_ 2025 1 10 13 30 0 0)
                eq_refl eq_refl eq_refl eq_refl) as H.
  cbv zeta in H.
  assert (E : existsb (same_reminder_key 1 1 (at_ 2025 1 10 13 30 0 0))
                (reminders store8) = false) by (vm_compute; reflexivity).
  rewrite E in H. destruct H as (s' & Hc & Hr & _ & _ & _ & _ & Hnf & _).
  - exists alice. reflexivity.
  - cbn. intros x [<- | []]. cbn. lia.
  - exists s'. split; [exact Hc|]. split.
    + apply Hnf. discriminate.
    + assert (Es : s' = snd (dispatch lib0 now0 bob no_params
                                (RemindersCreate reminder_data0) store8))
        by (rewrite Hc; reflexivity).
      rewrite Es. vm_compute. reflexivity.
Defined.

Lemma reminder_rows_consistent_store8 : reminder_rows_consistent store8.
Proof.
  split; [cbn; repeat constructor; intros []|]. split.
  { cbn. intros i [<- | []]. lia. }
  split.
  { cbn. intros a b [<- | []] [<- | []] _ _ _. reflexivity. }
  cbn. intros r [<- | []]. cbn. tauto.
Qed.

Lemma requests_keep_reminder_rows_witness :
  reminder_rows_consistent
    (run lib0 now0 alice
       [(no_params, RemindersCreate reminder_data0);
        (no_params, RemindersPartialUpdate 1 reminder_data0);
        (no_params, EventsDestroy 1)]
       store8).
Proof.
  apply (proj2 (requests_keep_reminder_rows_consistent lib0 store8
                  reminder_rows_consistent_store8)).
Defined.

Lemma past_excludes_ongoing_witness :
  is_past (at_ 2025 1 14 10 0 0 1) ev1 = true
  /\ is_ongoing (at_ 2025 1 14 10 0 0 1) ev1 = false
  /\ is_ongoing (at_ 2025 1 14 9 30 0 0) ev1 = true.
Proof.
  split; [reflexivity|]. split; [|reflexivity].
  apply (proj1 (past_excludes_ongoing (at_ 2025 1 14 10 0 0 1)
                  (at_ 2025 1 14 10 0 0 1) ev1 (Z.le_refl _))).
  reflexivity.
Defined.

Lemma reset_token_is_single_use_witness :
  let s1 := snd (reset_password_post hash0 now0
                   (reset0 "d4e5f6" "new-password") store7) in
  get_reset_token "d4e5f6" s1 = None
  /\ reset_password_post hash0 now0 (reset0 "d4e5f6" "new-password") s1
     = (Ok (mk_DetailResponse HTTP_400_BAD_REQUEST "Invalid token"), s1)
  /\ In token0 (reset_tokens s1).
Proof.
  destruct (reset_token_is_single_use hash0 now0 now0
              (reset0 "d4e5f6" "new-password") store7 "d4e5f6" "new-password"
              token1)
    as (H1 & H2 & _ & H4).
  - cbn. repeat constructor; cbn; intros H;
      repeat (destruct H as [H | H]; [discriminate|]); exact H.
  - vm_compute. reflexivity.
  - vm_compute. reflexivity.
  - exists bob. vm_compute. reflexivity.
  - cbv zeta in *. split; [exact H1|]. split; [exact H2|].
    apply H4; [left; reflexivity | discriminate].
Defined.

Lemma forgot_then_reset_witness :
  exists t s1 s2,
    forgot_password_post email_field0 env0 (Some "bob@crm.test"%string)
      (store7, [])
    = (Answered (mk_DetailResponse HTTP_200_OK "Password reset link sent"),
       (s1, [reset_mail "bob@crm.test" "0123abcd"]))
    /\ reset_tokens s1 = [token0; token1; t]
    /\ expires_at t = at_ 2025 1 10 12 15 0 0
    /\ reset_password_post hash0 (at_ 2025 1 10 12 15 0 0)
         (reset0 "0123abcd" "new-password") s1
       = (Ok (mk_DetailResponse HTTP_200_OK "Password reset successful"), s2)
    /\ (forall x, In x (users s2) -> user_id x = 2 ->
                  password x = hash0 "new-password").
Proof.
  destruct (forgot_then_reset email_field0 hash0 env0
              (Some "bob@crm.test"%string) store7 [] "bob@crm.test" bob
              "new-password" "new-password")
    as (t & s1 & Hf & Ht & _ & _ & _ & Hexp & Hreset).
  - reflexivity.
  - reflexivity.
  - repeat split; vm_compute; discriminate.
  - repeat split; vm_compute; discriminate.
  - vm_compute. reflexivity.
  - cbn. intros x [<- | [<- | []]]; discriminate.
  - reflexivity.
  - vm_compute. reflexivity.
  - vm_compute. reflexivity.
  - destruct (Hreset (at_ 2025 1 10 12 15 0 0)) as [Hok _].
    destruct Hok as (s2 & Hr & Hpw & _).
    { vm_compute. discriminate. }
    exists t, s1, s2. split; [exact Hf|]. split; [exact Ht|].
    assert (Es : s1 = fst (snd (forgot_password_post email_field0 env0
                                  (Some "bob@crm.test"%string) (store7, []))))
      by (rewrite Hf; reflexivity).
    assert (Et : [token0; token1; t] = reset_tokens s1)
      by (rewrite Ht; reflexivity).
    rewrite Es in Et. vm_compute in Et. injection Et as Et.
    split; [rewrite Et; reflexivity|].
    split; [exact Hr | exact Hpw].
Defined.

Lemma forgot_password_failures_witness :
  forgot_password_post email_field0 env0 (Some "dave@crm.test"%string)
    (store7, [])
  = (Answered (mk_DetailResponse HTTP_404_NOT_FOUND "User not found"),
     (store7, []))
  /\ forgot_password_post email_field0 env0 (Some "bob@crm.test"%string)
       (set_users store7 [alice; bob; bob], [])
     = (Failed MultipleObjectsReturned, (set_users store7 [alice; bob; bob], [])).
Proof.
  split.
  - destruct (forgot_password_failures email_field0 env0
                (Some "dave@crm.test"%string) store7 [] "dave@crm.test"
                eq_refl) as (H & _).
    apply H. cbn. intros u [<- | [<- | [<- | []]]]; discriminate.
  - destruct (forgot_password_failures email_field0 env0
                (Some "bob@crm.test"%string)
                (set_users store7 [alice; bob; bob]) [] "bob@crm.test"
                eq_refl) as (_ & H & _).
    apply H. cbn. lia.
Defined.

End Examples.
